(** * kernel-renames: [build_db.py]

    A shallow embedding of the index builder: the Python string primitives
    the script relies on, the SQLite schema with its insert operations and
    read views, the raw-diff parser, the tag resolver, the range partitioner
    and the backport correlator, followed by the properties checked on
    them.

    Conventions.
    - A Python [str] is a [string]; the script only ever splits on and
      searches for ASCII characters, which occur in UTF-8 text only as
      themselves, so bytes are a faithful carrier.
    - A Python exception is the [Raise] branch of [result].
    - What the script gets from git, pygit2 and the network (the lines of a
      [git log], the resolution of a revision, the content of a blob) is a
      function argument. *)

From Stdlib Require Import ZArith List String Ascii Bool Lia Permutation Sorted.
Import ListNotations.

Local Open Scope string_scope.
Local Open Scope Z_scope.

(** ** Exceptions *)

Inductive exn : Type :=
| ValueError
| IndexError
| KeyError
| IntegrityError
| CalledProcessError
| GitError
| OverflowError
| NameError.

Inductive result (A : Type) : Type :=
| Ok (a : A)
| Raise (e : exn).

Arguments Ok {A} a.
Arguments Raise {A} e.

Definition bind {A B : Type} (m : result A) (k : A -> result B) : result B :=
  match m with
  | Ok a => k a
  | Raise e => Raise e
  end.

Notation "x <- m ;; k" := (bind m (fun x => k))
  (at level 61, m at next level, right associativity).

Fixpoint mapM {A B : Type} (f : A -> result B) (l : list A) : result (list B) :=
  match l with
  | [] => Ok []
  | a :: l' => b <- f a ;; bs <- mapM f l' ;; Ok (b :: bs)
  end.

(** ** Python string primitives *)

Module PyStr.

(** [s.split(sep)] for a one-character separator, and [re.split] for a
    character class: the pieces between the separators, always at least
    one piece. *)
Fixpoint split_on (p : ascii -> bool) (s : string) : list string :=
  match s with
  | EmptyString => [EmptyString]
  | String c s' =>
      if p c then EmptyString :: split_on p s'
      else match split_on p s' with
           | [] => [String c EmptyString]
           | w :: ws => String c w :: ws
           end
  end.

Definition split (sep : ascii) : string -> list string :=
  split_on (Ascii.eqb sep).

Definition startswith (p s : string) : bool := String.prefix p s.

(** [s[n:]] *)
Fixpoint drop (n : nat) (s : string) : string :=
  match n, s with
  | O, _ => s
  | S _, EmptyString => EmptyString
  | S n', String _ s' => drop n' s'
  end.

(** [s[:n]] *)
Fixpoint take (n : nat) (s : string) : string :=
  match n, s with
  | O, _ => EmptyString
  | S _, EmptyString => EmptyString
  | S n', String c s' => String c (take n' s')
  end.

(** [p in s] *)
Fixpoint contains (p s : string) : bool :=
  String.prefix p s
  || match s with
     | EmptyString => false
     | String _ s' => contains p s'
     end.

(** [l[i]], raising [IndexError] out of range (only non-negative
    constant indexes occur in the script). *)
Definition index {A : Type} (l : list A) (i : nat) : result A :=
  match nth_error l i with
  | Some a => Ok a
  | None => Raise IndexError
  end.

Definition code (c : ascii) : Z := Z.of_nat (nat_of_ascii c).

Definition is_digit (c : ascii) : bool := (48 <=? code c) && (code c <=? 57).

(** The ASCII characters that [int] strips: TAB..CR, FS..US and space. *)
Definition is_space (c : ascii) : bool :=
  ((9 <=? code c) && (code c <=? 13)) || ((28 <=? code c) && (code c <=? 32)).

Fixpoint lstrip (s : string) : string :=
  match s with
  | EmptyString => EmptyString
  | String c s' => if is_space c then lstrip s' else s
  end.

Fixpoint rstrip (s : string) : string :=
  match s with
  | EmptyString => EmptyString
  | String c s' =>
      match rstrip s' with
      | EmptyString => if is_space c then EmptyString else String c EmptyString
      | r => String c r
      end
  end.

(** Decimal digits, with single underscores allowed between two digits.
    [prev] tells whether the previous character was a digit. *)
Fixpoint digits (acc : Z) (prev : bool) (s : string) : option Z :=
  match s with
  | EmptyString => if prev then Some acc else None
  | String c s' =>
      if is_digit c then digits (10 * acc + (code c - 48)) true s'
      else if Ascii.eqb c "_" && prev then digits acc false s'
      else None
  end.

(** The number of decimal digits in a string. *)
Fixpoint count_digits (s : string) : Z :=
  match s with
  | EmptyString => 0
  | String c s' => (if is_digit c then 1 else 0) + count_digits s'
  end.

(** [int(s)] for the ASCII range: surrounding white space, an optional
    sign, decimal digits; anything else raises [ValueError], and so does
    a number of more than 4300 digits (the default limit of the
    interpreter). Decimal digits and white space outside ASCII, which
    Python also accepts, are not covered: they raise here. *)
Definition int (s : string) : result Z :=
  let body := rstrip (lstrip s) in
  let signed :=
    match body with
    | String "+" r => digits 0 false r
    | String "-" r => option_map Z.opp (digits 0 false r)
    | _ => digits 0 false body
    end in
  match signed with
  | Some n => if 4300 <? count_digits body then Raise ValueError else Ok n
  | None => Raise ValueError
  end.

Fixpoint has_char (p : ascii -> bool) (s : string) : bool :=
  match s with
  | EmptyString => false
  | String c s' => p c || has_char p s'
  end.

End PyStr.

(** ** Tag ordering *)

Module Tags.
Import PyStr.

Definition is_dot_or_dash (c : ascii) : bool :=
  Ascii.eqb c "." || Ascii.eqb c "-".

(** [key_function]: the first three pieces of the version between dots and
    dashes, each read as an integer, the third one after dropping a leading
    [rc]. *)
Definition key_function (s : string) : result (list Z) :=
  let arr := firstn 3 (split_on is_dot_or_dash s) in
  a0 <- index arr 0 ;;
  k0 <- int a0 ;;
  match arr with
  | _ :: a1 :: rest =>
      k1 <- int a1 ;;
      match rest with
      | a2 :: _ =>
          k2 <- (if startswith "rc" a2 then int (drop 2 a2) else int a2) ;;
          Ok [k0; k1; k2]
      | [] => Ok [k0; k1]
      end
  | _ => Ok [k0]
  end.

(** Python's [<] on lists of integers. *)
Fixpoint list_lt (a b : list Z) : bool :=
  match a, b with
  | [], [] => false
  | [], _ :: _ => true
  | _ :: _, [] => false
  | x :: a', y :: b' => (x <? y) || ((x =? y) && list_lt a' b')
  end.

Section Sorted.
Context {A K : Type}.
Variable lt : K -> K -> bool.

(** Stable insertion: the new element goes after the elements that are
    not greater than it. *)
Fixpoint insert_by (x : K * A) (l : list (K * A)) : list (K * A) :=
  match l with
  | [] => [x]
  | y :: l' => if lt (fst x) (fst y) then x :: y :: l' else y :: insert_by x l'
  end.

Definition stable_sort (l : list (K * A)) : list (K * A) :=
  fold_left (fun acc x => insert_by x acc) l [].

(** Two neighbours are in order when the second is not less than the
    first. *)
Definition in_order (x y : K * A) : Prop := lt (fst y) (fst x) = false.

(** [sorted(l, key=f)]: every key is computed first (an exception of
    [f] propagates), then the elements are sorted stably by [<] on the
    keys. *)
Definition sorted (key : A -> result K) (l : list A) : result (list A) :=
  ks <- mapM key l ;;
  Ok (map snd (stable_sort (combine ks l))).
End Sorted.

(** [groupby] keys: consecutive duplicates collapse. *)
Fixpoint uniq (l : list string) : list string :=
  match l with
  | [] => []
  | x :: l' =>
      match l' with
      | y :: _ => if String.eqb x y then uniq l' else x :: uniq l'
      | [] => [x]
      end
  end.

End Tags.

(** ** The relational store *)

Module Sql.

(** A row of [tags], [commits] or [files]. Columns hold SQL values, so a
    text column is an [option string] with [None] for NULL; that the
    [NOT NULL] columns never hold NULL is a property of the inserts. *)
Record named : Type := { n_id : Z; n_name : option string }.

Record branch : Type :=
  { b_id : Z; b_name : option string; b_tag_id : option Z }.

Record backport : Type :=
  { bp_id : Z; bp_commit_id : option Z; bp_branch_id : option Z }.

Record change : Type :=
  { ch_id : Z;
    ch_score : option Z;
    ch_commit_id : option Z;
    ch_from_id : option Z;
    ch_to_id : option Z;
    ch_tag_id : option Z }.

(** A table with an [AUTOINCREMENT] key: its rows in insertion order and
    the largest key ever handed out (SQLite's [sqlite_sequence]). *)
Record table (R : Type) : Type := { rows : list R; seq : Z }.

Arguments rows {R} t.
Arguments seq {R} t.

Definition empty_table {R : Type} : table R := {| rows := []; seq := 0 |}.

Record db : Type :=
  { tags : table named;
    branches : table branch;
    commits : table named;
    files : table named;
    backports : table backport;
    changes : table change }.

(** [create_db] on a fresh file. *)
Definition create_db : db :=
  {| tags := empty_table; branches := empty_table; commits := empty_table;
     files := empty_table; backports := empty_table; changes := empty_table |}.

Definition set_tags (d : db) (t : table named) : db :=
  {| tags := t; branches := branches d; commits := commits d;
     files := files d; backports := backports d; changes := changes d |}.

Definition set_branches (d : db) (t : table branch) : db :=
  {| tags := tags d; branches := t; commits := commits d;
     files := files d; backports := backports d; changes := changes d |}.

Definition set_commits (d : db) (t : table named) : db :=
  {| tags := tags d; branches := branches d; commits := t;
     files := files d; backports := backports d; changes := changes d |}.

Definition set_files (d : db) (t : table named) : db :=
  {| tags := tags d; branches := branches d; commits := commits d;
     files := t; backports := backports d; changes := changes d |}.

Definition set_backports (d : db) (t : table backport) : db :=
  {| tags := tags d; branches := branches d; commits := commits d;
     files := files d; backports := t; changes := changes d |}.

Definition set_changes (d : db) (t : table change) : db :=
  {| tags := tags d; branches := branches d; commits := commits d;
     files := files d; backports := backports d; changes := t |}.

(** The key of the next row: one more than every key in use or used. *)
Definition next_id {R : Type} (key : R -> Z) (t : table R) : Z :=
  fold_right Z.max (seq t) (map key (rows t)) + 1.

(** SQL [=] on two text values: NULL equals nothing. *)
Definition sql_eq (a b : option string) : bool :=
  match a, b with
  | Some x, Some y => String.eqb x y
  | _, _ => false
  end.

Definition sql_eqZ (a b : option Z) : bool :=
  match a, b with
  | Some x, Some y => x =? y
  | _, _ => false
  end.

(** [(select id from T where name = ?)] as a scalar: the key of the first
    matching row, or NULL. *)
Definition select_id (t : table named) (name : option string) : option Z :=
  option_map n_id (find (fun r => sql_eq (n_name r) name) (rows t)).

Definition select_branch_id (t : table branch) (name : option string) : option Z :=
  option_map b_id (find (fun r => sql_eq (b_name r) name) (rows t)).

(** Does [name] break [UNIQUE NOT NULL] on the [name] column? *)
Definition name_conflict (t : table named) (name : option string) : bool :=
  match name with
  | None => true
  | Some _ => existsb (fun r => sql_eq (n_name r) name) (rows t)
  end.

(** [insert into T (name) VALUES (?)] *)
Definition insert_named (t : table named) (name : option string) : result (table named) :=
  if name_conflict t name then Raise IntegrityError
  else
    let i := next_id n_id t in
    Ok {| rows := rows t ++ [ {| n_id := i; n_name := name |} ]; seq := i |}.

(** [insert or ignore into T (name) VALUES (?)]: a row that breaks a
    constraint is skipped; the key it was given is spent all the same. *)
Definition insert_or_ignore_named (t : table named) (name : option string) : table named :=
  let i := next_id n_id t in
  if name_conflict t name then {| rows := rows t; seq := i |}
  else {| rows := rows t ++ [ {| n_id := i; n_name := name |} ]; seq := i |}.

(** [store_array_into_db]: [executemany] in one transaction. The first
    failing row raises and the transaction is rolled back, which is the
    [Raise] result: the caller still holds the store as it was. *)
Fixpoint executemany {T P : Type} (stmt : T -> P -> result T) (t : T) (many : list P) : result T :=
  match many with
  | [] => Ok t
  | p :: rest => t' <- stmt t p ;; executemany stmt t' rest
  end.

Definition store_tags_into_db (d : db) (uniq_tags : list string) : result db :=
  t <- executemany insert_named (tags d) (map Some uniq_tags) ;;
  Ok (set_tags d t).

Definition store_commits_into_db (d : db) (many : list (option string)) : result db :=
  t <- executemany insert_named (commits d) many ;;
  Ok (set_commits d t).

Definition store_files_into_db (d : db) (many : list (option string)) : result db :=
  t <- executemany (fun t p => Ok (insert_or_ignore_named t p)) (files d) many ;;
  Ok (set_files d t).

(** One parameter tuple of [store_changes_into_db]:
    [(commit, score, from, to, tag)]. *)
Record change_params : Type :=
  { p_commit : string;
    p_score : option Z;
    p_from : option string;
    p_to : option string;
    p_tag : string }.

(** An integer parameter must fit the 64-bit signed integers of SQLite;
    binding a larger one raises [OverflowError] before the statement
    runs. *)
Definition fits_int64 (v : option Z) : bool :=
  match v with
  | Some z => (- 2 ^ 63 <=? z) && (z <? 2 ^ 63)
  | None => true
  end.

Definition insert_change (d : db) (p : change_params) : result db :=
  if negb (fits_int64 (p_score p)) then Raise OverflowError else
  match select_id (commits d) (Some (p_commit p)) with
  | None => Raise IntegrityError
  | Some ci =>
      let i := next_id ch_id (changes d) in
      let r := {| ch_id := i;
                  ch_score := p_score p;
                  ch_commit_id := Some ci;
                  ch_from_id := select_id (files d) (p_from p);
                  ch_to_id := select_id (files d) (p_to p);
                  ch_tag_id := select_id (tags d) (Some (p_tag p)) |} in
      Ok (set_changes d {| rows := rows (changes d) ++ [r]; seq := i |})
  end.

Definition store_changes_into_db (d : db) (many : list change_params) : result db :=
  executemany insert_change d many.

Definition branch_conflict (t : table branch) (name : option string) : bool :=
  match name with
  | None => true
  | Some _ => existsb (fun r => sql_eq (b_name r) name) (rows t)
  end.

Definition insert_branch (d : db) (p : string * string) : result db :=
  match select_id (tags d) (Some (snd p)) with
  | None => Raise IntegrityError
  | Some ti =>
      if branch_conflict (branches d) (Some (fst p)) then Raise IntegrityError
      else
        let i := next_id b_id (branches d) in
        let r := {| b_id := i; b_name := Some (fst p); b_tag_id := Some ti |} in
        Ok (set_branches d {| rows := rows (branches d) ++ [r]; seq := i |})
  end.

(** [store_branches_into_db]: [tags] is the branch-to-version dictionary
    in insertion order. *)
Definition store_branches_into_db (d : db) (tags : list (string * string)) : result db :=
  executemany insert_branch d (map (fun kv => (fst kv, "v" ++ snd kv)) tags).

Definition insert_backport (d : db) (p : string * string) : result db :=
  match select_id (commits d) (Some (fst p)), select_branch_id (branches d) (Some (snd p)) with
  | Some ci, Some bi =>
      let i := next_id bp_id (backports d) in
      let r := {| bp_id := i; bp_commit_id := Some ci; bp_branch_id := Some bi |} in
      Ok (set_backports d {| rows := rows (backports d) ++ [r]; seq := i |})
  | _, _ => Raise IntegrityError
  end.

Definition store_backports_into_db (d : db) (many : list (string * string)) : result db :=
  executemany insert_backport d many.

(** [get_commits]: the names in [commits]. *)
Definition get_commits (d : db) : list (option string) :=
  map n_name (rows (commits d)).

End Sql.

(** ** The read views *)

Module Views.
Import Sql.

(** A view row [(branch, file, sha)], or [(branch, file, new_file, sha)]
    for the rename views; the union views add the [source] column. *)
Definition row3 : Type := option string * option string * option string.
Definition row4 : Type := option string * option string * option string * option string.

Definition is_null {A : Type} (v : option A) : bool :=
  match v with None => true | Some _ => false end.

(** [FROM t JOIN u ON c]: every row of [u] that satisfies [c]. *)
Definition join {R S : Type} (u : table R) (c : R -> bool) (k : R -> list S) : list S :=
  flat_map k (filter c (rows u)).

Definition base_added (d : db) : list row3 :=
  join (files d) (fun _ => true) (fun f =>
  join (changes d) (fun ch => sql_eqZ (ch_to_id ch) (Some (n_id f)) && is_null (ch_from_id ch)) (fun ch =>
  join (commits d) (fun ci => sql_eqZ (Some (n_id ci)) (ch_commit_id ch)) (fun ci =>
  join (tags d) (fun t => sql_eqZ (Some (n_id t)) (ch_tag_id ch)) (fun t =>
  join (branches d) (fun b => sql_eqZ (b_tag_id b) (Some (n_id t))) (fun b =>
  [(b_name b, n_name f, n_name ci)]))))).

Definition base_renamed (d : db) : list row4 :=
  join (files d) (fun _ => true) (fun f =>
  join (changes d) (fun ch => negb (is_null (ch_to_id ch)) && sql_eqZ (ch_from_id ch) (Some (n_id f))) (fun ch =>
  join (files d) (fun nf => sql_eqZ (ch_to_id ch) (Some (n_id nf))) (fun nf =>
  join (commits d) (fun ci => sql_eqZ (Some (n_id ci)) (ch_commit_id ch)) (fun ci =>
  join (tags d) (fun t => sql_eqZ (Some (n_id t)) (ch_tag_id ch)) (fun t =>
  join (branches d) (fun b => sql_eqZ (b_tag_id b) (Some (n_id t))) (fun b =>
  [(b_name b, n_name f, n_name nf, n_name ci)])))))).

Definition base_removed (d : db) : list row3 :=
  join (files d) (fun _ => true) (fun f =>
  join (changes d) (fun ch => is_null (ch_to_id ch) && sql_eqZ (ch_from_id ch) (Some (n_id f))) (fun ch =>
  join (commits d) (fun ci => sql_eqZ (Some (n_id ci)) (ch_commit_id ch)) (fun ci =>
  join (tags d) (fun t => sql_eqZ (Some (n_id t)) (ch_tag_id ch)) (fun t =>
  join (branches d) (fun b => sql_eqZ (b_tag_id b) (Some (n_id t))) (fun b =>
  [(b_name b, n_name f, n_name ci)]))))).

Definition backports_added (d : db) : list row3 :=
  join (backports d) (fun _ => true) (fun bp =>
  join (branches d) (fun b => sql_eqZ (Some (b_id b)) (bp_branch_id bp)) (fun b =>
  join (changes d) (fun ch => sql_eqZ (ch_commit_id ch) (bp_commit_id bp)) (fun ch =>
  join (commits d) (fun ci => sql_eqZ (Some (n_id ci)) (ch_commit_id ch)) (fun ci =>
  join (files d) (fun f => sql_eqZ (Some (n_id f)) (ch_from_id ch) && is_null (ch_to_id ch)) (fun f =>
  [(b_name b, n_name f, n_name ci)]))))).

Definition backports_renamed (d : db) : list row4 :=
  join (backports d) (fun _ => true) (fun bp =>
  join (branches d) (fun b => sql_eqZ (Some (b_id b)) (bp_branch_id bp)) (fun b =>
  join (changes d) (fun ch => sql_eqZ (ch_commit_id ch) (bp_commit_id bp)) (fun ch =>
  join (commits d) (fun ci => sql_eqZ (Some (n_id ci)) (ch_commit_id ch)) (fun ci =>
  join (files d) (fun f => sql_eqZ (Some (n_id f)) (ch_from_id ch) && negb (is_null (ch_to_id ch))) (fun f =>
  join (files d) (fun nf => sql_eqZ (ch_to_id ch) (Some (n_id nf))) (fun nf =>
  [(b_name b, n_name f, n_name nf, n_name ci)])))))).

Definition backports_removed (d : db) : list row3 :=
  join (backports d) (fun _ => true) (fun bp =>
  join (branches d) (fun b => sql_eqZ (Some (b_id b)) (bp_branch_id bp)) (fun b =>
  join (changes d) (fun ch => sql_eqZ (ch_commit_id ch) (bp_commit_id bp)) (fun ch =>
  join (commits d) (fun ci => sql_eqZ (Some (n_id ci)) (ch_commit_id ch)) (fun ci =>
  join (files d) (fun f => sql_eqZ (Some (n_id f)) (ch_from_id ch) && is_null (ch_to_id ch)) (fun f =>
  [(b_name b, n_name f, n_name ci)]))))).

Inductive source : Type := base | backport.

(** [UNION ALL] of the two arms, each row tagged with its source. *)
Definition added (d : db) : list (row3 * source) :=
  map (fun r => (r, base)) (base_added d) ++ map (fun r => (r, backport)) (backports_added d).

Definition renamed (d : db) : list (row4 * source) :=
  map (fun r => (r, base)) (base_renamed d) ++ map (fun r => (r, backport)) (backports_renamed d).

Definition removed (d : db) : list (row3 * source) :=
  map (fun r => (r, base)) (base_removed d) ++ map (fun r => (r, backport)) (backports_removed d).

End Views.

(** ** The diff extractor *)

Module Diff.
Import PyStr Sql.

Definition BIG_BANG : string := "1da177e4c3f41524e886b7f1b8a0c1fc7321cac2".
Definition BLACKLIST : string := "Dell Inc.,XPS 13 9300".

Definition SP : ascii := " ".
Definition TAB : ascii := "009".
Definition NL : ascii := "010".

(** The tuples of [get_renames_with_score_or_none]: [(status, old, new)],
    [('add', path)] and [('del', path)]. *)
Inductive parsed : Type :=
| Ren (status old new : string)
| Add (path : string)
| Del (path : string).

Definition get_renames_with_score_or_none (l : string) : result (option parsed) :=
  field <- index (split SP l) 4 ;;
  let rr := split TAB field in
  rr0 <- index rr 0 ;;
  if startswith "R" rr0 then
    rr1 <- index rr 1 ;; rr2 <- index rr 2 ;; Ok (Some (Ren rr0 rr1 rr2))
  else if startswith "A" rr0 then
    rr1 <- index rr 1 ;; Ok (Some (Add rr1))
  else if startswith "D" rr0 then
    rr1 <- index rr 1 ;; Ok (Some (Del rr1))
  else Ok None.

(** The reference repository as a worker sees it: the output of
    [git log --oneline --raw --no-merges] on a revision range and
    [revparse_single(...).id], an object id being its hexadecimal text. *)
Record linux_repo : Type :=
  { git_log : string -> result string;
    revparse_single : string -> result string;
    root_tree : result (list string) }.

Definition get_hash (l : string) (repo : linux_repo) : result string :=
  tok <- index (split SP l) 0 ;;
  revparse_single repo tok.

(** [str(hash)], [hash] being [None] before the first header line. *)
Definition str_hash (h : option string) : string :=
  match h with
  | Some x => x
  | None => "None"
  end.

(** What one body line adds to [many]. *)
Definition body_line (hash : option string) (end_ l : string) : result (list change_params) :=
  r <- get_renames_with_score_or_none l ;;
  match r with
  | Some (Ren st old new) =>
      score <- int (drop 1 st) ;;
      Ok [ {| p_commit := str_hash hash; p_score := Some score;
              p_from := Some old; p_to := Some new; p_tag := end_ |} ]
  | Some (Add path) =>
      Ok [ {| p_commit := str_hash hash; p_score := None;
              p_from := None; p_to := Some path; p_tag := end_ |} ]
  | Some (Del path) =>
      Ok [ {| p_commit := str_hash hash; p_score := None;
              p_from := Some path; p_to := None; p_tag := end_ |} ]
  | None => Ok []
  end.

(** The loop of [between] over the lines of the log. *)
Fixpoint scan (repo : linux_repo) (end_ : string) (lines : list string)
    (hash : option string) (many : list change_params) : result (list change_params) :=
  match lines with
  | [] => Ok many
  | l :: rest =>
      if String.eqb l "" || startswith (take 12 BIG_BANG) l then Ok many
      else if contains BLACKLIST l then scan repo end_ rest hash many
      else if startswith ":" l then
        rs <- body_line hash end_ l ;;
        scan repo end_ rest hash (many ++ rs)
      else
        h <- get_hash l repo ;;
        scan repo end_ rest (Some h) many
  end.

Definition opt_eqb (a b : option string) : bool :=
  match a, b with
  | Some x, Some y => String.eqb x y
  | None, None => true
  | _, _ => false
  end.

(** A Python set built from a sequence, as the list of its distinct
    elements (in order of first occurrence; a set has no order of its
    own). *)
Fixpoint dedup (l : list (option string)) : list (option string) :=
  match l with
  | [] => []
  | x :: l' => x :: filter (fun y => negb (opt_eqb x y)) (dedup l')
  end.

(** The keys of [groupby]: runs of equal elements collapse. *)
Fixpoint group_keys (l : list (option string)) : list (option string) :=
  match l with
  | [] => []
  | x :: l' =>
      match l' with
      | y :: _ => if opt_eqb x y then group_keys l' else x :: group_keys l'
      | [] => [x]
      end
  end.

(** Truth value of a string: [if f]. *)
Definition truthy (s : option string) : bool :=
  match s with
  | Some x => negb (String.eqb x "")
  | None => false
  end.

Definition range (begin end_ : string) : string :=
  if String.eqb begin "" then end_ else begin ++ ".." ++ end_.

(** [between]: the worker. It returns the store as it leaves it, the set
    of file names and the change tuples. *)
Definition between (repo : linux_repo) (begin end_ : string) (d : db)
    : result (db * (list (option string) * list change_params)) :=
  out <- git_log repo (range begin end_) ;;
  many <- scan repo end_ (split NL out) None [] ;;
  let commits := dedup (map (fun p => Some (p_commit p)) many) in
  d' <- store_commits_into_db d commits ;;
  let filesx := filter truthy (map p_from many) in
  let filesy := map p_to many in
  let files := dedup (group_keys (filesx ++ filesy)) in
  Ok (d', (files, many)).

End Diff.

(** ** The tag resolver *)

Module Resolver.
Import PyStr.

(** A tree of the metadata repository: its entries by full path, each
    with what reading its blob gives ([repo[id].data.decode(...)]): the
    decoded content, or the exception of the object database when the
    object cannot be read. *)
Definition tree : Type := list (string * result string).

(** The metadata repository: [revparse_single(name).tree]. *)
Record ksource_repo : Type :=
  { revparse_tree : string -> result tree }.

(** [repo[tree[path].id].data.decode(...)]: [tree[path]] raises
    [KeyError] when there is no such entry, then the blob is read. *)
Definition tree_get (t : tree) (path : string) : result string :=
  match find (fun e => String.eqb (fst e) path) t with
  | Some e => snd e
  | None => Raise KeyError
  end.

Fixpoint srcversion_of_lines (lines : list string) : result string :=
  match lines with
  | [] => Ok ""
  | l :: rest =>
      if startswith "SRCVERSION=" l then index (split "=" l) 1
      else srcversion_of_lines rest
  end.

Definition extract_srcversion (content : string) : result string :=
  srcversion_of_lines (split Diff.NL content).

(** A [dict] with string keys, in insertion order: [d[k] = v] replaces
    the value of a key that is present and appends the pair otherwise. *)
Fixpoint dict_set {V : Type} (d : list (string * V)) (k : string) (v : V) : list (string * V) :=
  match d with
  | [] => [(k, v)]
  | (k', v') :: d' =>
      if String.eqb k' k then (k', v) :: d' else (k', v') :: dict_set d' k v
  end.

Definition dict_get {V : Type} (d : list (string * V)) (k : string) : option V :=
  option_map snd (find (fun e => String.eqb (fst e) k) d).

(** The body of the [try] for one branch. *)
Definition srcversion_of_branch (repo : ksource_repo) (b : string) : result string :=
  t <- revparse_tree repo ("origin/" ++ b) ;;
  content <- tree_get t "rpm/config.sh" ;;
  extract_srcversion content.

(** [get_tags_from_ksource_tree] returns the dictionary; the second
    component is what it prints on the error stream, a line per list
    element. Only [KeyError] is caught. *)
Fixpoint get_tags_loop (repo : ksource_repo) (branches : list string)
    (ret : list (string * string)) (err : list string)
    : result (list (string * string) * list string) :=
  match branches with
  | [] => Ok (ret, err)
  | b :: rest =>
      match srcversion_of_branch repo b with
      | Ok v => get_tags_loop repo rest (dict_set ret b v) err
      | Raise KeyError => get_tags_loop repo rest ret (err ++ ["# " ++ b])
      | Raise e => Raise e
      end
  end.

Definition get_tags_from_ksource_tree (branches : list string) (repo : ksource_repo)
    : result (list (string * string) * list string) :=
  get_tags_loop repo branches [] [].

(** The tag sequence of [main]: the versions sorted by [key_function],
    prefixed with [v], consecutive duplicates collapsed. *)
Definition uniq_tags (tags : list (string * string)) : result (list string) :=
  pure_tags <- Tags.sorted Tags.list_lt Tags.key_function (map snd tags) ;;
  Ok (Tags.uniq (map (fun p => "v" ++ p) pure_tags)).

End Resolver.

(** ** The range partitioner *)

Module Partition.
Import PyStr.

Fixpoint zip {A B : Type} (a : list A) (b : list B) : list (A * B) :=
  match a, b with
  | x :: a', y :: b' => (x, y) :: zip a' b'
  | _, _ => []
  end.

Definition prepare_tags_for_parallel_partition (uniq_tags : list string)
    : result (list (string * string)) :=
  first <- index uniq_tags 0 ;;
  Ok (("", first) :: zip uniq_tags (tl uniq_tags)).

(** The sequence [main] hands to the partitioner: [uniq_tags] after
    [uniq_tags.append('master')]. *)
Definition with_master (uniq_tags : list string) : list string :=
  uniq_tags ++ ["master"].

Definition tag_pairs (uniq_tags : list string) : result (list (string * string)) :=
  prepare_tags_for_parallel_partition (with_master uniq_tags).

End Partition.

(** ** The backport correlator *)

Module Backport.
Import PyStr Resolver.

Definition is_hex (c : ascii) : bool :=
  is_digit c || ((97 <=? code c) && (code c <=? 102)).

Definition is_blank (c : ascii) : bool :=
  Ascii.eqb c " " || Ascii.eqb c Diff.TAB.

Fixpoint skip_blanks (s : string) : string :=
  match s with
  | String c s' => if is_blank c then skip_blanks s' else s
  | EmptyString => EmptyString
  end.

(** The longest run of at most [n] hexadecimal digits at the head. *)
Fixpoint take_hex (n : nat) (s : string) : string :=
  match n, s with
  | S n', String c s' => if is_hex c then String c (take_hex n' s') else EmptyString
  | _, _ => EmptyString
  end.

(** [HASH_PATTERN] matched at the head of [s]: the text of its group.
    After the label the blanks are skipped, then nine to forty
    hexadecimal digits are taken greedily. *)
Definition match_here (s : string) : option string :=
  if startswith "Git-commit:" s then
    let h := take_hex 40 (skip_blanks (drop 11 s)) in
    if (9 <=? String.length h)%nat then Some h else None
  else None.

(** [re.findall(HASH_PATTERN, l)[0]] when there is a match: the group of
    the leftmost one. *)
Fixpoint first_match (s : string) : option string :=
  match match_here s with
  | Some h => Some h
  | None =>
      match s with
      | String _ s' => first_match s'
      | EmptyString => None
      end
  end.

(** The loop of [get_hash_or_nothing]: the first line with a match
    decides; any failure of the resolution gives [None]. *)
Fixpoint hash_of_lines (lrepo : Diff.linux_repo) (lines : list string) : option string :=
  match lines with
  | [] => None
  | l :: rest =>
      match first_match l with
      | Some ref =>
          match Diff.revparse_single lrepo ref with
          | Ok h => Some h
          | Raise _ => None
          end
      | None => hash_of_lines lrepo rest
      end
  end.

Definition get_hash_or_nothing (fc : string) (lrepo : Diff.linux_repo) : option string :=
  hash_of_lines lrepo (split Diff.NL fc).

(** The hashes of the patch blobs of one tree, in order. *)
Fixpoint hashes_of_patches (lrepo : Diff.linux_repo) (patches : list string) : list string :=
  match patches with
  | [] => []
  | fc :: rest =>
      match get_hash_or_nothing fc lrepo with
      | Some hs => if String.eqb hs "" then hashes_of_patches lrepo rest
                   else hs :: hashes_of_patches lrepo rest
      | None => hashes_of_patches lrepo rest
      end
  end.

(** The entries below [patches.suse/], in the order of the index, each
    with what reading its blob gives. *)
Definition patches_of (t : tree) : list (result string) :=
  map snd (filter (fun e => startswith "patches.suse/" (fst e)) t).

(** The loop over [patches_ids] reads the blobs in order and stops at
    the first one that cannot be read: the contents read until then, and
    the exception if there is one.  [get_hash_or_nothing] raises nothing,
    so the hashes appended before the failure are those of these
    contents. *)
Fixpoint read_blobs (blobs : list (result string)) : list string * option exn :=
  match blobs with
  | [] => ([], None)
  | Ok fc :: rest => let (fcs, failure) := read_blobs rest in (fc :: fcs, failure)
  | Raise e :: _ => ([], Some e)
  end.

(** [get_commits_per_branch], with what it prints on the error stream:
    for each failure a line made of [#], the branch and the exception,
    kept here as the pair of the last two.  The entry of the branch is
    set to the empty list before the [try], so a failure leaves what
    was appended until then. *)
Fixpoint commits_loop (krepo : ksource_repo) (lrepo : Diff.linux_repo) (branches : list string)
    (ret : list (string * list string)) (err : list (string * exn))
    : list (string * list string) * list (string * exn) :=
  match branches with
  | [] => (ret, err)
  | b :: rest =>
      match revparse_tree krepo ("origin/" ++ b) with
      | Ok t =>
          let (fcs, failure) := read_blobs (patches_of t) in
          commits_loop krepo lrepo rest
            (dict_set ret b (hashes_of_patches lrepo fcs))
            match failure with
            | None => err
            | Some e => (err ++ [(b, e)])%list
            end
      | Raise e =>
          commits_loop krepo lrepo rest (dict_set ret b []) (err ++ [(b, e)])
      end
  end.

Definition get_commits_per_branch (branches : list string) (krepo : ksource_repo)
    (lrepo : Diff.linux_repo) : list (string * list string) * list (string * exn) :=
  commits_loop krepo lrepo branches [] [].

End Backport.

(** ** The build *)

Module Build.
Import PyStr Sql Diff Resolver Partition Backport.

(** When the root tree cannot be read, the handler calls the undefined
    [color_format] and so raises [NameError]. *)
Definition fetch_root_tree_files (lrepo : linux_repo) (tag : string) (d : db) : result db :=
  paths <- match root_tree lrepo with
           | Ok paths => Ok paths
           | Raise _ => Raise NameError
           end ;;
  d1 <- store_files_into_db d (map Some paths) ;;
  d2 <- store_commits_into_db d1 [Some BIG_BANG] ;;
  store_changes_into_db d2
    (map (fun e => {| p_commit := BIG_BANG; p_score := None; p_from := None;
                      p_to := Some e; p_tag := tag |}) paths).

(** What the coordinating process does with the result of one worker. *)
Definition collect (d : db) (res : list (option string) * list change_params) : result db :=
  d1 <- store_files_into_db d (fst res) ;;
  store_changes_into_db d1 (snd res).

(** One work unit, from the worker's call to the coordinator's writes.
    The units are run one after the other here, which is one of the
    schedules of the pool. *)
Definition run_unit (lrepo : linux_repo) (d : db) (pair : string * string) : result db :=
  r <- between lrepo (fst pair) (snd pair) d ;;
  collect (fst r) (snd r).

Definition backports_of (commits : list (option string)) (entry : string * list string)
    : list (string * string) :=
  map (fun h => (h, fst entry))
      (filter (fun h => existsb (opt_eqb (Some h)) commits) (snd entry)).

Definition main (branches : list string) (krepo : ksource_repo) (lrepo : linux_repo)
    : result db :=
  r <- get_tags_from_ksource_tree branches krepo ;;
  let tags := fst r in
  uniq <- uniq_tags tags ;;
  d1 <- store_tags_into_db create_db uniq ;;
  let uniq' := with_master uniq in
  d2 <- store_branches_into_db d1 tags ;;
  first <- index uniq' 0 ;;
  d3 <- fetch_root_tree_files lrepo first d2 ;;
  pairs <- prepare_tags_for_parallel_partition uniq' ;;
  d4 <- executemany (run_unit lrepo) d3 pairs ;;
  let commits_per_branch := fst (get_commits_per_branch branches krepo lrepo) in
  let commits := get_commits d4 in
  executemany (fun d e => store_backports_into_db d (backports_of commits e))
    d4 commits_per_branch.

End Build.

(** ** Sample runs *)

Module Ex.
Import PyStr Sql Diff Resolver.

Definition get {A : Type} (dflt : A) (r : result A) : A :=
  match r with
  | Ok a => a
  | Raise _ => dflt
  end.

Definition tab (a b : string) : string := a ++ String TAB b.
Definition nl (a b : string) : string := a ++ String NL b.

(** One branch pinned to v5.3; commit [c1], recorded in the window of
    v5.3 and backported to the branch, adds [added.c] and deletes
    [gone.c]. *)
Definition db_views : db :=
  get create_db (
    d <- store_tags_into_db create_db ["v5.3"] ;;
    d <- store_branches_into_db d [("SLE15", "5.3")] ;;
    d <- store_files_into_db d [Some "added.c"; Some "gone.c"] ;;
    d <- store_commits_into_db d [Some "c1"] ;;
    d <- store_changes_into_db d
           [ {| p_commit := "c1"; p_score := None; p_from := None;
                p_to := Some "added.c"; p_tag := "v5.3" |};
             {| p_commit := "c1"; p_score := None; p_from := Some "gone.c";
                p_to := None; p_tag := "v5.3" |} ] ;;
    store_backports_into_db d [("c1", "SLE15")]).

(** A store that knows one file and one commit. *)
Definition db_known : db :=
  get create_db (
    d <- store_files_into_db create_db [Some "kernel/fork.c"] ;;
    store_commits_into_db d [Some "c0ffee"]).

(** The reference repository of the sample run. [git log v5.3] lists one
    commit that adds [foo.c] and then reaches the root boundary commit;
    [git log v5.3..master] lists one commit that renames [foo.c], deletes
    [old.c] and modifies [Makefile]. *)
Definition log_v53 : string :=
  nl "aaa1111 add foo"
  (nl (tab ":000000 100644 0000000 1111111 A" "foo.c")
  (nl "1da177e4c3f4 Linux-2.6.12-rc2"
  (nl (tab ":000000 100644 0000000 2222222 A" "README") ""))).

Definition log_master : string :=
  nl "bbb2222 move foo"
  (nl (tab (tab ":100644 100644 1111111 1111111 R100" "foo.c") "bar.c")
  (nl (tab ":100644 000000 3333333 0000000 D" "old.c")
  (nl (tab ":100644 100644 4444444 5555555 M" "Makefile") ""))).

Definition lrepo : linux_repo :=
  {| git_log := fun r =>
       if String.eqb r "v5.3" then Ok log_v53
       else if String.eqb r "v5.3..master" then Ok log_master
       else Raise CalledProcessError;
     revparse_single := fun t =>
       Ok (take 40 (t ++ "0000000000000000000000000000000000000000"));
     root_tree := Ok ["Makefile"; "README"] |}.

(** The metadata repository of the sample run: one branch, pinned to
    5.3, with one patch that names the second commit. *)
Definition config_sh : string := nl "# config" (nl "SRCVERSION=5.3" (nl "VARIANT=" "")).

Definition fix_patch : string :=
  nl "From: someone"
  (nl (tab "Git-commit:" "bbb2222000")
  (nl "Git-commit: aaa1111000" (nl "" "body"))).

Definition krepo : ksource_repo :=
  {| revparse_tree := fun name =>
       if String.eqb name "origin/SLE15" then
         Ok [("rpm/config.sh", Ok config_sh); ("patches.suse/fix.patch", Ok fix_patch)]
       else if String.eqb name "origin/no-key" then
         Ok [("rpm/config.sh", Ok (nl "# config" (nl "VARIANT=" "")))]
       else if String.eqb name "origin/no-blob" then
         Ok [("README", Ok "text")]
       else Raise KeyError |}.

(** The store of the sample run. *)
Definition db_main : db := get create_db (Build.main ["SLE15"] krepo lrepo).

(** A reference repository whose only range is the whole history. *)
Definition lrepo_flat : linux_repo :=
  {| git_log := fun r =>
       if String.eqb r "master" then Ok log_master else Raise CalledProcessError;
     revparse_single := revparse_single lrepo;
     root_tree := Ok ["Makefile"] |}.

(** The worker of the last window on a fresh store, and the store after
    the coordinating process has written its result. *)
Definition worker_result : db * (list (option string) * list change_params) :=
  get (create_db, ([], [])) (between lrepo "v5.3" "master" create_db).

Definition unit_store : db :=
  get create_db (Build.collect (fst worker_result) (snd worker_result)).

(** A history with a release candidate.  The reference repository is a
    line of four commits, each adding one file: [ccc1111] is in v5.3.1,
    [ccc2222] in v5.10-rc1, [ccc3333] in v5.10 and [ccc4444] in master.
    [git log a..b] lists the commits of [b] that are not in [a], newest
    first, so [v5.10..v5.10-rc1] lists nothing. *)
Definition entry (name path : string) : string :=
  nl name (nl (tab ":000000 100644 0000000 1111111 A" path) "").

Definition lrepo_rc : linux_repo :=
  {| git_log := fun r =>
       if String.eqb r "v5.3.1" then
         Ok (entry "ccc1111 one" "one.c" ++ nl "1da177e4c3f4 Linux-2.6.12-rc2" "")
       else if String.eqb r "v5.3.1..v5.10" then
         Ok (entry "ccc3333 three" "three.c" ++ entry "ccc2222 two" "two.c")
       else if String.eqb r "v5.10..v5.10-rc1" then Ok ""
       else if String.eqb r "v5.10-rc1..master" then
         Ok (entry "ccc4444 four" "four.c" ++ entry "ccc3333 three" "three.c")
       else if String.eqb r "v5.3.1..v5.10-rc1" then Ok (entry "ccc2222 two" "two.c")
       else if String.eqb r "v5.10-rc1..v5.10" then Ok (entry "ccc3333 three" "three.c")
       else if String.eqb r "v5.10..master" then Ok (entry "ccc4444 four" "four.c")
       else Raise CalledProcessError;
     revparse_single := revparse_single lrepo;
     root_tree := Ok ["Makefile"] |}.

(** Three branches of the metadata repository, pinned to 5.3.1, to
    5.10-rc1 and to 5.10. *)
Definition krepo_rc : ksource_repo :=
  {| revparse_tree := fun name =>
       if String.eqb name "origin/stable" then
         Ok [("rpm/config.sh", Ok (nl "SRCVERSION=5.3.1" ""))]
       else if String.eqb name "origin/next-rc" then
         Ok [("rpm/config.sh", Ok (nl "SRCVERSION=5.10-rc1" ""))]
       else if String.eqb name "origin/next" then
         Ok [("rpm/config.sh", Ok (nl "SRCVERSION=5.10" ""))]
       else Raise KeyError |}.

Definition branches_rc : list string := ["stable"; "next-rc"; "next"].

(** A branch with a patch blob that cannot be read between two that
    can. *)
Definition krepo_damaged : ksource_repo :=
  {| revparse_tree := fun name =>
       if String.eqb name "origin/SLE15" then
         Ok [("rpm/config.sh", Ok config_sh);
             ("patches.suse/a.patch", Ok fix_patch);
             ("patches.suse/b.patch", Raise KeyError);
             ("patches.suse/c.patch", Ok (nl "Git-commit: aaa1111000" ""))]
       else Raise KeyError |}.

End Ex.

(** ** Predicates of the statements *)

Module Spec.
Import Sql.

(** No row of the table has a NULL name. *)
Definition no_null (t : table named) : Prop :=
  Forall (fun r => n_name r <> None) (rows t).

(** A change tuple of deletion shape: a source path and no target. *)
Definition deletion (p : change_params) : Prop :=
  p_from p <> None /\ p_to p = None.

(** The table has a row for this name. *)
Definition stored (t : table named) (name : string) : Prop :=
  exists r, In r (rows t) /\ n_name r = Some name.

(** All tables but [commits] agree. *)
Definition same_but_commits (d d' : db) : Prop :=
  tags d' = tags d /\ branches d' = branches d /\ files d' = files d
  /\ changes d' = changes d /\ backports d' = backports d.

(** All tables but [files] and [changes] agree. *)
Definition same_but_files_changes (d d' : db) : Prop :=
  tags d' = tags d /\ branches d' = branches d /\ commits d' = commits d
  /\ backports d' = backports d.

(** The pieces joined with a separator: [sep.join(pieces)]. *)
Fixpoint join (sep : ascii) (pieces : list string) : string :=
  match pieces with
  | [] => ""
  | [x] => x
  | x :: rest => x ++ String sep (join sep rest)
  end.

(** A body line of [git log --raw]: a colon, the two modes and the two
    object names separated by spaces, then the status and the path (two
    paths for a rename or a copy) separated by tabs. *)
Definition raw_line (mode1 mode2 sha1 sha2 status : string) (paths : list string) : string :=
  join Diff.SP [":" ++ mode1; mode2; sha1; sha2; join Diff.TAB (status :: paths)].

Definition no_space (s : string) : Prop :=
  PyStr.has_char (Ascii.eqb Diff.SP) s = false.

Definition no_tab (s : string) : Prop :=
  PyStr.has_char (Ascii.eqb Diff.TAB) s = false.

(** One version comes before another: they are the same, or the key of
    the first is less than the key of the second. *)
Definition precedes (a b : string) : Prop :=
  a = b \/ exists ka kb, Tags.key_function a = Ok ka /\ Tags.key_function b = Ok kb
                         /\ Tags.list_lt ka kb = true.

(** What the scan of one branch leaves: the entry of the branch and the
    exception reported for it, if any. *)
Definition branch_scan (krepo : Resolver.ksource_repo) (lrepo : Diff.linux_repo) (b : string)
    : list string * option exn :=
  match Resolver.revparse_tree krepo ("origin/" ++ b) with
  | Ok t =>
      let (fcs, failure) := Backport.read_blobs (Backport.patches_of t) in
      (Backport.hashes_of_patches lrepo fcs, failure)
  | Raise e => ([], Some e)
  end.

(** The steps of [main] that follow the computation of the tag sequence,
    for a given sequence: [Build.main] is these steps on the sequence
    that [uniq_tags] gives.  They are run below on the sequence in the
    order the specification asks for. *)
Definition main_from (tags : list (string * string)) (uniq : list string)
    (branches : list string) (krepo : Resolver.ksource_repo) (lrepo : Diff.linux_repo)
    : result db :=
  d1 <- store_tags_into_db create_db uniq ;;
  let uniq' := Partition.with_master uniq in
  d2 <- store_branches_into_db d1 tags ;;
  first <- PyStr.index uniq' 0 ;;
  d3 <- Build.fetch_root_tree_files lrepo first d2 ;;
  pairs <- Partition.prepare_tags_for_parallel_partition uniq' ;;
  d4 <- executemany (Build.run_unit lrepo) d3 pairs ;;
  let commits_per_branch := fst (Backport.get_commits_per_branch branches krepo lrepo) in
  let commits := get_commits d4 in
  executemany (fun d e => store_backports_into_db d (Build.backports_of commits e))
    d4 commits_per_branch.


End Spec.

(** ** The branch configuration feed *)

Module Feed.
Import PyStr.

Definition BRANCH_BLACKLIST : list string := ["vanilla"; "linux-next"].

(** [x in BRANCH_BLACKLIST] *)
Definition blacklisted (name : string) : bool :=
  existsb (String.eqb name) BRANCH_BLACKLIST.

(** The test that makes the loop of [get_list_of_branches] skip a line. *)
Definition skipped (l : string) : bool :=
  String.eqb l "" || startswith "#" l || startswith " " l
  || negb (contains ":" l) || negb (contains "build" l).

Fixpoint branches_of_lines (lines : list string) (ret : list string) : result (list string) :=
  match lines with
  | [] => Ok ret
  | l :: rest =>
      if skipped l then branches_of_lines rest ret
      else
        branch_name <- index (split ":" l) 0 ;;
        if blacklisted branch_name then branches_of_lines rest ret
        else branches_of_lines rest (ret ++ [branch_name])
  end.

Definition get_list_of_branches (branches_conf : string) : result (list string) :=
  branches_of_lines (split Diff.NL branches_conf) [].

(** The branch list of [main]: [fetch_branches_conf] gives the text of
    the feed, or [None] after a failed request; the list stays empty
    unless the text is there and not empty. *)
Definition branches_of_conf (branches_conf : option string) : result (list string) :=
  match branches_conf with
  | Some text => if String.eqb text "" then Ok [] else get_list_of_branches text
  | None => Ok []
  end.

End Feed.

(** ** Invariants of the store *)

Module Inv.
Import Sql.

(** The keys in use are distinct and none is beyond the last one handed
    out. *)
Definition keys_ok {R : Type} (key : R -> Z) (t : table R) : Prop :=
  NoDup (map key (rows t)) /\ Forall (fun r => key r <= seq t) (rows t).

(** [UNIQUE NOT NULL] on the name column. *)
Definition names_ok (t : table named) : Prop :=
  NoDup (map n_name (rows t)) /\ Forall (fun r => n_name r <> None) (rows t).

(** The table has a row for this branch name. *)
Definition branch_stored (t : table branch) (name : string) : Prop :=
  exists r, In r (rows t) /\ b_name r = Some name.

(** A reference is NULL or the key of a row. *)
Definition refers {R : Type} (key : R -> Z) (t : table R) (ref : option Z) : Prop :=
  match ref with
  | None => True
  | Some i => exists r, In r (rows t) /\ key r = i
  end.

(** The constraints of the schema: primary keys, [UNIQUE NOT NULL]
    names, [NOT NULL] references and foreign keys. *)
Record wf (d : db) : Prop :=
  { wf_tags_keys : keys_ok n_id (tags d);
    wf_branches_keys : keys_ok b_id (branches d);
    wf_commits_keys : keys_ok n_id (commits d);
    wf_files_keys : keys_ok n_id (files d);
    wf_backports_keys : keys_ok bp_id (backports d);
    wf_changes_keys : keys_ok ch_id (changes d);
    wf_tags_names : names_ok (tags d);
    wf_commits_names : names_ok (commits d);
    wf_files_names : names_ok (files d);
    wf_branches_names :
      NoDup (map b_name (rows (branches d)))
      /\ Forall (fun b => b_name b <> None) (rows (branches d));
    wf_branches_fk :
      Forall (fun b => b_tag_id b <> None /\ refers n_id (tags d) (b_tag_id b))
             (rows (branches d));
    wf_backports_fk :
      Forall (fun bp => bp_commit_id bp <> None
                        /\ refers n_id (commits d) (bp_commit_id bp)
                        /\ bp_branch_id bp <> None
                        /\ refers b_id (branches d) (bp_branch_id bp))
             (rows (backports d));
    wf_changes_fk :
      Forall (fun ch => ch_commit_id ch <> None
                        /\ refers n_id (commits d) (ch_commit_id ch)
                        /\ refers n_id (files d) (ch_from_id ch)
                        /\ refers n_id (files d) (ch_to_id ch)
                        /\ refers n_id (tags d) (ch_tag_id ch))
             (rows (changes d)) }.

End Inv.

(** * Properties *)

Import PyStr Sql.

(** A sequence of calls returns only when its first call returns. *)
Lemma bind_ok {A B : Type} (m : result A) (k : A -> result B) (b : B) :
  bind m k = Ok b -> exists a, m = Ok a /\ k a = Ok b.
Proof. destruct m as [a|e]; simpl; [eauto|discriminate]. Qed.

(** ** Splitting *)

Section SplitFacts.
Variable p : ascii -> bool.

Lemma split_on_nonempty (s : string) : split_on p s <> [].
Proof.
  destruct s as [|c s]; simpl; [discriminate|].
  destruct (p c); [discriminate|].
  destruct (split_on p s); discriminate.
Qed.

(** A string without separators is its own single piece. *)
Lemma split_on_clean (s : string) :
  has_char p s = false -> split_on p s = [s].
Proof.
  induction s as [|c s IH]; simpl; [reflexivity|].
  intros H. apply orb_false_elim in H as [Hc Hs].
  rewrite Hc, (IH Hs). reflexivity.
Qed.

(** The first separator ends the first piece. *)
Lemma split_on_app (a : string) (sep : ascii) (rest : string) :
  has_char p a = false -> p sep = true ->
  split_on p (a ++ String sep rest) = a :: split_on p rest.
Proof.
  intros Ha Hsep. induction a as [|c a IH]; simpl in *.
  - rewrite Hsep. reflexivity.
  - apply orb_false_elim in Ha as [Hc Ha].
    rewrite Hc, (IH Ha). reflexivity.
Qed.
End SplitFacts.

Lemma has_char_app (p : ascii -> bool) (a b : string) :
  has_char p (a ++ b) = has_char p a || has_char p b.
Proof.
  induction a as [|c a IH]; simpl; [reflexivity|].
  rewrite IH, orb_assoc. reflexivity.
Qed.

(** ** Tag ordering *)

Lemma key_of_release (a b : string) (x y : Z) :
  has_char Tags.is_dot_or_dash a = false ->
  has_char Tags.is_dot_or_dash b = false ->
  int a = Ok x -> int b = Ok y ->
  Tags.key_function (a ++ "." ++ b) = Ok [x; y].
Proof.
  intros Ha Hb Hx Hy. unfold Tags.key_function.
  change (a ++ "." ++ b) with (a ++ String "." b).
  rewrite (split_on_app _ a "." b Ha eq_refl), (split_on_clean _ b Hb).
  simpl. rewrite Hx. simpl. rewrite Hy. reflexivity.
Qed.

Lemma key_of_candidate (a b c : string) (x y n : Z) :
  has_char Tags.is_dot_or_dash a = false ->
  has_char Tags.is_dot_or_dash b = false ->
  has_char Tags.is_dot_or_dash c = false ->
  int a = Ok x -> int b = Ok y -> int c = Ok n ->
  Tags.key_function (a ++ "." ++ b ++ "-rc" ++ c) = Ok [x; y; n].
Proof.
  intros Ha Hb Hc Hx Hy Hn. unfold Tags.key_function.
  change (a ++ "." ++ b ++ "-rc" ++ c) with (a ++ String "." (b ++ String "-" ("rc" ++ c))).
  rewrite (split_on_app _ a "." _ Ha eq_refl), (split_on_app _ b "-" _ Hb eq_refl).
  rewrite (split_on_clean _ ("rc" ++ c)) by exact Hc.
  simpl. rewrite Hx. simpl. rewrite Hy. unfold startswith. simpl. rewrite Hn.
  replace (prefix "" c) with true by (destruct c; reflexivity). reflexivity.
Qed.

Lemma list_lt_prefix (x y n : Z) :
  Tags.list_lt [x; y] [x; y; n] = true /\ Tags.list_lt [x; y; n] [x; y] = false.
Proof.
  simpl. rewrite !Z.eqb_refl, !Z.ltb_irrefl. split; reflexivity.
Qed.

Lemma sorted_four_tags :
  Tags.sorted Tags.list_lt Tags.key_function ["5.3"; "5.3.1"; "5.10-rc1"; "5.10"]
  = Ok ["5.3"; "5.3.1"; "5.10"; "5.10-rc1"].
Proof. reflexivity. Qed.

(** *** The sort is a sort *)

Section SortFacts.
Context {A K : Type}.
Variable lt : K -> K -> bool.
Hypothesis lt_asym : forall a b, lt a b = true -> lt b a = false.

Lemma insert_by_perm (x : K * A) (l : list (K * A)) :
  Permutation (Tags.insert_by lt x l) (x :: l).
Proof.
  induction l as [|y l IH]; simpl; [reflexivity|].
  destruct (lt (fst x) (fst y)); [reflexivity|].
  rewrite IH. apply perm_swap.
Qed.

Lemma insert_by_sorted (x : K * A) (l : list (K * A)) :
  Sorted (Tags.in_order lt) l -> Sorted (Tags.in_order lt) (Tags.insert_by lt x l).
Proof.
  induction 1 as [|y l Hl IH Hhd]; simpl; [repeat constructor|].
  destruct (lt (fst x) (fst y)) eqn:E.
  - constructor; [constructor; assumption|]. constructor. apply lt_asym, E.
  - constructor; [exact IH|].
    destruct Hhd as [|z l Hyz]; simpl.
    + constructor. exact E.
    + destruct (lt (fst x) (fst z)); constructor; assumption.
Qed.

Lemma stable_sort_spec (l : list (K * A)) :
  Permutation (Tags.stable_sort lt l) l /\ Sorted (Tags.in_order lt) (Tags.stable_sort lt l).
Proof.
  unfold Tags.stable_sort.
  assert (H : forall acc, Sorted (Tags.in_order lt) acc ->
            Permutation (fold_left (fun acc x => Tags.insert_by lt x acc) l acc) (acc ++ l)
            /\ Sorted (Tags.in_order lt) (fold_left (fun acc x => Tags.insert_by lt x acc) l acc)).
  { induction l as [|x l IH]; simpl; intros acc Hacc.
    - rewrite app_nil_r. split; [reflexivity|exact Hacc].
    - destruct (IH _ (insert_by_sorted x acc Hacc)) as [Hp Hs]. split; [|exact Hs].
      rewrite Hp, insert_by_perm. simpl. apply Permutation_middle. }
  apply (H []). constructor.
Qed.

End SortFacts.

Lemma list_lt_asym (a b : list Z) : Tags.list_lt a b = true -> Tags.list_lt b a = false.
Proof.
  revert b. induction a as [|x a IH]; intros [|y b]; simpl; try reflexivity; try discriminate.
  intros H. apply orb_true_iff in H as [H|H].
  - apply Z.ltb_lt in H.
    replace (y <? x) with false by (symmetry; apply Z.ltb_ge; lia).
    replace (y =? x) with false by (symmetry; apply Z.eqb_neq; lia). reflexivity.
  - apply andb_true_iff in H as [Hxy Hab]. apply Z.eqb_eq in Hxy. subst y.
    rewrite Z.ltb_irrefl, Z.eqb_refl. simpl. apply IH, Hab.
Qed.

Lemma mapM_combine {A B : Type} (f : A -> result B) (l : list A) (ks : list B) :
  mapM f l = Ok ks ->
  map snd (combine ks l) = l
  /\ Forall (fun p => f (snd p) = Ok (fst p)) (combine ks l).
Proof.
  revert ks. induction l as [|a l IH]; simpl; intros ks H.
  - injection H as <-. split; constructor.
  - apply bind_ok in H as [b [Hb H]]. apply bind_ok in H as [bs [Hbs H]].
    injection H as <-. destruct (IH _ Hbs) as [E F]. simpl. split.
    + rewrite E. reflexivity.
    + constructor; assumption.
Qed.

Lemma mapM_keys {A B : Type} (f : A -> result B) (ps : list (B * A)) :
  Forall (fun p => f (snd p) = Ok (fst p)) ps ->
  mapM f (map snd ps) = Ok (map fst ps).
Proof.
  induction 1 as [|p ps Hp _ IH]; simpl; [reflexivity|].
  rewrite Hp. simpl. rewrite IH. reflexivity.
Qed.

(** [sorted] with [key_function]: when no key raises, the result holds
    the elements of the argument and its keys never go down. *)
Lemma sorted_tags_spec (l out : list string) :
  Tags.sorted Tags.list_lt Tags.key_function l = Ok out ->
  Permutation out l
  /\ exists ks, mapM Tags.key_function out = Ok ks
                /\ Sorted (fun a b => Tags.list_lt b a = false) ks.
Proof.
  unfold Tags.sorted. intros H. apply bind_ok in H as [ks [Hks H]]. injection H as <-.
  destruct (mapM_combine _ _ _ Hks) as [Esnd Hkeys].
  destruct (stable_sort_spec Tags.list_lt list_lt_asym (combine ks l)) as [Hperm Hsorted].
  split.
  - rewrite <- Esnd at 2. apply Permutation_map, Hperm.
  - exists (map fst (Tags.stable_sort Tags.list_lt (combine ks l))). split.
    + apply mapM_keys. revert Hkeys. apply Permutation_Forall. symmetry. exact Hperm.
    + clear -Hsorted. induction Hsorted as [|p ps _ IH Hhd]; simpl; constructor.
      * exact IH.
      * destruct Hhd; constructor. assumption.
Qed.

(** The key of a release [a.b] is a proper prefix of the key of its
    candidate [a.b-rcN], so the release sorts first. *)
Lemma release_before_candidate (a b c : string) (x y n : Z) :
  has_char Tags.is_dot_or_dash a = false ->
  has_char Tags.is_dot_or_dash b = false ->
  has_char Tags.is_dot_or_dash c = false ->
  int a = Ok x -> int b = Ok y -> int c = Ok n ->
  Tags.key_function (a ++ "." ++ b) = Ok [x; y]
  /\ Tags.key_function (a ++ "." ++ b ++ "-rc" ++ c) = Ok [x; y; n]
  /\ Tags.list_lt [x; y] [x; y; n] = true
  /\ Tags.sorted Tags.list_lt Tags.key_function [a ++ "." ++ b ++ "-rc" ++ c; a ++ "." ++ b]
     = Ok [a ++ "." ++ b; a ++ "." ++ b ++ "-rc" ++ c].
Proof.
  intros Ha Hb Hc Hx Hy Hn.
  pose proof (key_of_release a b x y Ha Hb Hx Hy) as Kr.
  pose proof (key_of_candidate a b c x y n Ha Hb Hc Hx Hy Hn) as Kc.
  destruct (list_lt_prefix x y n) as [Hlt Hgt].
  split; [exact Kr|]. split; [exact Kc|]. split; [exact Hlt|].
  unfold Tags.sorted. cbn [mapM]. rewrite Kr, Kc.
  cbn [bind combine Tags.stable_sort fold_left Tags.insert_by fst].
  rewrite Hlt. reflexivity.
Qed.

(** C1: the sort by [key_function] puts a release candidate after its
    release, where the specification wants it before: the key of [a.b]
    is a proper prefix of the key of [a.b-rcN], and the four tags of
    the specification sort to 5.3, 5.3.1, 5.10, 5.10-rc1.  The windows
    cut along that order overlap.  On a history of four commits with
    branches pinned to 5.3.1, 5.10-rc1 and 5.10, the tag sequence is
    v5.3.1, v5.10, v5.10-rc1, and [main] stops with [IntegrityError]:
    the commit between the candidate and the release is listed by the
    window from v5.3.1 to v5.10 and again by the window from v5.10-rc1
    to master.  The same steps on the sequence in the order of the
    specification store one change for each commit and the snapshot. *)
Theorem C1_candidate_sorts_after_release :
  (forall a b c x y n,
     has_char Tags.is_dot_or_dash a = false ->
     has_char Tags.is_dot_or_dash b = false ->
     has_char Tags.is_dot_or_dash c = false ->
     int a = Ok x -> int b = Ok y -> int c = Ok n ->
     Tags.key_function (a ++ "." ++ b) = Ok [x; y]
     /\ Tags.key_function (a ++ "." ++ b ++ "-rc" ++ c) = Ok [x; y; n]
     /\ Tags.list_lt [x; y] [x; y; n] = true
     /\ Tags.sorted Tags.list_lt Tags.key_function
          [a ++ "." ++ b ++ "-rc" ++ c; a ++ "." ++ b]
        = Ok [a ++ "." ++ b; a ++ "." ++ b ++ "-rc" ++ c])
  /\ Tags.sorted Tags.list_lt Tags.key_function ["5.3"; "5.3.1"; "5.10-rc1"; "5.10"]
     = Ok ["5.3"; "5.3.1"; "5.10"; "5.10-rc1"]
  /\ (forall branches krepo lrepo,
        Build.main branches krepo lrepo
        = (r <- Resolver.get_tags_from_ksource_tree branches krepo ;;
           uniq <- Resolver.uniq_tags (fst r) ;;
           Spec.main_from (fst r) uniq branches krepo lrepo))
  /\ Resolver.get_tags_from_ksource_tree Ex.branches_rc Ex.krepo_rc
     = Ok ([("stable", "5.3.1"); ("next-rc", "5.10-rc1"); ("next", "5.10")], [])
  /\ Resolver.uniq_tags [("stable", "5.3.1"); ("next-rc", "5.10-rc1"); ("next", "5.10")]
     = Ok ["v5.3.1"; "v5.10"; "v5.10-rc1"]
  /\ Diff.git_log Ex.lrepo_rc "v5.3.1..v5.10"
     = Ok (Ex.entry "ccc3333 three" "three.c" ++ Ex.entry "ccc2222 two" "two.c")
  /\ Diff.git_log Ex.lrepo_rc "v5.10-rc1..master"
     = Ok (Ex.entry "ccc4444 four" "four.c" ++ Ex.entry "ccc3333 three" "three.c")
  /\ Build.main Ex.branches_rc Ex.krepo_rc Ex.lrepo_rc = Raise IntegrityError
  /\ exists d,
       Spec.main_from [("stable", "5.3.1"); ("next-rc", "5.10-rc1"); ("next", "5.10")]
         ["v5.3.1"; "v5.10-rc1"; "v5.10"] Ex.branches_rc Ex.krepo_rc Ex.lrepo_rc
       = Ok d
       /\ map n_name (rows (commits d))
          = [Some Diff.BIG_BANG;
             Some "ccc1111000000000000000000000000000000000";
             Some "ccc2222000000000000000000000000000000000";
             Some "ccc3333000000000000000000000000000000000";
             Some "ccc4444000000000000000000000000000000000"]
       /\ List.length (rows (changes d)) = 5%nat.
Proof.
  split; [exact release_before_candidate|].
  split; [exact sorted_four_tags|].
  split; [reflexivity|].
  split; [vm_compute; reflexivity|].
  split; [vm_compute; reflexivity|].
  split; [reflexivity|].
  split; [reflexivity|].
  split; [vm_compute; reflexivity|].
  eexists. split; [vm_compute; reflexivity|].
  split; vm_compute; reflexivity.
Qed.

(** ** Storage *)

Lemma existsb_name (rs : list named) (name : string) :
  In (Some name) (map n_name rs) ->
  existsb (fun r => sql_eq (n_name r) (Some name)) rs = true.
Proof.
  intros H. apply in_map_iff in H as [r [Hr Hin]].
  apply existsb_exists. exists r. split; [exact Hin|].
  rewrite Hr. simpl. apply String.eqb_refl.
Qed.

Lemma name_conflict_known (t : table named) (name : string) :
  In (Some name) (map n_name (rows t)) -> name_conflict t (Some name) = true.
Proof. intros H. simpl. apply existsb_name, H. Qed.

(** C7: a file path that is already in [files] is absorbed, the rows of
    the table (and so their count) stay as they are and nothing is raised;
    a commit hash that is already in [commits] raises. *)
Theorem C7_files_ignore_commits_reject (d : db) (path hash : string) :
  In (Some path) (map n_name (rows (files d))) ->
  In (Some hash) (map n_name (rows (commits d))) ->
  (exists d', store_files_into_db d [Some path] = Ok d'
              /\ rows (files d') = rows (files d)
              /\ List.length (rows (files d')) = List.length (rows (files d))
              /\ commits d' = commits d /\ changes d' = changes d)
  /\ store_commits_into_db d [Some hash] = Raise IntegrityError.
Proof.
  intros Hf Hc. split.
  - unfold store_files_into_db. cbn [executemany bind].
    unfold insert_or_ignore_named. rewrite (name_conflict_known _ _ Hf).
    eexists. split; [reflexivity|]. cbn. repeat split.
  - unfold store_commits_into_db. cbn [executemany bind].
    unfold insert_named. rewrite (name_conflict_known _ _ Hc). reflexivity.
Qed.

Lemma C7_files_ignore_commits_reject_witness :
  (exists d', store_files_into_db Ex.db_known [Some "kernel/fork.c"] = Ok d'
              /\ rows (files d') = rows (files Ex.db_known)
              /\ List.length (rows (files d')) = List.length (rows (files Ex.db_known))
              /\ commits d' = commits Ex.db_known /\ changes d' = changes Ex.db_known)
  /\ store_commits_into_db Ex.db_known [Some "c0ffee"] = Raise IntegrityError.
Proof.
  apply (C7_files_ignore_commits_reject Ex.db_known "kernel/fork.c" "c0ffee").
  - simpl. left. reflexivity.
  - simpl. left. reflexivity.
Defined.

(** ** Views *)

Lemma views_sample_added :
  Views.added Ex.db_views
  = [ ((Some "SLE15", Some "added.c", Some "c1"), Views.base);
      ((Some "SLE15", Some "gone.c", Some "c1"), Views.backport) ].
Proof. reflexivity. Qed.

Lemma views_sample_removed :
  Views.removed Ex.db_views
  = [ ((Some "SLE15", Some "gone.c", Some "c1"), Views.base);
      ((Some "SLE15", Some "gone.c", Some "c1"), Views.backport) ].
Proof. reflexivity. Qed.

(** C3: the [base] arm of [added] selects the changes with no source file,
    but its [backport] arm is the query of [backports_removed]: on every
    store the two return the same rows. In the sample store commit [c1],
    backported to SLE15, adds [added.c] and deletes [gone.c]; the backport
    arm of [added] lists the deleted [gone.c] and not [added.c]. *)
Theorem C3_backports_added_selects_deletions :
  (forall d, Views.backports_added d = Views.backports_removed d)
  /\ Views.backports_added Ex.db_views = [(Some "SLE15", Some "gone.c", Some "c1")]
  /\ Views.base_added Ex.db_views = [(Some "SLE15", Some "added.c", Some "c1")]
  /\ ~ In ((Some "SLE15", Some "added.c", Some "c1"), Views.backport) (Views.added Ex.db_views)
  /\ In ((Some "SLE15", Some "gone.c", Some "c1"), Views.backport) (Views.added Ex.db_views).
Proof.
  split; [reflexivity|]. split; [reflexivity|]. split; [reflexivity|].
  rewrite views_sample_added. split.
  - intros [H|[H|[]]]; discriminate H.
  - right. left. reflexivity.
Qed.

(** ** Range partition *)

Import Partition.

Lemma zip_length {A B : Type} (a : list A) (b : list B) :
  List.length (zip a b) = Nat.min (List.length a) (List.length b).
Proof.
  revert b. induction a as [|x a IH]; intros [|y b]; simpl; try reflexivity.
  rewrite IH. reflexivity.
Qed.

Lemma zip_snoc {A : Type} (l : list A) (z : A) :
  zip (l ++ [z]) (tl (l ++ [z])) = zip l (tl l ++ [z]).
Proof.
  destruct l as [|x l]; [reflexivity|]. simpl.
  revert x. induction l as [|y l IH]; intros x; simpl; [reflexivity|].
  rewrite IH. reflexivity.
Qed.

(** The partitioner on a sequence that has a first element. *)
Lemma prepare_cons (first : string) (rest : list string) :
  prepare_tags_for_parallel_partition (first :: rest)
  = Ok (("", first) :: zip (first :: rest) rest).
Proof. reflexivity. Qed.

Lemma zip_last_master (l : list string) (x : string) :
  last (zip (x :: l) (l ++ ["master"])) ("", "") = (last (x :: l) "", "master").
Proof.
  revert x. induction l as [|y l IH]; intros x; [reflexivity|].
  change (zip (x :: y :: l) ((y :: l) ++ ["master"]))
    with ((x, y) :: zip (y :: l) (l ++ ["master"])).
  change (last (x :: y :: l) "") with (last (y :: l) "").
  rewrite <- IH. destruct l; reflexivity.
Qed.

(** C4, as stated: no work descriptor would mention the synthetic tag and
    there would be as many descriptors as tags. With two tags [main]
    builds three descriptors, the last one bounded by [master]. *)
Lemma C4_partition_mentions_master :
  tag_pairs ["v5.3"; "v5.14"]
  = Ok [("", "v5.3"); ("v5.3", "v5.14"); ("v5.14", "master")]
  /\ tag_pairs ["v5.3"; "v5.14"] <> Ok [("", "v5.3"); ("v5.3", "v5.14")].
Proof. split; [reflexivity|discriminate]. Qed.

(** C4, amended: the partitioner is given the tag sequence with the
    synthetic tag appended. On a sequence with a first element it returns
    one descriptor with an empty lower bound for that element, then one
    descriptor per consecutive pair; on the sequence of [main] that is one
    descriptor more than there are tags, and the last descriptor runs from
    the last tag to [master]. *)
Theorem C4_partition_of_main (uniq_tags : list string) :
  (forall first rest,
      prepare_tags_for_parallel_partition (first :: rest)
      = Ok (("", first) :: zip (first :: rest) rest))
  /\ exists pairs,
      tag_pairs uniq_tags = Ok pairs
      /\ pairs = ("", hd "master" uniq_tags) :: zip uniq_tags (tl uniq_tags ++ ["master"])
      /\ List.length pairs = S (List.length uniq_tags)
      /\ last pairs ("", "") = (last uniq_tags "", "master").
Proof.
  split; [intros; apply prepare_cons|].
  unfold tag_pairs, with_master.
  destruct uniq_tags as [|x l].
  - eexists. split; [reflexivity|]. split; [reflexivity|]. split; reflexivity.
  - exists (("", x) :: zip (x :: l) (l ++ ["master"])).
    split; [|split; [reflexivity|split]].
    + change (l ++ ["master"])%list with (tl (x :: l) ++ ["master"])%list.
      rewrite <- (zip_snoc (x :: l) "master"). reflexivity.
    + cbn [List.length]. f_equal.
      rewrite zip_length, length_app. cbn [List.length]. lia.
    + rewrite <- zip_last_master. destruct l; reflexivity.
Qed.

(** ** Bulk inserts *)

Import Spec.

(** An invariant of every statement is an invariant of [executemany]. *)
Lemma executemany_ind {T P : Type} (stmt : T -> P -> result T) (I : T -> Prop) :
  (forall t p t', I t -> stmt t p = Ok t' -> I t') ->
  forall many t t', I t -> executemany stmt t many = Ok t' -> I t'.
Proof.
  intros Hstep many. induction many as [|p many IH]; simpl; intros t t' Ht H.
  - injection H as <-. exact Ht.
  - apply bind_ok in H as [t1 [H1 H2]]. eauto.
Qed.

Lemma insert_or_ignore_no_null (t : table named) (name : option string) :
  no_null t -> no_null (insert_or_ignore_named t name).
Proof.
  unfold no_null, insert_or_ignore_named. intros H.
  destruct name as [s|]; simpl.
  - destruct (existsb _ _); simpl; [exact H|].
    apply Forall_app. split; [exact H|]. constructor; [discriminate|constructor].
  - exact H.
Qed.

(** [store_files_into_db] never raises. *)
Lemma store_files_total (d : db) (many : list (option string)) :
  exists d', store_files_into_db d many = Ok d'.
Proof.
  unfold store_files_into_db.
  assert (H : forall t, exists t',
             executemany (fun t p => Ok (insert_or_ignore_named t p)) t many = Ok t').
  { induction many as [|p many IH]; intros t; simpl; eauto. }
  destruct (H (files d)) as [t' Ht']. rewrite Ht'. simpl. eauto.
Qed.

Lemma store_files_no_null (d d' : db) (many : list (option string)) :
  store_files_into_db d many = Ok d' -> no_null (files d) -> no_null (files d').
Proof.
  unfold store_files_into_db. intros H Hd.
  apply bind_ok in H as [t [Ht H]]. injection H as <-. simpl.
  revert Hd Ht. apply executemany_ind.
  intros t0 p t1 H0 H1. injection H1 as <-. apply insert_or_ignore_no_null, H0.
Qed.

Lemma store_files_frame (d d' : db) (many : list (option string)) :
  store_files_into_db d many = Ok d' ->
  tags d' = tags d /\ branches d' = branches d /\ commits d' = commits d
  /\ changes d' = changes d /\ backports d' = backports d.
Proof.
  unfold store_files_into_db. intros H.
  apply bind_ok in H as [t [_ H]]. injection H as <-. repeat split.
Qed.

Lemma store_commits_frame (d d' : db) (many : list (option string)) :
  store_commits_into_db d many = Ok d' ->
  same_but_commits d d'
  /\ executemany insert_named (commits d) many = Ok (commits d').
Proof.
  unfold store_commits_into_db. intros H.
  apply bind_ok in H as [t [Ht H]]. injection H as <-. repeat split. exact Ht.
Qed.

Lemma insert_change_spec (d d' : db) (p : change_params) :
  insert_change d p = Ok d' ->
  tags d' = tags d /\ branches d' = branches d /\ commits d' = commits d
  /\ files d' = files d /\ backports d' = backports d
  /\ exists r, rows (changes d') = (rows (changes d) ++ [r])%list
               /\ ch_tag_id r = select_id (tags d) (Some (p_tag p))
               /\ ch_from_id r = select_id (files d) (p_from p)
               /\ ch_to_id r = select_id (files d) (p_to p).
Proof.
  unfold insert_change. destruct (negb (fits_int64 (p_score p))); [discriminate|].
  destruct (select_id (commits d) _) as [ci|]; [|discriminate].
  intros H. injection H as <-. repeat split. eexists. repeat split.
Qed.

(** [store_changes_into_db] appends one row per tuple; the tag of a row
    is what the [tags] table gives for the tag name of its tuple. *)
Lemma store_changes_spec (many : list change_params) (d d' : db) :
  store_changes_into_db d many = Ok d' ->
  tags d' = tags d /\ branches d' = branches d /\ commits d' = commits d
  /\ files d' = files d /\ backports d' = backports d
  /\ exists new, rows (changes d') = (rows (changes d) ++ new)%list
                 /\ Forall2 (fun p r => ch_tag_id r = select_id (tags d) (Some (p_tag p)))
                            many new.
Proof.
  unfold store_changes_into_db. revert d.
  induction many as [|p many IH]; simpl; intros d H.
  - injection H as <-. repeat split. exists []. rewrite app_nil_r. split; constructor.
  - apply bind_ok in H as [d1 [H1 H2]].
    apply insert_change_spec in H1 as (Et & Eb & Ec & Ef & Ebp & r & Er & Htag & _).
    apply IH in H2 as (Et' & Eb' & Ec' & Ef' & Ebp' & new & Enew & Hall).
    repeat split; try congruence.
    exists (r :: new). split.
    + rewrite Enew, Er, <- app_assoc. reflexivity.
    + constructor; [exact Htag|]. rewrite Et in Hall. exact Hall.
Qed.

Lemma select_id_stored (t : table named) (name : string) :
  stored t name ->
  exists r, In r (rows t) /\ n_name r = Some name
            /\ select_id t (Some name) = Some (n_id r).
Proof.
  intros [r0 [Hin Hname]]. unfold select_id.
  destruct (find _ (rows t)) as [r|] eqn:E.
  - apply find_some in E as [Hr Heq]. exists r. repeat split; [exact Hr|].
    destruct (n_name r) as [s|]; simpl in Heq; [|discriminate].
    apply String.eqb_eq in Heq. congruence.
  - exfalso. apply (find_none _ _ E) in Hin. rewrite Hname in Hin.
    simpl in Hin. rewrite String.eqb_refl in Hin. discriminate.
Qed.

Lemma select_id_not_stored (t : table named) (name : string) :
  ~ stored t name -> select_id t (Some name) = None.
Proof.
  intros H. unfold select_id.
  destruct (find _ (rows t)) as [r|] eqn:E; [|reflexivity].
  exfalso. apply H. apply find_some in E as [Hr Heq]. exists r. split; [exact Hr|].
  destruct (n_name r) as [s|]; simpl in Heq; [|discriminate].
  apply String.eqb_eq in Heq. congruence.
Qed.

(** ** The worker *)

Import Diff.

Lemma body_line_tag (hash : option string) (end_ l : string) (rs : list change_params) :
  body_line hash end_ l = Ok rs -> Forall (fun p => p_tag p = end_) rs.
Proof.
  unfold body_line. intros H. apply bind_ok in H as [r [_ H]].
  destruct r as [[st old new|path|path]|].
  - apply bind_ok in H as [score [_ H]]. injection H as <-. repeat constructor.
  - injection H as <-. repeat constructor.
  - injection H as <-. repeat constructor.
  - injection H as <-. constructor.
Qed.

Lemma scan_tag (repo : linux_repo) (end_ : string) (lines : list string) :
  forall hash many0 many,
    scan repo end_ lines hash many0 = Ok many ->
    Forall (fun p => p_tag p = end_) many0 ->
    Forall (fun p => p_tag p = end_) many.
Proof.
  induction lines as [|l rest IH]; simpl; intros hash many0 many H H0.
  - injection H as <-. exact H0.
  - destruct (_ || _); [injection H as <-; exact H0|].
    destruct (contains BLACKLIST l); [eauto|].
    destruct (startswith ":" l).
    + apply bind_ok in H as [rs [Hrs H]].
      apply (IH _ _ _ H). apply Forall_app. split; [exact H0|].
      apply (body_line_tag _ _ _ _ Hrs).
    + apply bind_ok in H as [h [_ H]]. eauto.
Qed.

Lemma in_dedup (x : option string) (l : list (option string)) :
  In x l -> In x (dedup l).
Proof.
  induction l as [|y l IH]; simpl; [tauto|].
  intros [->|H]; [left; reflexivity|].
  destruct (opt_eqb y x) eqn:E.
  - left. destruct y as [a|], x as [b|]; simpl in E; try discriminate; [|reflexivity].
    apply String.eqb_eq in E. congruence.
  - right. apply filter_In. split; [apply IH, H|]. rewrite E. reflexivity.
Qed.

Lemma opt_eqb_eq (a b : option string) : opt_eqb a b = true -> a = b.
Proof.
  destruct a as [x|], b as [y|]; simpl; try discriminate; [|reflexivity].
  intros H. apply String.eqb_eq in H. congruence.
Qed.

Lemma in_group_keys (x : option string) (l : list (option string)) :
  In x l -> In x (group_keys l).
Proof.
  induction l as [|y l IH]; [tauto|].
  intros [->|H].
  - destruct l as [|z l]; [left; reflexivity|].
    change (In x (if opt_eqb x z then group_keys (z :: l) else x :: group_keys (z :: l))).
    destruct (opt_eqb x z) eqn:E; [|left; reflexivity].
    apply opt_eqb_eq in E. subst z. apply IH. left. reflexivity.
  - destruct l as [|z l]; [destruct H|].
    change (In x (if opt_eqb y z then group_keys (z :: l) else y :: group_keys (z :: l))).
    destruct (opt_eqb y z); [apply IH, H|right; apply IH, H].
Qed.

(** What a successful call of [between] has done. *)
Lemma between_spec (repo : linux_repo) (begin end_ : string) (d d1 : db)
    (files : list (option string)) (many : list change_params) :
  between repo begin end_ d = Ok (d1, (files, many)) ->
  exists out,
    git_log repo (range begin end_) = Ok out
    /\ scan repo end_ (split NL out) None [] = Ok many
    /\ store_commits_into_db d (dedup (map (fun p => Some (p_commit p)) many)) = Ok d1
    /\ files = dedup (group_keys (filter truthy (map p_from many) ++ map p_to many)).
Proof.
  unfold between. intros H.
  apply bind_ok in H as [out [Hout H]].
  apply bind_ok in H as [many' [Hscan H]].
  apply bind_ok in H as [d' [Hst H]].
  injection H as <- <- <-. exists out. repeat split; assumption.
Qed.

(** C2, as stated: a worker would leave the store as it found it. The
    worker of the window from v5.3 to [master] returns a store whose
    [commits] table has a row more. *)
Lemma C2_worker_writes_commits :
  exists d1 res,
    between Ex.lrepo "v5.3" "master" create_db = Ok (d1, res)
    /\ rows (commits d1)
       = [ {| n_id := 1; n_name := Some "bbb2222000000000000000000000000000000000" |} ]
    /\ d1 <> create_db.
Proof.
  eexists. eexists. split; [vm_compute; reflexivity|].
  split; [reflexivity|]. discriminate.
Qed.

(** C2, amended: a worker writes the [commits] table, the distinct commit
    hashes of its result, and no other table; the coordinating process,
    given the result, writes [files] and [changes] and no other table. *)
Theorem C2_worker_writes_only_commits (repo : linux_repo) (begin end_ : string)
    (d d1 : db) (res : list (option string) * list change_params) :
  between repo begin end_ d = Ok (d1, res) ->
  same_but_commits d d1
  /\ executemany insert_named (commits d)
       (dedup (map (fun p => Some (p_commit p)) (snd res))) = Ok (commits d1)
  /\ forall d2, Build.collect d1 res = Ok d2 -> same_but_files_changes d1 d2.
Proof.
  destruct res as [files many]. intros H.
  apply between_spec in H as (out & _ & _ & Hst & _).
  apply store_commits_frame in Hst as [Hframe Hex].
  split; [exact Hframe|]. split; [exact Hex|].
  intros d2 Hc. unfold Build.collect in Hc.
  apply bind_ok in Hc as [d' [Hf Hch]]. simpl in Hf, Hch.
  apply store_files_frame in Hf as (Et & Eb & Ec & _ & Ebp).
  apply store_changes_spec in Hch as (Et' & Eb' & Ec' & _ & Ebp' & _).
  unfold same_but_files_changes. repeat split; congruence.
Qed.

Lemma C2_worker_writes_only_commits_witness :
  exists d1 res,
    between Ex.lrepo "v5.3" "master" create_db = Ok (d1, res)
    /\ same_but_commits create_db d1
    /\ forall d2, Build.collect d1 res = Ok d2 -> same_but_files_changes d1 d2.
Proof.
  eexists. eexists. split; [vm_compute; reflexivity|].
  refine (let H := C2_worker_writes_only_commits Ex.lrepo "v5.3" "master" create_db _ _ _ in
          conj (proj1 H) (proj2 (proj2 H))).
  vm_compute. reflexivity.
Defined.

(** C10: when the tuples of a work unit include a deletion, the file set
    the worker returns contains [None]; storing that set raises nothing
    and leaves [files] without a NULL name. *)
Theorem C10_null_path_absorbed (repo : linux_repo) (begin end_ : string)
    (d d1 : db) (files_set : list (option string)) (many : list change_params) :
  between repo begin end_ d = Ok (d1, (files_set, many)) ->
  (exists p, In p many /\ deletion p) ->
  no_null (files d) ->
  In None files_set
  /\ exists d2, store_files_into_db d1 files_set = Ok d2
                /\ no_null (files d2)
                /\ ~ In None (map n_name (rows (files d2))).
Proof.
  intros H [p [Hp [_ Hto]]] Hnn.
  apply between_spec in H as (out & _ & _ & Hst & ->).
  apply store_commits_frame in Hst as [(_ & _ & Ef & _) _].
  split.
  - apply in_dedup, in_group_keys, in_or_app. right.
    rewrite <- Hto. apply in_map, Hp.
  - destruct (store_files_total d1
                (dedup (group_keys (filter truthy (map p_from many) ++ map p_to many))))
      as [d2 Hd2].
    exists d2. split; [exact Hd2|].
    assert (Hnn2 : no_null (files d2)).
    { apply (store_files_no_null _ _ _ Hd2). rewrite Ef. exact Hnn. }
    split; [exact Hnn2|].
    intros Hin. apply in_map_iff in Hin as [r [Hr Hin]].
    unfold no_null in Hnn2. rewrite Forall_forall in Hnn2.
    exact (Hnn2 r Hin Hr).
Qed.

Lemma C10_null_path_absorbed_witness :
  exists files_set,
    In None files_set
    /\ exists d2,
         store_files_into_db
           (set_commits create_db
              {| rows := [ {| n_id := 1;
                              n_name := Some "bbb2222000000000000000000000000000000000" |} ];
                 seq := 1 |})
           files_set = Ok d2
         /\ no_null (files d2)
         /\ ~ In None (map n_name (rows (files d2))).
Proof.
  eexists.
  refine (C10_null_path_absorbed Ex.lrepo "v5.3" "master" create_db _ _ _ _ _ _).
  - vm_compute. reflexivity.
  - eexists. split; [right; left; reflexivity|].
    split; [discriminate|reflexivity].
  - constructor.
Defined.

(** ** Tags of the stored changes *)

Import Resolver.

Lemma in_uniq (x : string) (l : list string) : In x (Tags.uniq l) -> In x l.
Proof.
  induction l as [|y l IH]; [tauto|].
  destruct l as [|z l]; [tauto|].
  change (Tags.uniq (y :: z :: l))
    with (if String.eqb y z then Tags.uniq (z :: l) else y :: Tags.uniq (z :: l)).
  destruct (String.eqb y z).
  - intros H. right. apply IH, H.
  - intros [->|H]; [left; reflexivity|right; apply IH, H].
Qed.




(** The change rows that one work unit adds all carry what the [tags]
    table gives for the upper bound of the unit. *)
Lemma run_unit_changes (lrepo : linux_repo) (d d' : db) (begin end_ : string) :
  Build.run_unit lrepo d (begin, end_) = Ok d' ->
  tags d' = tags d
  /\ exists new, rows (changes d') = (rows (changes d) ++ new)%list
                 /\ forall r, In r new -> ch_tag_id r = select_id (tags d) (Some end_).
Proof.
  unfold Build.run_unit, Build.collect. intros H.
  apply bind_ok in H as [[d1 [fs many]] [Hb H]]. simpl in H.
  apply bind_ok in H as [d2 [Hf Hc]].
  apply between_spec in Hb as (out & _ & Hscan & Hst & _).
  apply store_commits_frame in Hst as [(Et1 & _ & _ & Ech1 & _) _].
  apply store_files_frame in Hf as (Et2 & _ & _ & Ech2 & _).
  apply store_changes_spec in Hc as (Et3 & _ & _ & _ & _ & new & Enew & Hall).
  split; [congruence|].
  exists new. split; [rewrite Enew; congruence|].
  assert (Htag : Forall (fun p => p_tag p = end_) many).
  { apply (scan_tag _ _ _ _ _ _ Hscan). constructor. }
  intros r Hr. clear Enew Hscan. revert Htag Hr.
  induction Hall as [|p r' many' new' Hpr Hall IH]; intros Htag Hr; [destruct Hr|].
  inversion Htag as [|? ? Hp Htag']; subst.
  destruct Hr as [<-|Hr]; [|apply IH; assumption].
  rewrite Hpr. congruence.
Qed.

(** The snapshot: its change rows carry what the [tags] table gives for
    the tag it is called with. *)
Lemma fetch_root_tree_changes (lrepo : linux_repo) (tag : string) (d d' : db) :
  Build.fetch_root_tree_files lrepo tag d = Ok d' ->
  tags d' = tags d
  /\ exists new, rows (changes d') = (rows (changes d) ++ new)%list
                 /\ forall r, In r new -> ch_tag_id r = select_id (tags d) (Some tag).
Proof.
  unfold Build.fetch_root_tree_files. intros H.
  apply bind_ok in H as [paths [_ H]].
  apply bind_ok in H as [d1 [Hf H]].
  apply bind_ok in H as [d2 [Hc H]].
  apply store_files_frame in Hf as (Et1 & _ & _ & Ech1 & _).
  apply store_commits_frame in Hc as [(Et2 & _ & _ & Ech2 & _) _].
  apply store_changes_spec in H as (Et3 & _ & _ & _ & _ & new & Enew & Hall).
  split; [congruence|].
  exists new. split; [rewrite Enew; congruence|].
  intros r Hr. clear Enew. revert Hr.
  induction paths as [|e paths IH] in new, Hall |- *; simpl in Hall;
    inversion Hall as [|? ? ? ? Hpr Hall']; subst; intros Hr; [destruct Hr|].
  destruct Hr as [<-|Hr]; [|apply (IH _ Hall' Hr)].
  rewrite Hpr. simpl. congruence.
Qed.


(** ** Classification of body lines *)

Lemma split_on_prefix (p : ascii -> bool) (a s : string) :
  has_char p a = false ->
  split_on p (a ++ s)
  = match split_on p s with
    | w :: ws => (a ++ w) :: ws
    | [] => [a]
    end.
Proof.
  intros Ha. induction a as [|c a IH]; simpl in *.
  - destruct (split_on p s) eqn:E; [|reflexivity].
    exfalso. exact (split_on_nonempty p s E).
  - apply orb_false_elim in Ha as [Hc Ha]. rewrite Hc, (IH Ha).
    destruct (split_on p s); reflexivity.
Qed.

Lemma join_cons (sep : ascii) (x y : string) (l : list string) :
  join sep (x :: y :: l) = x ++ String sep (join sep (y :: l)).
Proof. reflexivity. Qed.

(** Joining clean pieces and splitting again gives the pieces back. *)
Lemma split_join (sep : ascii) (x : string) (l : list string) :
  Forall (fun s => has_char (Ascii.eqb sep) s = false) (x :: l) ->
  split sep (join sep (x :: l)) = x :: l.
Proof.
  revert x. induction l as [|y l IH]; intros x H.
  - inversion H; subst. apply split_on_clean. assumption.
  - inversion H as [|? ? Hx Hl]; subst. rewrite join_cons. unfold split.
    rewrite split_on_app; [|exact Hx|apply Ascii.eqb_refl].
    f_equal. apply IH, Hl.
Qed.

(** Pieces without a character, joined with another one, have none. *)
Lemma has_char_join (p : ascii -> bool) (sep : ascii) (x : string) (l : list string) :
  p sep = false ->
  Forall (fun s => has_char p s = false) (x :: l) ->
  has_char p (join sep (x :: l)) = false.
Proof.
  intros Hsep. revert x. induction l as [|y l IH]; intros x H.
  - inversion H; subst. assumption.
  - inversion H as [|? ? Hx Hl]; subst. rewrite join_cons, has_char_app, Hx.
    simpl. rewrite Hsep. apply IH, Hl.
Qed.

Section RawLine.
Variables mode1 mode2 sha1 sha2 status : string.
Hypothesis Hmode1 : no_space mode1.
Hypothesis Hmode2 : no_space mode2.
Hypothesis Hsha1 : no_space sha1.
Hypothesis Hsha2 : no_space sha2.
Hypothesis Hstatus : no_space status.
Hypothesis Hstatus' : no_tab status.

(** The fifth piece of the line between spaces is the first such piece
    of what follows the object names. *)
Lemma raw_line_field (paths : list string) :
  index (split SP (raw_line mode1 mode2 sha1 sha2 status paths)) 4
  = index (split SP (join TAB (status :: paths))) 0.
Proof.
  unfold raw_line. rewrite !join_cons. unfold split.
  rewrite split_on_app; [|exact Hmode1|reflexivity].
  rewrite split_on_app; [|exact Hmode2|reflexivity].
  rewrite split_on_app; [|exact Hsha1|reflexivity].
  rewrite split_on_app; [|exact Hsha2|reflexivity].
  reflexivity.
Qed.

(** With clean paths the tuple [rr] is the status followed by the
    paths. *)
Lemma raw_line_rr (paths : list string) :
  Forall no_space paths -> Forall no_tab paths ->
  index (split SP (raw_line mode1 mode2 sha1 sha2 status paths)) 4
  = Ok (join TAB (status :: paths))
  /\ split TAB (join TAB (status :: paths)) = status :: paths.
Proof.
  intros Hsp Htab. split.
  - rewrite raw_line_field. unfold split. rewrite split_on_clean; [reflexivity|].
    apply has_char_join; [reflexivity|]. constructor; assumption.
  - apply split_join. constructor; assumption.
Qed.

(** Whatever the paths, the first element of [rr] is the status. *)
Lemma raw_line_status (paths : list string) :
  exists field rr,
    index (split SP (raw_line mode1 mode2 sha1 sha2 status paths)) 4 = Ok field
    /\ split TAB field = status :: rr.
Proof.
  rewrite raw_line_field. destruct paths as [|x l].
  - exists status, []. unfold split. simpl join.
    rewrite !split_on_clean by assumption. split; reflexivity.
  - rewrite join_cons. unfold split.
    rewrite (split_on_prefix _ status) by exact Hstatus.
    cbn [split_on]. change (Ascii.eqb SP TAB) with false. cbv iota.
    destruct (split_on (Ascii.eqb SP) (join TAB (x :: l))) as [|w ws] eqn:E;
      [exfalso; exact (split_on_nonempty _ _ E)|].
    exists (status ++ String TAB w), (split_on (Ascii.eqb TAB) w).
    split; [reflexivity|].
    rewrite split_on_app; [reflexivity|exact Hstatus'|reflexivity].
Qed.

Lemma classify_add (hash : option string) (end_ path : string) :
  no_space path -> no_tab path -> startswith "R" status = false ->
  startswith "A" status = true ->
  body_line hash end_ (raw_line mode1 mode2 sha1 sha2 status [path])
  = Ok [ {| p_commit := str_hash hash; p_score := None; p_from := None;
            p_to := Some path; p_tag := end_ |} ].
Proof.
  intros Hp Hp' HR HA. unfold body_line, get_renames_with_score_or_none.
  destruct (raw_line_rr [path]) as [E1 E2]; [repeat constructor; assumption ..|].
  rewrite E1. cbn [bind]. rewrite E2. cbn [bind index nth_error]. rewrite HR, HA. reflexivity.
Qed.

Lemma classify_del (hash : option string) (end_ path : string) :
  no_space path -> no_tab path -> startswith "R" status = false ->
  startswith "A" status = false -> startswith "D" status = true ->
  body_line hash end_ (raw_line mode1 mode2 sha1 sha2 status [path])
  = Ok [ {| p_commit := str_hash hash; p_score := None; p_from := Some path;
            p_to := None; p_tag := end_ |} ].
Proof.
  intros Hp Hp' HR HA HD. unfold body_line, get_renames_with_score_or_none.
  destruct (raw_line_rr [path]) as [E1 E2]; [repeat constructor; assumption ..|].
  rewrite E1. cbn [bind]. rewrite E2. cbn [bind index nth_error]. rewrite HR, HA, HD. reflexivity.
Qed.

Lemma classify_rename (hash : option string) (end_ old new : string) (score : Z) :
  no_space old -> no_tab old -> no_space new -> no_tab new ->
  startswith "R" status = true -> int (drop 1 status) = Ok score ->
  body_line hash end_ (raw_line mode1 mode2 sha1 sha2 status [old; new])
  = Ok [ {| p_commit := str_hash hash; p_score := Some score; p_from := Some old;
            p_to := Some new; p_tag := end_ |} ].
Proof.
  intros Ho Ho' Hn Hn' HR Hscore. unfold body_line, get_renames_with_score_or_none.
  destruct (raw_line_rr [old; new]) as [E1 E2]; [repeat constructor; assumption ..|].
  rewrite E1. cbn [bind]. rewrite E2. cbn [bind index nth_error]. rewrite HR. cbn [bind]. rewrite Hscore. reflexivity.
Qed.

Lemma classify_other (hash : option string) (end_ : string) (paths : list string) :
  startswith "R" status = false -> startswith "A" status = false ->
  startswith "D" status = false ->
  body_line hash end_ (raw_line mode1 mode2 sha1 sha2 status paths) = Ok [].
Proof.
  intros HR HA HD. unfold body_line, get_renames_with_score_or_none.
  destruct (raw_line_status paths) as (field & rr & -> & Hrr).
  cbn [bind]. rewrite Hrr. cbn [bind index nth_error]. rewrite HR, HA, HD. reflexivity.
Qed.

End RawLine.

Lemma startswith_char (a : ascii) (s : string) :
  startswith (String a "") s = true -> exists s', s = String a s'.
Proof.
  destruct s as [|c s]; simpl; [discriminate|].
  destruct (ascii_dec a c) as [->|]; [eauto|discriminate].
Qed.

(** In the loop a line that starts with a colon is skipped when it holds
    the blacklisted path and is classified otherwise. *)
Lemma scan_body_line (repo : linux_repo) (end_ l : string) (rest : list string)
    (hash : option string) (many : list change_params) :
  startswith ":" l = true ->
  scan repo end_ (l :: rest) hash many
  = if contains BLACKLIST l then scan repo end_ rest hash many
    else (rs <- body_line hash end_ l ;; scan repo end_ rest hash (many ++ rs)).
Proof.
  intros H. destruct (startswith_char _ _ H) as [l' ->].
  cbn [scan]. rewrite H. reflexivity.
Qed.

Lemma raw_line_colon (mode1 mode2 sha1 sha2 status : string) (paths : list string) :
  startswith ":" (raw_line mode1 mode2 sha1 sha2 status paths) = true.
Proof.
  unfold raw_line. rewrite join_cons. unfold startswith. simpl.
  match goal with |- prefix "" ?x = true => destruct x; reflexivity end.
Qed.

(** C6, as stated: every body line with status [A] would give an addition
    of its path and every one with status [R] a rename. The line that
    adds [my file.c] gives an addition of [my]; the line that renames
    [old name.c] raises; the line that adds the blacklisted path gives
    nothing. *)
Lemma C6_paths_with_spaces_misparsed :
  body_line None "v5.4" (raw_line "000000" "100644" "0000000" "1234567" "A" ["my file.c"])
  = Ok [ {| p_commit := "None"; p_score := None; p_from := None;
            p_to := Some "my"; p_tag := "v5.4" |} ]
  /\ body_line None "v5.4"
       (raw_line "100644" "100644" "0000000" "1234567" "R100" ["old name.c"; "new.c"])
     = Raise IndexError
  /\ scan Ex.lrepo "v5.4"
       [raw_line "000000" "100644" "0000000" "1234567" "A" [BLACKLIST]] None []
     = Ok [].
Proof. repeat split. Qed.

(** C6, amended: for a body line whose fields and paths hold no space and
    no tab, status [A] gives an addition (no source, the path as target),
    status [D] a deletion (the path as source, no target), status [R] a
    rename with the integer read after the [R] as score, and any other
    status gives nothing, whatever the paths. In the loop such a line is
    classified this way unless it holds the blacklisted path. *)
Theorem C6_body_line_classification (mode1 mode2 sha1 sha2 status : string)
    (hash : option string) (end_ : string) :
  no_space mode1 -> no_space mode2 -> no_space sha1 -> no_space sha2 ->
  no_space status -> no_tab status ->
  (forall path, no_space path -> no_tab path -> startswith "A" status = true ->
     body_line hash end_ (raw_line mode1 mode2 sha1 sha2 status [path])
     = Ok [ {| p_commit := str_hash hash; p_score := None; p_from := None;
               p_to := Some path; p_tag := end_ |} ])
  /\ (forall path, no_space path -> no_tab path -> startswith "D" status = true ->
     body_line hash end_ (raw_line mode1 mode2 sha1 sha2 status [path])
     = Ok [ {| p_commit := str_hash hash; p_score := None; p_from := Some path;
               p_to := None; p_tag := end_ |} ])
  /\ (forall old new score,
     no_space old -> no_tab old -> no_space new -> no_tab new ->
     startswith "R" status = true -> int (drop 1 status) = Ok score ->
     body_line hash end_ (raw_line mode1 mode2 sha1 sha2 status [old; new])
     = Ok [ {| p_commit := str_hash hash; p_score := Some score; p_from := Some old;
               p_to := Some new; p_tag := end_ |} ])
  /\ (forall paths,
     startswith "R" status = false -> startswith "A" status = false ->
     startswith "D" status = false ->
     body_line hash end_ (raw_line mode1 mode2 sha1 sha2 status paths) = Ok [])
  /\ (forall repo paths rest many,
     contains BLACKLIST (raw_line mode1 mode2 sha1 sha2 status paths) = false ->
     scan repo end_ (raw_line mode1 mode2 sha1 sha2 status paths :: rest) hash many
     = (rs <- body_line hash end_ (raw_line mode1 mode2 sha1 sha2 status paths) ;;
        scan repo end_ rest hash (many ++ rs))).
Proof.
  intros H1 H2 H3 H4 Hs Hs'.
  split; [|split; [|split; [|split]]].
  - intros path Hp Hp' HA. apply classify_add; try assumption.
    destruct (startswith_char _ _ HA) as [s' ->]. reflexivity.
  - intros path Hp Hp' HD.
    destruct (startswith_char _ _ HD) as [s' E].
    apply classify_del; try assumption; rewrite E; reflexivity.
  - intros old new score Ho Ho' Hn Hn' HR Hscore. apply classify_rename; assumption.
  - intros paths HR HA HD. apply classify_other; assumption.
  - intros repo paths rest many Hb.
    rewrite (scan_body_line _ _ _ _ _ _ (raw_line_colon _ _ _ _ _ _)), Hb. reflexivity.
Qed.

Lemma C6_body_line_classification_witness :
  body_line (Some "abc") "v5.4"
    (raw_line "100644" "100644" "1111111" "2222222" "R087" ["old.c"; "new.c"])
  = Ok [ {| p_commit := "abc"; p_score := Some 87; p_from := Some "old.c";
            p_to := Some "new.c"; p_tag := "v5.4" |} ].
Proof.
  refine (proj1 (proj2 (proj2
            (C6_body_line_classification "100644" "100644" "1111111" "2222222" "R087"
               (Some "abc") "v5.4" _ _ _ _ _ _))) "old.c" "new.c" 87 _ _ _ _ _ _);
    reflexivity.
Defined.

(** ** The tag resolver *)

Lemma dict_get_set_other {V : Type} (d : list (string * V)) (k k' : string) (v : V) :
  k' <> k -> dict_get (dict_set d k' v) k = dict_get d k.
Proof.
  intros Hne. unfold dict_get. f_equal.
  induction d as [|[k0 v0] d IH]; simpl.
  - destruct (String.eqb_spec k' k); [contradiction|reflexivity].
  - destruct (String.eqb_spec k0 k') as [->|Hk0]; simpl.
    + destruct (String.eqb_spec k' k); [contradiction|reflexivity].
    + destruct (String.eqb k0 k); [reflexivity|exact IH].
Qed.

Lemma dict_get_set_same {V : Type} (d : list (string * V)) (k : string) (v : V) :
  dict_get (dict_set d k v) k = Some v.
Proof.
  unfold dict_get.
  induction d as [|[k0 v0] d IH]; simpl.
  - rewrite String.eqb_refl. reflexivity.
  - destruct (String.eqb_spec k0 k) as [->|Hk0]; simpl.
    + rewrite String.eqb_refl. reflexivity.
    + destruct (String.eqb_spec k0 k); [contradiction|exact IH].
Qed.

(** A branch whose body raises is never written to the dictionary. *)
Lemma get_tags_loop_failed (repo : ksource_repo) (b : string) (e : exn) (branches : list string) :
  srcversion_of_branch repo b = Raise e ->
  forall ret err ret' err',
    get_tags_loop repo branches ret err = Ok (ret', err') ->
    dict_get ret' b = dict_get ret b.
Proof.
  intros Hb. induction branches as [|x branches IH]; simpl; intros ret err ret' err' H.
  - injection H as <- _. reflexivity.
  - destruct (srcversion_of_branch repo x) as [v|ex] eqn:Ex.
    + rewrite (IH _ _ _ _ H). apply dict_get_set_other.
      intros ->. rewrite Hb in Ex. discriminate.
    + destruct ex; try discriminate. exact (IH _ _ _ _ H).
Qed.

(** A branch whose body returns a version has that version at the end. *)
Lemma get_tags_loop_found (repo : ksource_repo) (b v : string) (branches : list string) :
  srcversion_of_branch repo b = Ok v ->
  forall ret err ret' err',
    get_tags_loop repo branches ret err = Ok (ret', err') ->
    In b branches \/ dict_get ret b = Some v ->
    dict_get ret' b = Some v.
Proof.
  intros Hb. induction branches as [|x branches IH]; simpl; intros ret err ret' err' H Hin.
  - injection H as <- _. destruct Hin as [[]|Hin]. exact Hin.
  - destruct (srcversion_of_branch repo x) as [vx|ex] eqn:Ex.
    + apply (IH _ _ _ _ H).
      destruct (String.eqb_spec x b) as [->|Hne].
      * right. rewrite Hb in Ex. injection Ex as <-. apply dict_get_set_same.
      * destruct Hin as [[->|Hin]|Hin]; [contradiction|left; exact Hin|right].
        rewrite dict_get_set_other by exact Hne. exact Hin.
    + destruct ex; try discriminate.
      apply (IH _ _ _ _ H).
      destruct Hin as [[->|Hin]|Hin]; [rewrite Hb in Ex; discriminate|left; exact Hin|right; exact Hin].
Qed.

(** The error stream holds the old lines and one line per branch whose
    body raises [KeyError]. *)
Lemma get_tags_loop_err (repo : ksource_repo) (branches : list string) :
  forall ret err ret' err' x,
    get_tags_loop repo branches ret err = Ok (ret', err') ->
    In x err' <->
    In x err \/ exists b, In b branches /\ srcversion_of_branch repo b = Raise KeyError
                          /\ x = "# " ++ b.
Proof.
  induction branches as [|b branches IH]; simpl; intros ret err ret' err' x H.
  - injection H as _ <-. split; [tauto|]. intros [Hx|[b [[] _]]]. exact Hx.
  - destruct (srcversion_of_branch repo b) as [v|e] eqn:Eb.
    + rewrite (IH _ _ _ _ x H). split.
      * intros [Hx|[b' [Hin Hb']]]; [left; exact Hx|right; exists b'; tauto].
      * intros [Hx|[b' [[->|Hin] [Hb' Hx]]]]; [left; exact Hx| |right; exists b'; tauto].
        rewrite Eb in Hb'. discriminate.
    + destruct e; try discriminate.
      rewrite (IH _ _ _ _ x H). split.
      * intros [Hx|[b' [Hin Hb']]]; [|right; exists b'; tauto].
        apply in_app_or in Hx as [Hx|[<-|[]]]; [left; exact Hx|].
        right. exists b. tauto.
      * intros [Hx|[b' [[->|Hin] [Hb' Hx]]]].
        -- left. apply in_or_app. left. exact Hx.
        -- left. apply in_or_app. right. left. symmetry. exact Hx.
        -- right. exists b'. tauto.
Qed.

(** A blob without a [SRCVERSION=] line has the empty version. *)
Lemma srcversion_of_lines_absent (lines : list string) :
  Forall (fun l => startswith "SRCVERSION=" l = false) lines ->
  srcversion_of_lines lines = Ok "".
Proof.
  induction 1 as [|l lines Hl _ IH]; simpl; [reflexivity|].
  rewrite Hl. exact IH.
Qed.

(** The empty version has no key: the sort of [main] raises on it. *)
Lemma empty_version_breaks_sort :
  Tags.key_function "" = Raise ValueError
  /\ uniq_tags [("SLE15", "5.3"); ("no-key", "")] = Raise ValueError.
Proof. split; reflexivity. Qed.

(** ** The backport correlator *)

Import Backport.

(** The first line with a match decides, whatever follows it. *)
Lemma hash_of_lines_first (lrepo : linux_repo) (pre : list string) (l : string)
    (post : list string) (ref : string) :
  Forall (fun x => first_match x = None) pre ->
  first_match l = Some ref ->
  hash_of_lines lrepo (pre ++ l :: post)
  = match revparse_single lrepo ref with
    | Ok h => Some h
    | Raise _ => None
    end.
Proof.
  intros Hpre Hl. induction Hpre as [|x pre Hx _ IH]; simpl.
  - rewrite Hl. reflexivity.
  - rewrite Hx. exact IH.
Qed.

Lemma hashes_of_patches_app (lrepo : linux_repo) (a b : list string) :
  hashes_of_patches lrepo (a ++ b)
  = (hashes_of_patches lrepo a ++ hashes_of_patches lrepo b)%list.
Proof.
  induction a as [|fc a IH]; simpl; [reflexivity|].
  destruct (get_hash_or_nothing fc lrepo) as [hs|]; [|exact IH].
  destruct (String.eqb hs ""); [exact IH|]. simpl. rewrite IH. reflexivity.
Qed.

(** C9: the reference of a patch blob is the one on its first matching
    line, so a blob that agrees with it up to that line gives the same
    result; when that reference does not resolve the blob gives no hash,
    the other blobs of the branch give what they give without it, and
    the scan of the branch reports nothing. *)
Theorem C9_first_match_wins (lrepo : linux_repo) (fc : string) (pre : list string)
    (l : string) (post : list string) (ref : string) :
  split NL fc = (pre ++ l :: post)%list ->
  Forall (fun x => first_match x = None) pre ->
  first_match l = Some ref ->
  get_hash_or_nothing fc lrepo
  = match revparse_single lrepo ref with
    | Ok h => Some h
    | Raise _ => None
    end
  /\ (forall fc' post',
        split NL fc' = (pre ++ l :: post')%list ->
        get_hash_or_nothing fc' lrepo = get_hash_or_nothing fc lrepo)
  /\ (forall e, revparse_single lrepo ref = Raise e ->
        get_hash_or_nothing fc lrepo = None
        /\ (forall before after,
              hashes_of_patches lrepo (before ++ fc :: after)
              = (hashes_of_patches lrepo before ++ hashes_of_patches lrepo after)%list)
        /\ (forall krepo b t,
              revparse_tree krepo ("origin/" ++ b) = Ok t ->
              patches_of t = [Ok fc] ->
              get_commits_per_branch [b] krepo lrepo = ([(b, [])], []))).
Proof.
  intros Hsplit Hpre Hl.
  assert (Hfc : get_hash_or_nothing fc lrepo
                = match revparse_single lrepo ref with Ok h => Some h | Raise _ => None end).
  { unfold get_hash_or_nothing. rewrite Hsplit. apply hash_of_lines_first; assumption. }
  split; [exact Hfc|]. split.
  - intros fc' post' Hsplit'. rewrite Hfc. unfold get_hash_or_nothing.
    rewrite Hsplit'. apply hash_of_lines_first; assumption.
  - intros e He. rewrite He in Hfc. split; [exact Hfc|]. split.
    + intros before after. rewrite hashes_of_patches_app. simpl. rewrite Hfc. reflexivity.
    + intros krepo b t Ht Hp. unfold get_commits_per_branch. cbn [commits_loop].
      rewrite Ht, Hp. cbn [read_blobs hashes_of_patches]. rewrite Hfc. reflexivity.
Qed.

Lemma C9_first_match_wins_witness :
  get_hash_or_nothing Ex.fix_patch Ex.lrepo
  = Some "bbb2222000000000000000000000000000000000"
  /\ (forall fc' post',
        split NL fc' = (["From: someone"] ++ Ex.tab "Git-commit:" "bbb2222000" :: post')%list ->
        get_hash_or_nothing fc' Ex.lrepo = get_hash_or_nothing Ex.fix_patch Ex.lrepo).
Proof.
  refine (let H := C9_first_match_wins Ex.lrepo Ex.fix_patch ["From: someone"]
                     (Ex.tab "Git-commit:" "bbb2222000")
                     ["Git-commit: aaa1111000"; ""; "body"] "bbb2222000" _ _ _ in
          conj (proj1 H) (proj1 (proj2 H))).
  - reflexivity.
  - repeat constructor.
  - reflexivity.
Defined.

(** * Further properties *)

(** ** More on splitting *)

Lemma prefix_empty (s : string) : prefix "" s = true.
Proof. destruct s; reflexivity. Qed.

(** Looking for a one-character string is looking for the character. *)
Lemma contains_char (c : ascii) (s : string) :
  contains (String c "") s = has_char (Ascii.eqb c) s.
Proof.
  induction s as [|a s IH]; [reflexivity|].
  cbn [contains has_char prefix]. rewrite IH.
  destruct (ascii_dec c a) as [->|Hne].
  - rewrite prefix_empty, Ascii.eqb_refl. reflexivity.
  - destruct (Ascii.eqb_spec c a); [contradiction|reflexivity].
Qed.

(** The first piece of a split holds no separator, and the string is
    that piece alone or that piece, a separator and the rest. *)
Lemma split_on_head (p : ascii -> bool) (s : string) :
  exists w ws,
    split_on p s = w :: ws
    /\ has_char p w = false
    /\ (if has_char p s then exists c rest, p c = true /\ s = w ++ String c rest
        else s = w /\ ws = []).
Proof.
  induction s as [|a s (w & ws & E & Hw & Hs)].
  - exists "", []. repeat split.
  - cbn [split_on has_char]. destruct (p a) eqn:Ea.
    + exists "", (split_on p s). repeat split. exists a, s. split; [exact Ea|reflexivity].
    + rewrite E. exists (String a w), ws. split; [reflexivity|]. split.
      * cbn [has_char]. rewrite Ea. exact Hw.
      * cbn [orb]. destruct (has_char p s).
        -- destruct Hs as (c & rest & Hc & ->). exists c, rest. split; [exact Hc|reflexivity].
        -- destruct Hs as [-> ->]. split; reflexivity.
Qed.

Lemma index_split_0 (p : ascii -> bool) (s : string) :
  exists w, index (split_on p s) 0 = Ok w /\ has_char p w = false
            /\ (has_char p s = true -> exists c rest, p c = true /\ s = w ++ String c rest).
Proof.
  destruct (split_on_head p s) as (w & ws & E & Hw & Hs).
  exists w. rewrite E. repeat split; [exact Hw|].
  intros H. rewrite H in Hs. exact Hs.
Qed.

(** ** The branch configuration feed *)

Import Feed.

(** What one line of the feed contributes. *)
Lemma branches_of_line (l : string) (rest ret : list string) :
  branches_of_lines (l :: rest) ret
  = branches_of_lines rest
      (ret ++ (if skipped l then []
               else match split ":" l with
                    | name :: _ => if blacklisted name then [] else [name]
                    | [] => []
                    end)).
Proof.
  cbn [branches_of_lines]. destruct (skipped l); [rewrite app_nil_r; reflexivity|].
  unfold split. destruct (split_on_head (Ascii.eqb ":") l) as (w & ws & -> & _).
  cbn [index nth_error bind]. destruct (blacklisted w); [rewrite app_nil_r|]; reflexivity.
Qed.

(** The loop never raises, keeps what it was given in front and only
    adds names that pass every test. *)
Lemma branches_of_lines_spec (lines : list string) :
  forall ret, exists added,
    branches_of_lines lines ret = Ok (ret ++ added)%list
    /\ forall b, In b added <->
         exists l, In l lines /\ skipped l = false /\ blacklisted b = false
                   /\ index (split ":" l) 0 = Ok b.
Proof.
  induction lines as [|l lines IH]; intros ret.
  - exists []. rewrite app_nil_r. split; [reflexivity|].
    intros b. split; [intros []|intros (l & [] & _)].
  - rewrite branches_of_line.
    match goal with
    | |- context [branches_of_lines lines ?r] => destruct (IH r) as (added & E & Hadded)
    end.
    rewrite E, <- app_assoc. eexists. split; [reflexivity|].
    intros b. rewrite in_app_iff, Hadded. clear E Hadded IH. split.
    + intros [Hb|(l' & Hin & H)]; [|exists l'; split; [right; exact Hin|exact H]].
      exists l. split; [left; reflexivity|].
      destruct (skipped l); [destruct Hb|]. split; [reflexivity|].
      unfold split in *. destruct (split_on (Ascii.eqb ":") l) as [|name ws]; [destruct Hb|].
      destruct (blacklisted name) eqn:Ebl; [destruct Hb|].
      destruct Hb as [<-|[]]. split; [exact Ebl|reflexivity].
    + intros (l' & [<-|Hin] & Hsk & Hbl & Hidx); [|right; exists l'; tauto].
      left. rewrite Hsk. unfold split in *.
      destruct (split_on (Ascii.eqb ":") l) as [|name ws]; [discriminate|].
      injection Hidx as ->. rewrite Hbl. left. reflexivity.
Qed.

(** X1: [get_list_of_branches] never raises, and a name it returns is the
    text before the first colon of a line of the feed that is not empty,
    does not start with [#] or a space and holds [build]; the name holds
    no colon and is neither [vanilla] nor [linux-next]. *)
Theorem feed_names_sound (branches_conf : string) :
  exists names,
    get_list_of_branches branches_conf = Ok names
    /\ forall b, In b names ->
         b <> "vanilla" /\ b <> "linux-next"
         /\ has_char (Ascii.eqb ":") b = false
         /\ exists rest,
              In (b ++ String ":" rest) (split Diff.NL branches_conf)
              /\ contains "build" (b ++ String ":" rest) = true
              /\ startswith "#" (b ++ String ":" rest) = false
              /\ startswith " " (b ++ String ":" rest) = false.
Proof.
  unfold get_list_of_branches.
  destruct (branches_of_lines_spec (split Diff.NL branches_conf) []) as (added & E & H).
  exists added. split; [exact E|].
  intros b Hb. apply H in Hb as (l & Hin & Hsk & Hbl & Hidx).
  unfold skipped in Hsk. repeat (apply orb_false_elim in Hsk as [Hsk ?]).
  unfold blacklisted in Hbl. cbn [existsb BRANCH_BLACKLIST] in Hbl.
  repeat (apply orb_false_elim in Hbl as [? Hbl]).
  split; [intros ->; discriminate|]. split; [intros ->; discriminate|].
  destruct (index_split_0 (Ascii.eqb ":") l) as (w & Hw & Hclean & Hshape).
  unfold split in Hidx. rewrite Hw in Hidx. injection Hidx as ->.
  split; [exact Hclean|].
  destruct Hshape as (c & rest & Hc & ->).
  { rewrite <- contains_char. apply negb_false_iff. assumption. }
  apply Ascii.eqb_eq in Hc. subst c.
  exists rest. repeat split; try assumption.
  apply negb_false_iff. assumption.
Qed.

(** X2: a line [name:rest] of the feed that does not start with [#] or a
    space and holds [build] gives its name, provided the name holds no
    colon and is not blacklisted. *)
Theorem feed_names_complete (branches_conf b rest : string) :
  In (b ++ String ":" rest) (split Diff.NL branches_conf) ->
  has_char (Ascii.eqb ":") b = false ->
  b <> "vanilla" -> b <> "linux-next" ->
  startswith "#" (b ++ String ":" rest) = false ->
  startswith " " (b ++ String ":" rest) = false ->
  contains "build" (b ++ String ":" rest) = true ->
  exists names, get_list_of_branches branches_conf = Ok names /\ In b names.
Proof.
  intros Hin Hclean Hv Hn Hhash Hsp Hbuild. unfold get_list_of_branches.
  destruct (branches_of_lines_spec (split Diff.NL branches_conf) []) as (added & E & H).
  exists added. split; [exact E|]. apply H.
  exists (b ++ String ":" rest). split; [exact Hin|]. split; [|split].
  - unfold skipped. rewrite Hhash, Hsp, Hbuild, contains_char, has_char_app.
    cbn [has_char]. rewrite Ascii.eqb_refl, orb_true_r. destruct b; reflexivity.
  - unfold blacklisted. cbn [existsb BRANCH_BLACKLIST].
    destruct (String.eqb_spec b "vanilla"); [contradiction|].
    destruct (String.eqb_spec b "linux-next"); [contradiction|]. reflexivity.
  - unfold split. rewrite split_on_app; [reflexivity|exact Hclean|apply Ascii.eqb_refl].
Qed.

Lemma feed_names_complete_witness :
  exists names,
    get_list_of_branches
      ("# comment" ++ String Diff.NL ("SLE15-SP6:  build publish" ++ String Diff.NL
       ("vanilla: build" ++ String Diff.NL "")))
    = Ok names
    /\ In "SLE15-SP6" names.
Proof.
  apply (feed_names_complete _ "SLE15-SP6" "  build publish").
  - right. left. reflexivity.
  - reflexivity.
  - discriminate.
  - discriminate.
  - reflexivity.
  - reflexivity.
  - reflexivity.
Defined.

(** ** The version of a branch *)

Lemma prefix_app (p s : string) : prefix p s = true -> exists r, s = p ++ r.
Proof.
  revert s. induction p as [|a p IH]; intros s H.
  - exists s. reflexivity.
  - destruct s as [|c s]; [discriminate|]. cbn [prefix] in H.
    destruct (ascii_dec a c) as [->|]; [|discriminate].
    destruct (IH _ H) as [r ->]. exists r. reflexivity.
Qed.

(** The value of a key line: what follows the key up to the next [=]. *)
Lemma key_line_value (v : string) :
  index (split "=" ("SRCVERSION=" ++ v)) 1 = index (split "=" v) 0.
Proof.
  unfold split. change ("SRCVERSION=" ++ v) with ("SRCVERSION" ++ String "=" v).
  rewrite split_on_app; reflexivity.
Qed.

(** X3: [extract_srcversion] never raises: the line it indexes starts
    with the key, so it has a second piece. *)
Theorem extract_srcversion_total (content : string) :
  exists v, extract_srcversion content = Ok v.
Proof.
  unfold extract_srcversion.
  induction (split Diff.NL content) as [|l lines IH]; cbn [srcversion_of_lines].
  - exists "". reflexivity.
  - destruct (startswith "SRCVERSION=" l) eqn:E; [|exact IH].
    apply prefix_app in E as [v ->]. rewrite key_line_value.
    destruct (index_split_0 (Ascii.eqb "=") v) as (w & Hw & _). exists w. exact Hw.
Qed.

(** X4: the first key line decides, whatever follows it: the result is
    its value when the value holds no [=]. *)
Theorem extract_srcversion_first_key (content v : string) (pre post : list string) :
  split Diff.NL content = (pre ++ ("SRCVERSION=" ++ v)%string :: post)%list ->
  Forall (fun l => startswith "SRCVERSION=" l = false) pre ->
  has_char (Ascii.eqb "=") v = false ->
  extract_srcversion content = Ok v.
Proof.
  intros Hsplit Hpre Hv. unfold extract_srcversion. rewrite Hsplit. clear Hsplit.
  induction Hpre as [|l pre Hl _ IH]; cbn [app srcversion_of_lines].
  - replace (startswith "SRCVERSION=" ("SRCVERSION=" ++ v)) with true
      by (unfold startswith; cbn; rewrite prefix_empty; reflexivity).
    rewrite key_line_value. unfold split. rewrite split_on_clean by exact Hv. reflexivity.
  - rewrite Hl. exact IH.
Qed.

Lemma extract_srcversion_first_key_witness :
  extract_srcversion Ex.config_sh = Ok "5.3".
Proof.
  apply (extract_srcversion_first_key Ex.config_sh "5.3" ["# config"] ["VARIANT="; ""]).
  - reflexivity.
  - repeat constructor.
  - reflexivity.
Defined.

(** ** Keys of versions *)

Lemma int_raises_value_error (s : string) :
  (exists n, int s = Ok n) \/ int s = Raise ValueError.
Proof.
  unfold int.
  match goal with |- context [match ?o with Some _ => _ | None => _ end] => destruct o end;
    [|right; reflexivity].
  destruct (4300 <? _); [right; reflexivity|left; eauto].
Qed.

(** X5: [key_function] returns one to three integers or raises
    [ValueError]; it never raises anything else. *)
Theorem key_function_outcome (s : string) :
  (exists k, Tags.key_function s = Ok k /\ (1 <= List.length k <= 3)%nat)
  \/ Tags.key_function s = Raise ValueError.
Proof.
  unfold Tags.key_function.
  destruct (split_on_head Tags.is_dot_or_dash s) as (a0 & rest & -> & _).
  cbn [firstn index nth_error bind].
  destruct (int_raises_value_error a0) as [[k0 ->]| ->]; [|right; reflexivity].
  cbn [bind]. destruct rest as [|a1 rest]; cbn [firstn].
  { left. eexists. split; [reflexivity|]. cbn. lia. }
  destruct (int_raises_value_error a1) as [[k1 ->]| ->]; [|right; reflexivity].
  cbn [bind]. destruct rest as [|a2 rest]; cbn [firstn].
  { left. eexists. split; [reflexivity|]. cbn. lia. }
  destruct (startswith "rc" a2).
  - destruct (int_raises_value_error (drop 2 a2)) as [[k2 ->]| ->]; [|right; reflexivity].
    left. eexists. split; [reflexivity|]. cbn. lia.
  - destruct (int_raises_value_error a2) as [[k2 ->]| ->]; [|right; reflexivity].
    left. eexists. split; [reflexivity|]. cbn. lia.
Qed.

Lemma key_function_pieces (s s' : string) :
  firstn 3 (split_on Tags.is_dot_or_dash s) = firstn 3 (split_on Tags.is_dot_or_dash s') ->
  Tags.key_function s = Tags.key_function s'.
Proof. unfold Tags.key_function. intros ->. reflexivity. Qed.

(** X6: only the first three components count: what follows a third
    component, after a dot or a dash, does not change the key (and is not
    even read as a number). *)
Theorem key_function_ignores_tail (a b c rest : string) (s1 s2 sep : ascii) :
  has_char Tags.is_dot_or_dash a = false ->
  has_char Tags.is_dot_or_dash b = false ->
  has_char Tags.is_dot_or_dash c = false ->
  Tags.is_dot_or_dash s1 = true -> Tags.is_dot_or_dash s2 = true ->
  Tags.is_dot_or_dash sep = true ->
  Tags.key_function (a ++ String s1 (b ++ String s2 (c ++ String sep rest)))
  = Tags.key_function (a ++ String s1 (b ++ String s2 c)).
Proof.
  intros Ha Hb Hc H1 H2 Hsep. apply key_function_pieces.
  rewrite !(split_on_app _ a s1) by assumption.
  rewrite !(split_on_app _ b s2) by assumption.
  rewrite (split_on_app _ c sep) by assumption.
  rewrite (split_on_clean _ c) by assumption. reflexivity.
Qed.

Lemma key_function_ignores_tail_witness :
  Tags.key_function "5.14.21.150500" = Tags.key_function "5.14.21".
Proof.
  apply (key_function_ignores_tail "5" "14" "21" "150500" "." "." "."); reflexivity.
Defined.

(** ** The constraints of the schema *)

Import Inv.

Lemma next_id_above {R : Type} (key : R -> Z) (t : table R) :
  seq t < next_id key t /\ Forall (fun r => key r < next_id key t) (rows t).
Proof.
  unfold next_id. induction (rows t) as [|r rs [IHs IHr]]; cbn [map fold_right].
  - split; [lia|constructor].
  - split; [lia|]. constructor; [lia|].
    revert IHr. apply Forall_impl. intros a. lia.
Qed.

Lemma keys_ok_snoc {R : Type} (key : R -> Z) (t : table R) (r : R) :
  keys_ok key t -> key r = next_id key t ->
  keys_ok key {| rows := rows t ++ [r]; seq := next_id key t |}.
Proof.
  intros [Hnd Hle] Hr. destruct (next_id_above key t) as [Hseq Hrows].
  split; cbn [rows seq].
  - rewrite map_app. cbn [map]. apply NoDup_app.
    + exact Hnd.
    + repeat constructor. intros [].
    + intros i Hi [<-|[]]. apply in_map_iff in Hi as [r' [Hr' Hin]].
      rewrite Forall_forall in Hrows. specialize (Hrows _ Hin). lia.
  - apply Forall_app. split.
    + revert Hle. apply Forall_impl. intros a. lia.
    + repeat constructor. lia.
Qed.

Lemma keys_ok_bump {R : Type} (key : R -> Z) (t : table R) :
  keys_ok key t -> keys_ok key {| rows := rows t; seq := next_id key t |}.
Proof.
  intros [Hnd Hle]. destruct (next_id_above key t) as [Hseq _].
  split; cbn [rows seq]; [exact Hnd|].
  revert Hle. apply Forall_impl. intros a. lia.
Qed.

Lemma name_conflict_false (t : table named) (name : option string) :
  name_conflict t name = false ->
  name <> None /\ ~ In name (map n_name (rows t)).
Proof.
  destruct name as [s|]; cbn [name_conflict]; [|discriminate].
  intros H. split; [discriminate|]. intros Hin.
  rewrite (existsb_name _ _ Hin) in H. discriminate.
Qed.

Lemma names_ok_snoc (t : table named) (i : Z) (name : option string) (s : Z) :
  names_ok t -> name_conflict t name = false ->
  names_ok {| rows := rows t ++ [ {| n_id := i; n_name := name |} ]; seq := s |}.
Proof.
  intros [Hnd Hnn] Hc. apply name_conflict_false in Hc as [Hsome Hfresh].
  split; cbn [rows].
  - rewrite map_app. cbn [map n_name]. apply NoDup_app.
    + exact Hnd.
    + repeat constructor. intros [].
    + intros x Hx [<-|[]]. exact (Hfresh Hx).
  - apply Forall_app. split; [exact Hnn|]. repeat constructor. exact Hsome.
Qed.

Lemma refers_app {R : Type} (key : R -> Z) (t t' : table R) (new : list R) (ref : option Z) :
  rows t' = (rows t ++ new)%list -> refers key t ref -> refers key t' ref.
Proof.
  intros E. destruct ref as [i|]; cbn [refers]; [|trivial].
  intros [r [Hin Hr]]. exists r. rewrite E. split; [apply in_or_app; left; exact Hin|exact Hr].
Qed.

Lemma select_id_refers (t : table named) (name : option string) :
  refers n_id t (select_id t name).
Proof.
  unfold select_id. destruct (find _ (rows t)) as [r|] eqn:E; cbn [option_map refers]; [|trivial].
  apply find_some in E as [Hin _]. exists r. split; [exact Hin|reflexivity].
Qed.

Lemma select_branch_id_refers (t : table branch) (name : option string) :
  refers b_id t (select_branch_id t name).
Proof.
  unfold select_branch_id.
  destruct (find _ (rows t)) as [r|] eqn:E; cbn [option_map refers]; [|trivial].
  apply find_some in E as [Hin _]. exists r. split; [exact Hin|reflexivity].
Qed.

Lemma insert_named_shape (t t' : table named) (name : option string) :
  insert_named t name = Ok t' ->
  name_conflict t name = false
  /\ t' = {| rows := rows t ++ [ {| n_id := next_id n_id t; n_name := name |} ];
             seq := next_id n_id t |}.
Proof.
  unfold insert_named. destruct (name_conflict t name); [discriminate|].
  intros H. injection H as <-. split; reflexivity.
Qed.

Lemma wf_insert_tag (d : db) (name : option string) (t : table named) :
  wf d -> insert_named (tags d) name = Ok t -> wf (set_tags d t).
Proof.
  intros [] H. apply insert_named_shape in H as [Hc ->].
  constructor; cbn [set_tags tags branches commits files backports changes]; try assumption.
  - apply keys_ok_snoc; [assumption|reflexivity].
  - apply names_ok_snoc; assumption.
  - revert wf_branches_fk0. apply Forall_impl. intros b [? ?]. split; [assumption|].
    eapply refers_app; [|eassumption]. reflexivity.
  - revert wf_changes_fk0. apply Forall_impl. intros ch (? & ? & ? & ? & ?).
    repeat split; try assumption. eapply refers_app; [|eassumption]. reflexivity.
Qed.

Lemma wf_insert_commit (d : db) (name : option string) (t : table named) :
  wf d -> insert_named (commits d) name = Ok t -> wf (set_commits d t).
Proof.
  intros [] H. apply insert_named_shape in H as [Hc ->].
  constructor; cbn [set_commits tags branches commits files backports changes]; try assumption.
  - apply keys_ok_snoc; [assumption|reflexivity].
  - apply names_ok_snoc; assumption.
  - revert wf_backports_fk0. apply Forall_impl. intros bp (? & ? & ? & ?).
    repeat split; try assumption. eapply refers_app; [|eassumption]. reflexivity.
  - revert wf_changes_fk0. apply Forall_impl. intros ch (? & ? & ? & ? & ?).
    repeat split; try assumption. eapply refers_app; [|eassumption]. reflexivity.
Qed.

Lemma wf_insert_file (d : db) (name : option string) :
  wf d -> wf (set_files d (insert_or_ignore_named (files d) name)).
Proof.
  intros []. unfold insert_or_ignore_named.
  destruct (name_conflict (files d) name) eqn:Hc.
  - constructor; cbn [set_files tags branches commits files backports changes];
      try assumption.
    apply keys_ok_bump. assumption.
  - constructor; cbn [set_files tags branches commits files backports changes];
      try assumption.
    + apply keys_ok_snoc; [assumption|reflexivity].
    + apply names_ok_snoc; assumption.
    + revert wf_changes_fk0. apply Forall_impl. intros ch (? & ? & ? & ? & ?).
      repeat split; try assumption; (eapply refers_app; [|eassumption]); reflexivity.
Qed.

Lemma wf_insert_change (d d' : db) (p : change_params) :
  wf d -> insert_change d p = Ok d' -> wf d'.
Proof.
  intros [] H. unfold insert_change in H.
  destruct (negb (fits_int64 (p_score p))); [discriminate|].
  destruct (select_id (commits d) (Some (p_commit p))) as [ci|] eqn:Eci; [|discriminate].
  injection H as <-.
  constructor; cbn [set_changes tags branches commits files backports changes]; try assumption.
  - apply keys_ok_snoc; [assumption|reflexivity].
  - cbn [rows]. apply Forall_app. split; [assumption|].
    repeat constructor; cbn [ch_commit_id ch_from_id ch_to_id ch_tag_id].
    + discriminate.
    + rewrite <- Eci. apply select_id_refers.
    + apply select_id_refers.
    + apply select_id_refers.
    + apply select_id_refers.
Qed.

Lemma wf_insert_branch (d d' : db) (p : string * string) :
  wf d -> insert_branch d p = Ok d' -> wf d'.
Proof.
  intros [] H. unfold insert_branch in H.
  destruct (select_id (tags d) (Some (snd p))) as [ti|] eqn:Eti; [|discriminate].
  destruct (branch_conflict (branches d) (Some (fst p))) eqn:Ec; [discriminate|].
  injection H as <-.
  constructor; cbn [set_branches tags branches commits files backports changes]; try assumption.
  - apply keys_ok_snoc; [assumption|reflexivity].
  - destruct wf_branches_names0 as [Hnd Hnn]. cbn [rows]. split.
    + rewrite map_app. cbn [map b_name]. apply NoDup_app.
      * exact Hnd.
      * repeat constructor. intros [].
      * intros x Hx [<-|[]]. apply in_map_iff in Hx as [r [Hr Hin]].
        cbn [branch_conflict] in Ec.
        assert (existsb (fun r => sql_eq (b_name r) (Some (fst p))) (rows (branches d)) = true).
        { apply existsb_exists. exists r. split; [exact Hin|].
          rewrite Hr. cbn. apply String.eqb_refl. }
        congruence.
    + apply Forall_app. split; [exact Hnn|]. repeat constructor. discriminate.
  - cbn [rows]. apply Forall_app. split; [assumption|].
    repeat constructor; cbn [b_tag_id]; [discriminate|].
    rewrite <- Eti. apply select_id_refers.
  - revert wf_backports_fk0. apply Forall_impl. intros bp (? & ? & ? & ?).
    repeat split; try assumption. eapply refers_app; [|eassumption]. reflexivity.
Qed.

Lemma wf_insert_backport (d d' : db) (p : string * string) :
  wf d -> insert_backport d p = Ok d' -> wf d'.
Proof.
  intros [] H. unfold insert_backport in H.
  destruct (select_id (commits d) (Some (fst p))) as [ci|] eqn:Eci; [|discriminate].
  destruct (select_branch_id (branches d) (Some (snd p))) as [bi|] eqn:Ebi; [|discriminate].
  injection H as <-.
  constructor; cbn [set_backports tags branches commits files backports changes];
    try assumption.
  - apply keys_ok_snoc; [assumption|reflexivity].
  - cbn [rows]. apply Forall_app. split; [assumption|].
    repeat constructor; cbn [bp_commit_id bp_branch_id]; try discriminate.
    + rewrite <- Eci. apply select_id_refers.
    + rewrite <- Ebi. apply select_branch_id_refers.
Qed.

Lemma wf_create_db : wf create_db.
Proof.
  constructor; cbn; repeat split; constructor.
Qed.

Lemma wf_store_tags (d d' : db) (uniq_tags : list string) :
  wf d -> store_tags_into_db d uniq_tags = Ok d' -> wf d'.
Proof.
  unfold store_tags_into_db. intros Hwf H.
  apply bind_ok in H as [t [Ht H]]. injection H as <-.
  revert Ht. apply (executemany_ind insert_named (fun t => wf (set_tags d t))).
  - intros t0 p t1 H0 H1. exact (wf_insert_tag (set_tags d t0) p t1 H0 H1).
  - destruct d. exact Hwf.
Qed.

Lemma wf_store_commits (d d' : db) (many : list (option string)) :
  wf d -> store_commits_into_db d many = Ok d' -> wf d'.
Proof.
  unfold store_commits_into_db. intros Hwf H.
  apply bind_ok in H as [t [Ht H]]. injection H as <-.
  revert Ht. apply (executemany_ind insert_named (fun t => wf (set_commits d t))).
  - intros t0 p t1 H0 H1. exact (wf_insert_commit (set_commits d t0) p t1 H0 H1).
  - destruct d. exact Hwf.
Qed.

Lemma wf_store_files (d d' : db) (many : list (option string)) :
  wf d -> store_files_into_db d many = Ok d' -> wf d'.
Proof.
  unfold store_files_into_db. intros Hwf H.
  apply bind_ok in H as [t [Ht H]]. injection H as <-.
  revert Ht. apply (executemany_ind _ (fun t => wf (set_files d t))).
  - intros t0 p t1 H0 H1. injection H1 as <-. exact (wf_insert_file (set_files d t0) p H0).
  - destruct d. exact Hwf.
Qed.

Lemma wf_store_changes (d d' : db) (many : list change_params) :
  wf d -> store_changes_into_db d many = Ok d' -> wf d'.
Proof.
  unfold store_changes_into_db. intros Hwf.
  apply (executemany_ind insert_change wf); [|exact Hwf].
  intros t p t' H0 H1. exact (wf_insert_change _ _ _ H0 H1).
Qed.

Lemma wf_store_branches (d d' : db) (tags : list (string * string)) :
  wf d -> store_branches_into_db d tags = Ok d' -> wf d'.
Proof.
  unfold store_branches_into_db. intros Hwf.
  apply (executemany_ind insert_branch wf); [|exact Hwf].
  intros t p t' H0 H1. exact (wf_insert_branch _ _ _ H0 H1).
Qed.

Lemma wf_store_backports (d d' : db) (many : list (string * string)) :
  wf d -> store_backports_into_db d many = Ok d' -> wf d'.
Proof.
  unfold store_backports_into_db. intros Hwf.
  apply (executemany_ind insert_backport wf); [|exact Hwf].
  intros t p t' H0 H1. exact (wf_insert_backport _ _ _ H0 H1).
Qed.

(** X7: every bulk insert that returns keeps the constraints of the
    schema: keys stay distinct, names stay unique and not NULL, and every
    reference it writes is NULL or the key of a row, so the foreign keys
    never fail. *)
Theorem store_keeps_schema (d : db) :
  wf d ->
  (forall l d', store_tags_into_db d l = Ok d' -> wf d')
  /\ (forall l d', store_branches_into_db d l = Ok d' -> wf d')
  /\ (forall l d', store_commits_into_db d l = Ok d' -> wf d')
  /\ (forall l d', store_files_into_db d l = Ok d' -> wf d')
  /\ (forall l d', store_changes_into_db d l = Ok d' -> wf d')
  /\ (forall l d', store_backports_into_db d l = Ok d' -> wf d').
Proof.
  intros Hwf.
  split; [intros l d'; apply wf_store_tags, Hwf|].
  split; [intros l d'; apply wf_store_branches, Hwf|].
  split; [intros l d'; apply wf_store_commits, Hwf|].
  split; [intros l d'; apply wf_store_files, Hwf|].
  split; [intros l d'; apply wf_store_changes, Hwf|].
  intros l d'; apply wf_store_backports, Hwf.
Qed.

Lemma store_keeps_schema_witness :
  wf (Ex.get create_db (store_files_into_db create_db [Some "a.c"; None; Some "a.c"])).
Proof.
  exact (proj1 (proj2 (proj2 (proj2 (store_keeps_schema create_db wf_create_db))))
           [Some "a.c"; None; Some "a.c"] _ eq_refl).
Defined.

Lemma wf_between (repo : linux_repo) (begin end_ : string) (d d1 : db)
    (res : list (option string) * list change_params) :
  wf d -> between repo begin end_ d = Ok (d1, res) -> wf d1.
Proof.
  destruct res as [fs many]. intros Hwf H.
  apply between_spec in H as (out & _ & _ & Hst & _).
  exact (wf_store_commits _ _ _ Hwf Hst).
Qed.

Lemma wf_run_unit (lrepo : linux_repo) (d d' : db) (pair : string * string) :
  wf d -> Build.run_unit lrepo d pair = Ok d' -> wf d'.
Proof.
  unfold Build.run_unit, Build.collect. intros Hwf H.
  apply bind_ok in H as [[d1 res] [Hb H]]. cbn [fst snd] in H.
  apply bind_ok in H as [d2 [Hf Hc]].
  apply (wf_store_changes _ _ _ (wf_store_files _ _ _ (wf_between _ _ _ _ _ _ Hwf Hb) Hf) Hc).
Qed.

Lemma wf_fetch_root (lrepo : linux_repo) (tag : string) (d d' : db) :
  wf d -> Build.fetch_root_tree_files lrepo tag d = Ok d' -> wf d'.
Proof.
  unfold Build.fetch_root_tree_files. intros Hwf H.
  apply bind_ok in H as [paths [_ H]].
  apply bind_ok in H as [d1 [Hf H]].
  apply bind_ok in H as [d2 [Hc H]].
  apply (wf_store_changes _ _ _ (wf_store_commits _ _ _ (wf_store_files _ _ _ Hwf Hf) Hc) H).
Qed.

(** X8: a store that [main] returns satisfies every constraint of the
    schema. *)
Theorem main_keeps_schema (branches : list string) (krepo : ksource_repo)
    (lrepo : linux_repo) (d : db) :
  Build.main branches krepo lrepo = Ok d -> wf d.
Proof.
  unfold Build.main. intros H.
  apply bind_ok in H as [r [_ H]].
  apply bind_ok in H as [uniq [_ H]].
  apply bind_ok in H as [d1 [H1 H]].
  apply bind_ok in H as [d2 [H2 H]].
  apply bind_ok in H as [first [_ H]].
  apply bind_ok in H as [d3 [H3 H]].
  apply bind_ok in H as [pairs [_ H]].
  apply bind_ok in H as [d4 [H4 H]].
  assert (W3 : wf d3).
  { apply (wf_fetch_root _ _ _ _
             (wf_store_branches _ _ _ (wf_store_tags _ _ _ wf_create_db H1) H2) H3). }
  assert (W4 : wf d4).
  { revert H4. apply (executemany_ind _ wf); [|exact W3].
    intros t p t' H0 Hp. exact (wf_run_unit _ _ _ _ H0 Hp). }
  revert H. apply (executemany_ind _ wf); [|exact W4].
  intros t p t' H0 Hp. exact (wf_store_backports _ _ _ H0 Hp).
Qed.

Lemma main_keeps_schema_witness :
  exists d, Build.main ["SLE15"] Ex.krepo Ex.lrepo = Ok d /\ wf d.
Proof.
  eexists. split; [vm_compute; reflexivity|].
  apply (main_keeps_schema ["SLE15"] Ex.krepo Ex.lrepo). vm_compute. reflexivity.
Defined.

(** ** What the bulk inserts accept *)

Lemma sql_eq_false (a b : string) : sql_eq (Some a) (Some b) = false <-> a <> b.
Proof.
  cbn [sql_eq]. destruct (String.eqb_spec a b); split; congruence.
Qed.

Lemma name_conflict_snoc (t : table named) (i s : Z) (name x : option string) :
  name_conflict {| rows := rows t ++ [ {| n_id := i; n_name := name |} ]; seq := s |} x
  = name_conflict t x || match x with Some _ => sql_eq name x | None => true end.
Proof.
  destruct x as [h|]; cbn [name_conflict rows]; [|reflexivity].
  rewrite existsb_app. cbn [existsb n_name]. rewrite orb_false_r. reflexivity.
Qed.

Lemma name_conflict_stored (t : table named) (h : string) :
  name_conflict t (Some h) = false <-> ~ stored t h.
Proof.
  cbn [name_conflict]. split.
  - intros H [r [Hin Hr]].
    rewrite (existsb_name (rows t) h) in H; [discriminate|].
    apply in_map_iff. exists r. split; assumption.
  - intros H. destruct (existsb _ (rows t)) eqn:E; [|reflexivity].
    exfalso. apply H. apply existsb_exists in E as [r [Hin Hr]]. exists r. split; [exact Hin|].
    destruct (n_name r) as [s|]; cbn in Hr; [|discriminate].
    apply String.eqb_eq in Hr. congruence.
Qed.

(** A strict bulk insert returns exactly when the values are distinct
    and none of them breaks a constraint of the table as it is. *)
Lemma insert_named_many (many : list (option string)) :
  forall t,
    match executemany insert_named t many with
    | Ok t' =>
        NoDup many /\ (forall x, In x many -> name_conflict t x = false)
        /\ map n_name (rows t') = (map n_name (rows t) ++ many)%list
    | Raise e =>
        e = IntegrityError
        /\ ~ (NoDup many /\ forall x, In x many -> name_conflict t x = false)
    end.
Proof.
  induction many as [|p rest IH]; intros t; cbn [executemany].
  - split; [constructor|]. split; [intros x []|]. rewrite app_nil_r. reflexivity.
  - unfold insert_named at 1. destruct (name_conflict t p) eqn:Ep; cbn [bind].
    + split; [reflexivity|]. intros [_ H]. rewrite (H p (or_introl eq_refl)) in Ep. discriminate.
    + match goal with |- context [executemany insert_named ?t1 rest] =>
        specialize (IH t1); destruct (executemany insert_named t1 rest) as [t'|e]
      end.
      * destruct IH as (Hnd & Hfree & Hnames).
        assert (Hp : forall x, In x rest -> name_conflict t x = false /\ x <> p).
        { intros x Hx. specialize (Hfree x Hx). rewrite name_conflict_snoc in Hfree.
          apply orb_false_elim in Hfree as [Ht Hx']. split; [exact Ht|].
          intros ->. destruct p as [s|]; [|discriminate].
          cbn in Hx'. rewrite String.eqb_refl in Hx'. discriminate. }
        split; [constructor; [intros Hin; exact (proj2 (Hp p Hin) eq_refl)|exact Hnd]|].
        split; [intros x [<-|Hx]; [exact Ep|exact (proj1 (Hp x Hx))]|].
        rewrite Hnames. cbn [rows]. rewrite map_app, <- app_assoc. reflexivity.
      * destruct IH as [-> Hnot]. split; [reflexivity|].
        intros [Hnd Hfree]. apply Hnot. inversion Hnd as [|? ? Hnotin Hnd']; subst.
        split; [exact Hnd'|]. intros x Hx. rewrite name_conflict_snoc.
        rewrite (Hfree x (or_intror Hx)). cbn [orb].
        destruct x as [h|]; [|specialize (Hfree None (or_intror Hx)); discriminate].
        destruct p as [s|]; [|reflexivity].
        apply sql_eq_false. intros ->. exact (Hnotin Hx).
Qed.

(** After a strict bulk insert the names are the old ones followed by
    the new ones. *)
Lemma store_commits_names (d d' : db) (many : list (option string)) :
  store_commits_into_db d many = Ok d' ->
  get_commits d' = (get_commits d ++ many)%list.
Proof.
  unfold store_commits_into_db, get_commits. intros H.
  apply bind_ok in H as [t [Ht H]]. injection H as <-.
  pose proof (insert_named_many many (commits d)) as Hm. rewrite Ht in Hm.
  destruct Hm as (_ & _ & Hnames). exact Hnames.
Qed.

(** X9: [store_commits_into_db] returns exactly when the hashes are
    distinct, none is NULL and none is stored already; the names of the
    table are then the old ones followed by the new ones. In every other
    case it raises [IntegrityError]. *)
Theorem store_commits_outcome (d : db) (many : list (option string)) :
  match store_commits_into_db d many with
  | Ok d' =>
      get_commits d' = (get_commits d ++ many)%list
      /\ NoDup many /\ ~ In None many
      /\ (forall h, In (Some h) many -> ~ stored (commits d) h)
  | Raise e =>
      e = IntegrityError
      /\ ~ (NoDup many /\ ~ In None many
            /\ forall h, In (Some h) many -> ~ stored (commits d) h)
  end.
Proof.
  unfold store_commits_into_db, get_commits.
  pose proof (insert_named_many many (commits d)) as H.
  destruct (executemany insert_named (commits d) many) as [t'|e]; cbn [bind].
  - destruct H as (Hnd & Hfree & Hnames). cbn [set_commits commits].
    split; [exact Hnames|]. split; [exact Hnd|]. split.
    + intros Hin. specialize (Hfree None Hin). discriminate.
    + intros h Hin. apply name_conflict_stored, Hfree, Hin.
  - destruct H as [-> Hnot]. split; [reflexivity|].
    intros (Hnd & Hnone & Hfresh). apply Hnot. split; [exact Hnd|].
    intros [h|] Hx; [|contradiction]. apply name_conflict_stored, Hfresh, Hx.
Qed.

Lemma stored_snoc (t : table named) (i s : Z) (name : option string) (h : string) :
  stored {| rows := rows t ++ [ {| n_id := i; n_name := name |} ]; seq := s |} h
  <-> stored t h \/ name = Some h.
Proof.
  unfold stored. cbn [rows]. split.
  - intros [r [Hin Hr]]. apply in_app_or in Hin as [Hin|[<-|[]]].
    + left. exists r. split; assumption.
    + right. exact Hr.
  - intros [[r [Hin Hr]]| ->].
    + exists r. split; [apply in_or_app; left; exact Hin|exact Hr].
    + eexists. split; [apply in_or_app; right; left; reflexivity|reflexivity].
Qed.

(** The rows after an insert-or-ignore: the old rows in front, and a name
    is stored when it was stored or inserted. *)
Lemma insert_or_ignore_many (many : list (option string)) :
  forall t, exists t',
    executemany (fun t p => Ok (insert_or_ignore_named t p)) t many = Ok t'
    /\ (exists new, rows t' = (rows t ++ new)%list)
    /\ forall h, stored t' h <-> stored t h \/ In (Some h) many.
Proof.
  induction many as [|p rest IH]; intros t; cbn [executemany bind].
  - exists t. split; [reflexivity|]. split; [exists []; symmetry; apply app_nil_r|].
    intros h. cbn. tauto.
  - destruct (IH (insert_or_ignore_named t p)) as (t' & E & [new Hnew] & Hst).
    exists t'. split; [exact E|]. clear E IH.
    unfold insert_or_ignore_named in *. destruct (name_conflict t p) eqn:Ep.
    + split; [exists new; exact Hnew|].
      intros h. rewrite Hst. cbn [In]. split; [tauto|].
      intros [H|[->|H]]; [tauto| |tauto].
      left. destruct (name_conflict_stored t h) as [_ Hn].
      unfold stored in *. cbn [rows]. 
      destruct (existsb (fun r => sql_eq (n_name r) (Some h)) (rows t)) eqn:Ee;
        [|cbn in Ep; congruence].
      apply existsb_exists in Ee as [r [Hin Hr]]. exists r. split; [exact Hin|].
      destruct (n_name r) as [s|]; cbn in Hr; [|discriminate].
      apply String.eqb_eq in Hr. congruence.
    + split.
      * cbn [rows] in Hnew. eexists. rewrite Hnew, <- app_assoc. reflexivity.
      * intros h. rewrite Hst, stored_snoc. cbn [In]. tauto.
Qed.

(** The names stored after [store_files_into_db]. *)
Lemma store_files_stored (d d' : db) (many : list (option string)) :
  store_files_into_db d many = Ok d' ->
  forall h, stored (files d') h <-> stored (files d) h \/ In (Some h) many.
Proof.
  unfold store_files_into_db. intros H.
  destruct (insert_or_ignore_many many (files d)) as (t' & E & _ & Hst).
  rewrite E in H. injection H as <-. exact Hst.
Qed.

(** X10: after [store_files_into_db] every name of the batch can be
    looked up, the rows that were there are still there, and nothing else
    was stored. *)
Theorem store_files_lookup (d d' : db) (many : list (option string)) :
  store_files_into_db d many = Ok d' ->
  (forall h, In (Some h) many -> select_id (files d') (Some h) <> None)
  /\ (forall r, In r (rows (files d)) -> In r (rows (files d')))
  /\ (forall h, stored (files d') h <-> stored (files d) h \/ In (Some h) many).
Proof.
  unfold store_files_into_db. intros H.
  destruct (insert_or_ignore_many many (files d)) as (t' & E & [new Hnew] & Hst).
  rewrite E in H. injection H as <-. cbn [set_files files].
  split; [|split; [|exact Hst]].
  - intros h Hin. destruct (select_id_stored t' h) as (r & _ & _ & ->); [|discriminate].
    apply Hst. right. exact Hin.
  - intros r Hr. rewrite Hnew. apply in_or_app. left. exact Hr.
Qed.

Lemma store_files_lookup_witness :
  select_id (files (Ex.get create_db
               (store_files_into_db Ex.db_known [Some "a.c"; None; Some "a.c"]))) (Some "a.c")
  <> None.
Proof.
  exact (proj1 (store_files_lookup Ex.db_known _ [Some "a.c"; None; Some "a.c"] eq_refl)
           "a.c" (or_introl eq_refl)).
Defined.

Lemma ignore_known (many : list (option string)) :
  forall t,
    (forall x, In x many -> name_conflict t x = true) ->
    exists t', executemany (fun t p => Ok (insert_or_ignore_named t p)) t many = Ok t'
               /\ rows t' = rows t.
Proof.
  induction many as [|p rest IH]; intros t H; cbn [executemany bind].
  - exists t. split; reflexivity.
  - assert (Hp : name_conflict t p = true) by (apply H; left; reflexivity).
    destruct (IH (insert_or_ignore_named t p)) as (t' & E & Hrows).
    + intros x Hx. unfold insert_or_ignore_named. rewrite Hp.
      specialize (H x (or_intror Hx)). destruct x; exact H.
    + exists t'. split; [exact E|]. rewrite Hrows.
      unfold insert_or_ignore_named. rewrite Hp. reflexivity.
Qed.

(** X11: storing file names a second time changes no row: after
    [store_files_into_db] on a batch, storing any names of that batch
    again leaves the rows of [files] as they are. *)
Theorem store_files_idempotent (d d1 : db) (many again : list (option string)) :
  store_files_into_db d many = Ok d1 ->
  incl again many ->
  exists d2, store_files_into_db d1 again = Ok d2
             /\ rows (files d2) = rows (files d1).
Proof.
  intros H Hincl.
  pose proof (store_files_stored _ _ _ H) as Hst.
  destruct (ignore_known again (files d1)) as (t' & E & Hrows).
  - intros [h|] Hx; [|reflexivity].
    destruct (name_conflict (files d1) (Some h)) eqn:Ec; [reflexivity|].
    apply name_conflict_stored in Ec. exfalso. apply Ec, Hst. right. apply Hincl, Hx.
  - unfold store_files_into_db. rewrite E. cbn [bind].
    eexists. split; [reflexivity|]. exact Hrows.
Qed.

Lemma store_files_idempotent_witness :
  exists d2,
    store_files_into_db
      (Ex.get create_db (store_files_into_db create_db [Some "b.c"; None; Some "a.c"]))
      [Some "a.c"; None] = Ok d2
    /\ rows (files d2)
       = rows (files (Ex.get create_db
                        (store_files_into_db create_db [Some "b.c"; None; Some "a.c"]))).
Proof.
  apply (store_files_idempotent create_db _ [Some "b.c"; None; Some "a.c"]).
  - reflexivity.
  - intros x [<-|[<-|[]]]; cbn; tauto.
Defined.

(** ** More on the worker *)

(** X12: the loop of [between] ends at the first empty line and at the
    first line that starts with the abbreviated root boundary commit:
    that line and all that follows it are not read. *)
Theorem scan_stops_at_boundary (repo : linux_repo) (end_ stop : string)
    (pre post : list string) (hash : option string) (many : list change_params) :
  stop = "" \/ startswith "1da177e4c3f4" stop = true ->
  scan repo end_ (pre ++ stop :: post) hash many = scan repo end_ pre hash many.
Proof.
  intros Hstop. revert hash many.
  induction pre as [|l pre IH]; intros hash many; cbn [app scan].
  - change (take 12 BIG_BANG) with "1da177e4c3f4".
    destruct Hstop as [-> | Hs]; [reflexivity|]. rewrite Hs, orb_true_r. reflexivity.
  - destruct (_ || _); [reflexivity|].
    destruct (contains BLACKLIST l); [apply IH|].
    destruct (startswith ":" l).
    + destruct (body_line hash end_ l) as [rs|e]; cbn [bind]; [apply IH|reflexivity].
    + destruct (get_hash l repo) as [h|e]; cbn [bind]; [apply IH|reflexivity].
Qed.

Lemma scan_stops_at_boundary_witness :
  scan Ex.lrepo "v5.3"
    (["aaa1111 add foo"] ++ "1da177e4c3f4 Linux-2.6.12-rc2" :: ["zzz not a hash"]) None []
  = scan Ex.lrepo "v5.3" ["aaa1111 add foo"] None [].
Proof.
  apply (scan_stops_at_boundary Ex.lrepo "v5.3" "1da177e4c3f4 Linux-2.6.12-rc2").
  right. reflexivity.
Defined.

(** The rows that [store_changes_into_db] appends, field by field. *)
Lemma store_changes_rows (many : list change_params) (d d' : db) :
  store_changes_into_db d many = Ok d' ->
  exists new,
    rows (changes d') = (rows (changes d) ++ new)%list
    /\ Forall2 (fun p r =>
         ch_score r = p_score p
         /\ ch_commit_id r = select_id (commits d) (Some (p_commit p))
         /\ ch_commit_id r <> None
         /\ ch_from_id r = select_id (files d) (p_from p)
         /\ ch_to_id r = select_id (files d) (p_to p)
         /\ ch_tag_id r = select_id (tags d) (Some (p_tag p))) many new.
Proof.
  unfold store_changes_into_db. revert d.
  induction many as [|p many IH]; cbn [executemany]; intros d H.
  - injection H as <-. exists []. rewrite app_nil_r. split; constructor.
  - apply bind_ok in H as [d1 [H1 H2]].
    unfold insert_change in H1.
    destruct (negb (fits_int64 (p_score p))); [discriminate|].
    destruct (select_id (commits d) (Some (p_commit p))) as [ci|] eqn:Eci; [|discriminate].
    injection H1 as <-.
    apply IH in H2 as (new & Enew & Hall).
    cbn [set_changes changes commits files tags rows] in Enew, Hall.
    eexists (_ :: new). split.
    + rewrite Enew, <- app_assoc. reflexivity.
    + constructor; [|exact Hall]. cbn. rewrite Eci. repeat split. discriminate.
Qed.

(** X13: [store_changes_into_db] returns exactly when every tuple has a
    score that fits 64 bits and a stored commit, and it then appends a
    row per tuple. It raises [OverflowError] when the first tuple that
    stops it has a score that does not fit, and [IntegrityError] when that
    tuple has a commit that is not stored. Unknown file names and an
    unknown tag name never stop it: they are stored as NULL references. *)
Theorem store_changes_outcome (many : list change_params) (d : db) :
  match store_changes_into_db d many with
  | Ok d' =>
      (forall p, In p many ->
         fits_int64 (p_score p) = true /\ stored (commits d) (p_commit p))
      /\ List.length (rows (changes d')) = (List.length (rows (changes d)) + List.length many)%nat
  | Raise e =>
      exists p, In p many
        /\ ((e = OverflowError /\ fits_int64 (p_score p) = false)
            \/ (e = IntegrityError /\ fits_int64 (p_score p) = true
                /\ ~ stored (commits d) (p_commit p)))
  end.
Proof.
  unfold store_changes_into_db. revert d.
  induction many as [|p many IH]; cbn [executemany]; intros d.
  - split; [intros p []|]. cbn. lia.
  - unfold insert_change at 1. destruct (fits_int64 (p_score p)) eqn:Efit; cbn [negb].
    + destruct (select_id (commits d) (Some (p_commit p))) as [ci|] eqn:Eci; cbn [bind].
      * assert (Hp : stored (commits d) (p_commit p)).
        { unfold select_id in Eci. destruct (find _ _) as [r|] eqn:Ef; [|discriminate].
          apply find_some in Ef as [Hin Hr]. exists r. split; [exact Hin|].
          destruct (n_name r) as [s|]; cbn in Hr; [|discriminate].
          apply String.eqb_eq in Hr. congruence. }
        match goal with |- context [executemany insert_change ?d1 many] =>
          specialize (IH d1); destruct (executemany insert_change d1 many) as [d'|e]
        end; cbn [set_changes commits changes rows] in IH.
        -- destruct IH as [Hall Hlen]. split.
           ++ intros q [<-|Hq]; [split; assumption|exact (Hall q Hq)].
           ++ rewrite Hlen, length_app. cbn [List.length]. lia.
        -- destruct IH as (q & Hq & Hwhy). exists q. split; [right; exact Hq|exact Hwhy].
      * exists p. split; [left; reflexivity|]. right.
        split; [reflexivity|]. split; [exact Efit|].
        intros Hs. apply select_id_stored in Hs as (r & _ & _ & Hsel). congruence.
    + cbn [bind]. exists p. split; [left; reflexivity|]. left. split; [reflexivity|exact Efit].
Qed.

Lemma stored_of_name (t : table named) (h : string) :
  In (Some h) (map n_name (rows t)) -> stored t h.
Proof.
  intros H. apply in_map_iff in H as [r [Hr Hin]]. exists r. split; assumption.
Qed.

(** The worker has stored the commit of every tuple it returns, and the
    file set it returns holds every target path and every non-empty
    source path. *)
Lemma between_result (repo : linux_repo) (begin end_ : string) (d d1 : db)
    (fs : list (option string)) (many : list change_params) :
  between repo begin end_ d = Ok (d1, (fs, many)) ->
  forall p, In p many ->
    stored (commits d1) (p_commit p)
    /\ In (p_to p) fs
    /\ (truthy (p_from p) = true -> In (p_from p) fs).
Proof.
  intros H p Hp. apply between_spec in H as (out & _ & _ & Hst & ->).
  pose proof (store_commits_names _ _ _ Hst) as Hnames. split; [|split].
  - apply stored_of_name. unfold get_commits in Hnames. rewrite Hnames.
    apply in_or_app. right. apply in_dedup. apply (in_map (fun p => Some (p_commit p))), Hp.
  - apply in_dedup, in_group_keys, in_or_app. right. apply in_map, Hp.
  - intros Ht. apply in_dedup, in_group_keys, in_or_app. left.
    apply filter_In. split; [apply in_map, Hp|exact Ht].
Qed.

(** Tuples whose commits are stored break no constraint: the insert
    returns, or a score does not fit and it raises [OverflowError]. *)
Lemma store_changes_no_integrity_error (many : list change_params) :
  forall d,
    (forall p, In p many -> stored (commits d) (p_commit p)) ->
    (exists d', store_changes_into_db d many = Ok d')
    \/ (store_changes_into_db d many = Raise OverflowError
        /\ exists p, In p many /\ fits_int64 (p_score p) = false).
Proof.
  unfold store_changes_into_db.
  induction many as [|p many IH]; intros d H; cbn [executemany]; [left; eauto|].
  unfold insert_change at 1 3. destruct (fits_int64 (p_score p)) eqn:Efit; cbn [negb].
  - destruct (select_id_stored (commits d) (p_commit p)) as (r & _ & _ & Hsel).
    { apply H. left. reflexivity. }
    rewrite Hsel. cbn [bind].
    match goal with |- context [executemany insert_change ?d1 many] =>
      assert (Hrest : forall q, In q many -> stored (commits d1) (p_commit q))
        by (intros q Hq; cbn [set_changes commits]; apply H; right; exact Hq);
      destruct (IH d1 Hrest) as [Hok|[Hov (q & Hq & Hbad)]]
    end.
    + left. exact Hok.
    + right. split; [exact Hov|]. exists q. split; [right; exact Hq|exact Hbad].
  - right. split; [reflexivity|]. exists p. split; [left; reflexivity|exact Efit].
Qed.

(** X14: what a worker returns breaks no constraint of the store: after
    [between] has returned, the writes of its result, on the store the
    worker left or on any store that has the commits of the worker,
    either return or raise [OverflowError] because the score of one of
    the tuples does not fit a 64-bit integer; they never raise
    [IntegrityError].  (This is about the writes as a function of the
    store: a write lock that another process holds is not modelled.) *)
Theorem collect_after_between (repo : linux_repo) (begin end_ : string) (d d1 d' : db)
    (res : list (option string) * list change_params) :
  between repo begin end_ d = Ok (d1, res) ->
  (forall h, stored (commits d1) h -> stored (commits d') h) ->
  (exists d2, Build.collect d' res = Ok d2)
  \/ (Build.collect d' res = Raise OverflowError
      /\ exists p, In p (snd res) /\ fits_int64 (p_score p) = false).
Proof.
  destruct res as [fs many]. intros H Hsub. unfold Build.collect. cbn [fst snd].
  destruct (store_files_total d' fs) as [dA HA]. rewrite HA. cbn [bind].
  apply store_files_frame in HA as (_ & _ & Ec & _).
  apply store_changes_no_integrity_error. intros p Hp. rewrite Ec.
  apply Hsub. exact (proj1 (between_result _ _ _ _ _ _ _ H p Hp)).
Qed.

Lemma collect_after_between_witness :
  (exists d2,
    Build.collect
      (fst (Ex.get (create_db, ([], [])) (between Ex.lrepo "v5.3" "master" create_db)))
      (snd (Ex.get (create_db, ([], [])) (between Ex.lrepo "v5.3" "master" create_db)))
    = Ok d2)
  \/ (Build.collect
        (fst (Ex.get (create_db, ([], [])) (between Ex.lrepo "v5.3" "master" create_db)))
        (snd (Ex.get (create_db, ([], [])) (between Ex.lrepo "v5.3" "master" create_db)))
      = Raise OverflowError
      /\ exists p,
           In p (snd (snd (Ex.get (create_db, ([], []))
                                  (between Ex.lrepo "v5.3" "master" create_db))))
           /\ fits_int64 (p_score p) = false).
Proof.
  refine (collect_after_between Ex.lrepo "v5.3" "master" create_db _ _ _ _ (fun h s => s)).
  vm_compute. reflexivity.
Defined.

Lemma select_id_null (t : table named) : select_id t None = None.
Proof.
  unfold select_id. replace (find _ (rows t)) with (@None named); [reflexivity|].
  symmetry. induction (rows t) as [|r rs IH]; cbn [find]; [reflexivity|].
  destruct (n_name r); exact IH.
Qed.

Lemma Forall2_with {A B : Type} (P : A -> Prop) (Q R : A -> B -> Prop)
    (l : list A) (l' : list B) :
  (forall a b, P a -> Q a b -> R a b) ->
  Forall P l -> Forall2 Q l l' -> Forall2 R l l'.
Proof.
  intros H HP HQ. induction HQ as [|a b l l' Hab _ IH]; [constructor|].
  inversion HP; subst. constructor; [apply H; assumption|apply IH; assumption].
Qed.

(** X15: the change rows of a work unit point at rows: the commit
    reference at the row of the commit, the target reference at the row
    of the target path, the source reference at the row of the source
    path when it is not empty; a missing path is a NULL reference, and
    the score is the score of the tuple. *)
Theorem unit_references_resolved (repo : linux_repo) (begin end_ : string) (d d1 d2 : db)
    (fs : list (option string)) (many : list change_params) :
  between repo begin end_ d = Ok (d1, (fs, many)) ->
  Build.collect d1 (fs, many) = Ok d2 ->
  exists new,
    rows (changes d2) = (rows (changes d1) ++ new)%list
    /\ Forall2 (fun p r =>
         ch_score r = p_score p
         /\ (exists c, In c (rows (commits d2)) /\ n_name c = Some (p_commit p)
                       /\ ch_commit_id r = Some (n_id c))
         /\ match p_to p with
            | Some x => exists f, In f (rows (files d2)) /\ n_name f = Some x
                                  /\ ch_to_id r = Some (n_id f)
            | None => ch_to_id r = None
            end
         /\ match p_from p with
            | Some x => x <> "" ->
                        exists f, In f (rows (files d2)) /\ n_name f = Some x
                                  /\ ch_from_id r = Some (n_id f)
            | None => ch_from_id r = None
            end) many new.
Proof.
  intros Hb Hc. unfold Build.collect in Hc. cbn [fst snd] in Hc.
  apply bind_ok in Hc as [dA [HA Hch]].
  pose proof (store_files_stored _ _ _ HA) as Hst.
  apply store_files_frame in HA as (_ & _ & EcA & EchA & _).
  pose proof (store_changes_spec _ _ _ Hch) as (_ & _ & Ec2 & Ef2 & _).
  apply store_changes_rows in Hch as (new & Enew & Hall).
  exists new. split; [rewrite Enew, EchA; reflexivity|].
  assert (Hfacts : Forall (fun p => stored (commits d1) (p_commit p)
                                    /\ In (p_to p) fs
                                    /\ (truthy (p_from p) = true -> In (p_from p) fs)) many).
  { apply Forall_forall. intros p Hp. exact (between_result _ _ _ _ _ _ _ Hb p Hp). }
  revert Hfacts Hall. apply Forall2_with.
  intros p r (Hcs & Hto & Hfrom) (Hscore & Hci & _ & Hfi & Hti & _).
  split; [exact Hscore|]. rewrite Ec2, Ef2. split; [|split].
  - rewrite <- EcA in Hcs. apply select_id_stored in Hcs as (c & Hin & Hname & Hsel).
    exists c. repeat split; try assumption. congruence.
  - destruct (p_to p) as [x|].
    + destruct (select_id_stored (files dA) x) as (f & Hin & Hname & Hsel).
      { apply Hst. right. exact Hto. }
      exists f. repeat split; try assumption. congruence.
    + rewrite Hti. apply select_id_null.
  - destruct (p_from p) as [x|].
    + intros Hx. destruct (select_id_stored (files dA) x) as (f & Hin & Hname & Hsel).
      { apply Hst. right. apply Hfrom. cbn [truthy].
        destruct (String.eqb_spec x ""); [contradiction|reflexivity]. }
      exists f. repeat split; try assumption. congruence.
    + rewrite Hfi. apply select_id_null.
Qed.

Lemma unit_references_resolved_witness :
  exists new,
    rows (changes Ex.unit_store) = (rows (changes (fst Ex.worker_result)) ++ new)%list
    /\ List.length new = 2%nat.
Proof.
  destruct (unit_references_resolved Ex.lrepo "v5.3" "master" create_db
              (fst Ex.worker_result) Ex.unit_store
              (fst (snd Ex.worker_result)) (snd (snd Ex.worker_result)))
    as (new & Hrows & Hall).
  - vm_compute. reflexivity.
  - vm_compute. reflexivity.
  - exists new. split; [exact Hrows|].
    apply Forall2_length in Hall. rewrite <- Hall. reflexivity.
Defined.

(** ** More on the partition *)

Lemma zip_shift_snd (x : string) (l : list string) : map snd (zip (x :: l) l) = l.
Proof.
  revert x. induction l as [|y l IH]; intros x; [reflexivity|].
  change (map snd (zip (x :: y :: l) (y :: l))) with (y :: map snd (zip (y :: l) l)).
  rewrite IH. reflexivity.
Qed.

Lemma zip_shift_fst (x : string) (l : list string) :
  map fst (zip (x :: l) l) = removelast (x :: l).
Proof.
  revert x. induction l as [|y l IH]; intros x; [reflexivity|].
  change (map fst (zip (x :: y :: l) (y :: l))) with (x :: map fst (zip (y :: l) l)).
  rewrite IH. reflexivity.
Qed.

(** X16: the partitioner raises [IndexError] on the empty sequence and on
    no other. Otherwise the upper bounds of its descriptors are the
    elements of the sequence, each once and in order, and the lower bounds
    are the empty string followed by the elements but the last: every
    descriptor starts where the one before it ends. *)
Theorem partition_bounds (l : list string) :
  match prepare_tags_for_parallel_partition l with
  | Ok pairs =>
      l <> [] /\ map snd pairs = l /\ map fst pairs = "" :: removelast l
  | Raise e => e = IndexError /\ l = []
  end.
Proof.
  destruct l as [|x rest].
  - split; reflexivity.
  - rewrite prepare_cons. split; [discriminate|]. cbn [map fst snd].
    rewrite zip_shift_snd, zip_shift_fst. split; reflexivity.
Qed.

(** ** The snapshot *)

(** X17: the rows that [fetch_root_tree_files] adds to [changes], one per
    path of the root tree, are additions attributed to the root boundary
    commit: no score, no source, the row of the path as target and the
    row of the commit. *)
Theorem snapshot_rows (lrepo : linux_repo) (tag : string) (d d' : db) :
  Build.fetch_root_tree_files lrepo tag d = Ok d' ->
  exists paths new,
    root_tree lrepo = Ok paths
    /\ rows (changes d') = (rows (changes d) ++ new)%list
    /\ Forall2 (fun path r =>
         ch_score r = None /\ ch_from_id r = None
         /\ (exists f, In f (rows (files d')) /\ n_name f = Some path
                       /\ ch_to_id r = Some (n_id f))
         /\ (exists c, In c (rows (commits d')) /\ n_name c = Some BIG_BANG
                       /\ ch_commit_id r = Some (n_id c))) paths new.
Proof.
  unfold Build.fetch_root_tree_files. intros H.
  apply bind_ok in H as [paths [Hp H]].
  assert (Hroot' : root_tree lrepo = Ok paths).
  { destruct (root_tree lrepo) as [ps|e]; [exact Hp|discriminate Hp]. }
  clear Hp. rename Hroot' into Hp.
  apply bind_ok in H as [d1 [Hf H]].
  apply bind_ok in H as [d2 [Hc H]].
  exists paths.
  pose proof (store_files_stored _ _ _ Hf) as Hst.
  apply store_files_frame in Hf as (_ & _ & _ & Ech1 & _).
  pose proof (store_commits_names _ _ _ Hc) as Hnames.
  apply store_commits_frame in Hc as [(_ & _ & Ef2 & Ech2 & _) _].
  pose proof (store_changes_spec _ _ _ H) as (_ & _ & Ec3 & Ef3 & _).
  apply store_changes_rows in H as (new & Enew & Hall).
  exists new. split; [exact Hp|]. split; [rewrite Enew; congruence|].
  rewrite Ec3, Ef3, Ef2.
  assert (Hroot : stored (commits d2) BIG_BANG).
  { apply stored_of_name. unfold get_commits in Hnames. rewrite Hnames.
    apply in_or_app. right. left. reflexivity. }
  assert (Hfiles : Forall (fun path => stored (files d1) path) paths).
  { apply Forall_forall. intros path Hin. apply Hst. right. apply in_map, Hin. }
  clear -Hall Hroot Hfiles Ef2. rewrite Ef2 in Hall. clear Ef2.
  revert new Hall. induction Hfiles as [|path paths Hpath _ IH]; intros new Hall;
    inversion Hall as [|? r ? new' Hr Hall']; subst; constructor; [|apply IH, Hall'].
  cbn [p_score p_from p_to p_commit] in Hr.
  destruct Hr as (Hscore & Hci & _ & Hfi & Hti & _).
  split; [exact Hscore|]. split; [rewrite Hfi; apply select_id_null|]. split.
  - apply select_id_stored in Hpath as (f & Hin & Hname & Hsel).
    exists f. repeat split; try assumption. congruence.
  - apply select_id_stored in Hroot as (c & Hin & Hname & Hsel).
    exists c. repeat split; try assumption. congruence.
Qed.

Lemma snapshot_rows_witness :
  exists paths new,
    root_tree Ex.lrepo = Ok paths
    /\ rows (changes (Ex.get create_db
                        (Build.fetch_root_tree_files Ex.lrepo "v5.3" create_db)))
       = ([] ++ new)%list
    /\ List.length new = List.length paths.
Proof.
  destruct (snapshot_rows Ex.lrepo "v5.3" create_db
              (Ex.get create_db (Build.fetch_root_tree_files Ex.lrepo "v5.3" create_db))
              eq_refl) as (paths & new & Hp & Hrows & Hall).
  exists paths, new. split; [exact Hp|]. split; [exact Hrows|].
  symmetry. exact (Forall2_length Hall).
Defined.

(** ** More on the correlator *)

Lemma take_hex_spec (n : nat) (s : string) :
  (String.length (take_hex n s) <= n)%nat
  /\ Forall (fun c => is_hex c = true) (list_ascii_of_string (take_hex n s)).
Proof.
  revert s. induction n as [|n IH]; intros s; cbn [take_hex].
  - split; [cbn; lia|constructor].
  - destruct s as [|c s]; [split; [cbn; lia|constructor]|].
    destruct (is_hex c) eqn:Ec; [|split; [cbn; lia|constructor]].
    destruct (IH s) as [Hlen Hall]. cbn [String.length list_ascii_of_string].
    split; [lia|constructor; assumption].
Qed.

(** X18: a commit reference found in a line has nine to forty
    characters, all of them lower-case hexadecimal digits, and the line
    holds the label [Git-commit:]. *)
Theorem reference_shape (l ref : string) :
  first_match l = Some ref ->
  (9 <= String.length ref <= 40)%nat
  /\ Forall (fun c => is_hex c = true) (list_ascii_of_string ref)
  /\ contains "Git-commit:" l = true.
Proof.
  induction l as [|c l IH]; cbn [first_match].
  - cbn. discriminate.
  - destruct (match_here (String c l)) as [h|] eqn:Eh.
    + intros H. injection H as <-. unfold match_here in Eh.
      destruct (startswith "Git-commit:" (String c l)) eqn:Ep; [|discriminate].
      pose proof (take_hex_spec 40 (skip_blanks (drop 11 (String c l)))) as [Hlen Hall].
      set (h' := take_hex 40 (skip_blanks (drop 11 (String c l)))) in *.
      destruct (9 <=? String.length h')%nat eqn:El; [|discriminate].
      injection Eh as <-. apply Nat.leb_le in El.
      split; [split; assumption|]. split; [exact Hall|].
      cbn [contains]. unfold startswith in Ep. rewrite Ep. reflexivity.
    + intros H. destruct (IH H) as (Hlen & Hall & Hc).
      split; [exact Hlen|]. split; [exact Hall|].
      cbn [contains]. rewrite Hc. apply orb_true_r.
Qed.

Lemma reference_shape_witness :
  (9 <= String.length "bbb2222000" <= 40)%nat
  /\ Forall (fun c => is_hex c = true) (list_ascii_of_string "bbb2222000")
  /\ contains "Git-commit:" (Ex.tab "Git-commit:" "bbb2222000") = true.
Proof.
  apply (reference_shape (Ex.tab "Git-commit:" "bbb2222000") "bbb2222000"). reflexivity.
Defined.

Lemma select_branch_id_stored (t : table branch) (name : string) :
  branch_stored t name <-> select_branch_id t (Some name) <> None.
Proof.
  unfold select_branch_id, branch_stored.
  destruct (find _ (rows t)) as [r|] eqn:E; cbn [option_map]; split.
  - discriminate.
  - intros _. apply find_some in E as [Hin Hr]. exists r. split; [exact Hin|].
    destruct (b_name r) as [s|]; cbn in Hr; [|discriminate].
    apply String.eqb_eq in Hr. congruence.
  - intros [r [Hin Hr]]. apply (find_none _ _ E) in Hin. rewrite Hr in Hin.
    cbn in Hin. rewrite String.eqb_refl in Hin. discriminate.
  - intros H. contradiction.
Qed.

Lemma select_id_stored_iff (t : table named) (name : string) :
  stored t name <-> select_id t (Some name) <> None.
Proof.
  split.
  - intros H. apply select_id_stored in H as (r & _ & _ & ->). discriminate.
  - intros H. destruct (name_conflict t (Some name)) eqn:E.
    + cbn in E. apply existsb_exists in E as [r [Hin Hr]]. exists r. split; [exact Hin|].
      destruct (n_name r) as [s|]; cbn in Hr; [|discriminate].
      apply String.eqb_eq in Hr. congruence.
    + apply name_conflict_stored in E. rewrite (select_id_not_stored _ _ E) in H. contradiction.
Qed.

(** [store_backports_into_db] returns exactly when every pair names a
    stored commit and a stored branch, and then appends a row per pair;
    otherwise it raises [IntegrityError]. *)
Lemma insert_backports_outcome (many : list (string * string)) (d : db) :
  match store_backports_into_db d many with
  | Ok d' =>
      (forall p, In p many ->
         stored (commits d) (fst p) /\ branch_stored (branches d) (snd p))
      /\ List.length (rows (backports d'))
         = (List.length (rows (backports d)) + List.length many)%nat
  | Raise e =>
      e = IntegrityError
      /\ exists p, In p many
           /\ (~ stored (commits d) (fst p) \/ ~ branch_stored (branches d) (snd p))
  end.
Proof.
  unfold store_backports_into_db. revert d.
  induction many as [|p many IH]; cbn [executemany]; intros d.
  - split; [intros p []|]. cbn. lia.
  - unfold insert_backport at 1.
    destruct (select_id (commits d) (Some (fst p))) as [ci|] eqn:Eci.
    + destruct (select_branch_id (branches d) (Some (snd p))) as [bi|] eqn:Ebi; cbn [bind].
      * assert (Hp : stored (commits d) (fst p) /\ branch_stored (branches d) (snd p)).
        { split; [apply select_id_stored_iff|apply select_branch_id_stored]; congruence. }
        match goal with |- context [executemany insert_backport ?d1 many] =>
          specialize (IH d1); destruct (executemany insert_backport d1 many) as [d'|e]
        end; cbn [set_backports commits branches backports rows] in IH.
        -- destruct IH as [Hall Hlen]. split.
           ++ intros q [<-|Hq]; [exact Hp|exact (Hall q Hq)].
           ++ rewrite Hlen, length_app. cbn [List.length]. lia.
        -- destruct IH as [-> (q & Hq & Hnot)]. split; [reflexivity|].
           exists q. split; [right; exact Hq|exact Hnot].
      * split; [reflexivity|]. exists p. split; [left; reflexivity|]. right.
        intros H. apply select_branch_id_stored in H. congruence.
    + cbn [bind]. split; [reflexivity|]. exists p. split; [left; reflexivity|]. left.
      intros H. apply select_id_stored_iff in H. congruence.
Qed.

Lemma known_hash (commits : list (option string)) (h : string) :
  existsb (opt_eqb (Some h)) commits = true <-> In (Some h) commits.
Proof.
  rewrite existsb_exists. split.
  - intros [x [Hin Hx]]. apply opt_eqb_eq in Hx. subst x. exact Hin.
  - intros Hin. exists (Some h). split; [exact Hin|]. cbn. apply String.eqb_refl.
Qed.

(** X19: the backports that [main] stores for a branch name only commits
    of the store. Storing them returns when the branch has a row, and also
    when none of its hashes is a stored commit; it raises
    [IntegrityError] when the branch has no row and one of its hashes is
    a stored commit. *)
Theorem backports_of_branch (d : db) (b : string) (hashes : list string) :
  (forall p, In p (Build.backports_of (get_commits d) (b, hashes)) ->
     snd p = b /\ In (fst p) hashes /\ stored (commits d) (fst p))
  /\ match store_backports_into_db d (Build.backports_of (get_commits d) (b, hashes)) with
     | Ok d' =>
         branch_stored (branches d) b
         \/ (forall h, In h hashes -> ~ stored (commits d) h)
     | Raise e =>
         e = IntegrityError
         /\ ~ branch_stored (branches d) b
         /\ exists h, In h hashes /\ stored (commits d) h
     end.
Proof.
  assert (Hof : forall p, In p (Build.backports_of (get_commits d) (b, hashes)) ->
            snd p = b /\ In (fst p) hashes /\ stored (commits d) (fst p)).
  { unfold Build.backports_of. cbn [fst snd]. intros p Hp.
    apply in_map_iff in Hp as [h [<- Hh]]. apply filter_In in Hh as [Hin Hk].
    cbn [fst snd]. repeat split; [exact Hin|].
    apply stored_of_name, known_hash, Hk. }
  split; [exact Hof|].
  pose proof (insert_backports_outcome (Build.backports_of (get_commits d) (b, hashes)) d) as Ho.
  destruct (store_backports_into_db d _) as [d'|e].
  - destruct Ho as [Hall _].
    destruct (Build.backports_of (get_commits d) (b, hashes)) as [|p rest] eqn:E.
    + right. intros h Hh Hs.
      assert (Hin : In (h, b) (Build.backports_of (get_commits d) (b, hashes))).
      { unfold Build.backports_of. cbn [fst snd].
        apply (in_map (fun h => (h, b))). apply filter_In. split; [exact Hh|].
        apply known_hash. destruct Hs as [r [Hr Hn]]. unfold get_commits.
        rewrite <- Hn. apply in_map, Hr. }
      rewrite E in Hin. destruct Hin.
    + left. destruct (Hall p (or_introl eq_refl)) as [_ Hb].
      destruct (Hof p (or_introl eq_refl)) as [<- _]. exact Hb.
  - destruct Ho as [-> (p & Hp & Hnot)]. split; [reflexivity|].
    destruct (Hof p Hp) as (Hb & Hh & Hs).
    destruct Hnot as [Hnot|Hnot]; [contradiction|]. rewrite Hb in Hnot.
    split; [exact Hnot|]. exists (fst p). split; assumption.
Qed.

(** ** The build without branches *)

Lemma run_unit_frame (lrepo : linux_repo) (d d' : db) (pair : string * string) :
  Build.run_unit lrepo d pair = Ok d' ->
  tags d' = tags d /\ branches d' = branches d /\ backports d' = backports d.
Proof.
  unfold Build.run_unit, Build.collect. intros H.
  apply bind_ok in H as [[d1 [fs many]] [Hb H]]. cbn [fst snd] in H.
  apply bind_ok in H as [d2 [Hf Hc]].
  apply between_spec in Hb as (out & _ & _ & Hst & _).
  apply store_commits_frame in Hst as [(Et1 & Eb1 & _ & _ & Ebp1) _].
  apply store_files_frame in Hf as (Et2 & Eb2 & _ & _ & Ebp2).
  apply store_changes_spec in Hc as (Et3 & Eb3 & _ & _ & Ebp3 & _).
  repeat split; congruence.
Qed.

Lemma fetch_root_frame (lrepo : linux_repo) (tag : string) (d d' : db) :
  Build.fetch_root_tree_files lrepo tag d = Ok d' ->
  tags d' = tags d /\ branches d' = branches d /\ backports d' = backports d.
Proof.
  unfold Build.fetch_root_tree_files. intros H.
  apply bind_ok in H as [paths [_ H]].
  apply bind_ok in H as [d1 [Hf H]].
  apply bind_ok in H as [d2 [Hc H]].
  apply store_files_frame in Hf as (Et1 & Eb1 & _ & _ & Ebp1).
  apply store_commits_frame in Hc as [(Et2 & Eb2 & _ & _ & Ebp2) _].
  apply store_changes_spec in H as (Et3 & Eb3 & _ & _ & Ebp3 & _).
  repeat split; congruence.
Qed.

(** X20: with an empty branch list (a failed or empty feed) [main] takes
    the snapshot under the tag [master] and runs one work unit, the whole
    history up to [master]. The store it returns has no tag, no branch and
    no backport, and every change in it has a NULL tag. *)
Theorem main_without_branches (krepo : ksource_repo) (lrepo : linux_repo) (d : db) :
  Build.main [] krepo lrepo = Ok d ->
  (exists d3,
      Build.fetch_root_tree_files lrepo "master" create_db = Ok d3
      /\ Build.run_unit lrepo d3 ("", "master") = Ok d)
  /\ rows (tags d) = [] /\ rows (branches d) = [] /\ rows (backports d) = []
  /\ forall r, In r (rows (changes d)) -> ch_tag_id r = None.
Proof.
  intros H.
  assert (H' : (d3 <- Build.fetch_root_tree_files lrepo "master" create_db ;;
                d4 <- (t' <- Build.run_unit lrepo d3 ("", "master") ;; Ok t') ;;
                Ok d4) = Ok d) by exact H.
  clear H. apply bind_ok in H' as [d3 [H3 H]].
  apply bind_ok in H as [d4 [H4 H]]. injection H as <-.
  apply bind_ok in H4 as [d4' [H4 H]]. injection H as <-.
  split; [exists d3; split; assumption|].
  pose proof (fetch_root_frame _ _ _ _ H3) as (Et3 & Eb3 & Ebp3).
  pose proof (run_unit_frame _ _ _ _ H4) as (Et4 & Eb4 & Ebp4).
  rewrite Et4, Eb4, Ebp4, Et3, Eb3, Ebp3. repeat split.
  apply fetch_root_tree_changes in H3 as (_ & new3 & E3 & Hnew3).
  apply run_unit_changes in H4 as (_ & new4 & E4 & Hnew4).
  intros r Hr. rewrite E4, E3 in Hr. cbn [create_db changes rows empty_table app] in Hr.
  apply in_app_or in Hr as [Hr|Hr].
  - rewrite (Hnew3 r Hr). reflexivity.
  - rewrite (Hnew4 r Hr), Et3. reflexivity.
Qed.

Lemma main_without_branches_witness :
  exists d,
    Build.main [] Ex.krepo Ex.lrepo_flat = Ok d
    /\ rows (tags d) = []
    /\ forall r, In r (rows (changes d)) -> ch_tag_id r = None.
Proof.
  eexists. split; [vm_compute; reflexivity|].
  refine (let H := main_without_branches Ex.krepo Ex.lrepo_flat _ _ in
          conj (proj1 (proj2 H)) (proj2 (proj2 (proj2 (proj2 H))))).
  vm_compute. reflexivity.
Defined.

(** ** The tag sequence and the branches *)

Lemma in_uniq_rev (x : string) (l : list string) : In x l -> In x (Tags.uniq l).
Proof.
  induction l as [|y l IH]; [tauto|].
  destruct l as [|z l]; [tauto|].
  change (Tags.uniq (y :: z :: l))
    with (if String.eqb y z then Tags.uniq (z :: l) else y :: Tags.uniq (z :: l)).
  intros [->|H].
  - destruct (String.eqb_spec x z) as [->|_]; [apply IH; left; reflexivity|left; reflexivity].
  - destruct (String.eqb y z); [apply IH, H|right; apply IH, H].
Qed.

(** The tag sequence of [main] holds the versions of the dictionary, each
    with the marker, and nothing else. *)
Lemma uniq_tags_members (tags : list (string * string)) (uniq : list string) :
  uniq_tags tags = Ok uniq ->
  forall t, In t uniq <-> exists v, In v (map snd tags) /\ t = "v" ++ v.
Proof.
  unfold uniq_tags. intros H t.
  apply bind_ok in H as [pure [Hs H]]. injection H as <-.
  apply sorted_tags_spec in Hs as [Hperm _]. split.
  - intros Ht. apply in_uniq, in_map_iff in Ht as [v [<- Hv]].
    exists v. split; [|reflexivity]. apply (Permutation_in _ Hperm), Hv.
  - intros [v [Hv ->]]. apply in_uniq_rev. apply (in_map (fun p => "v" ++ p)).
    apply (Permutation_in _ (Permutation_sym Hperm)), Hv.
Qed.

Lemma dict_set_keys {V : Type} (d : list (string * V)) (k : string) (v : V) :
  NoDup (map fst d) -> NoDup (map fst (dict_set d k v)).
Proof.
  induction d as [|[k0 v0] d IH]; cbn [dict_set map fst]; intros H.
  - repeat constructor. intros [].
  - inversion H as [|? ? Hnotin Hnd]; subst.
    destruct (String.eqb_spec k0 k) as [->|Hne]; cbn [map fst]; [exact H|].
    constructor; [|apply IH, Hnd].
    intros Hin. apply Hnotin. clear -Hin Hne.
    induction d as [|[k1 v1] d IH]; cbn [dict_set map fst] in *.
    + destruct Hin as [->|[]]. contradiction.
    + destruct (String.eqb k1 k); cbn [map fst] in Hin; [exact Hin|].
      destruct Hin as [->|Hin]; [left; reflexivity|right; apply IH, Hin].
Qed.

(** The dictionary of the tag resolver has each branch once. *)
Lemma get_tags_keys (repo : ksource_repo) (branches : list string) :
  forall ret err ret' err',
    get_tags_loop repo branches ret err = Ok (ret', err') ->
    NoDup (map fst ret) -> NoDup (map fst ret').
Proof.
  induction branches as [|b branches IH]; cbn [get_tags_loop]; intros ret err ret' err' H Hnd.
  - injection H as <- _. exact Hnd.
  - destruct (srcversion_of_branch repo b) as [v|e].
    + apply (IH _ _ _ _ H), dict_set_keys, Hnd.
    + destruct e; try discriminate. apply (IH _ _ _ _ H Hnd).
Qed.

Lemma branch_conflict_stored (t : table branch) (name : string) :
  branch_conflict t (Some name) = false <-> ~ branch_stored t name.
Proof.
  cbn [branch_conflict]. split.
  - intros H [r [Hin Hr]].
    assert (existsb (fun r => sql_eq (b_name r) (Some name)) (rows t) = true); [|congruence].
    apply existsb_exists. exists r. split; [exact Hin|]. rewrite Hr. cbn. apply String.eqb_refl.
  - intros H. destruct (existsb _ (rows t)) eqn:E; [|reflexivity].
    exfalso. apply H. apply existsb_exists in E as [r [Hin Hr]]. exists r. split; [exact Hin|].
    destruct (b_name r) as [s|]; cbn in Hr; [|discriminate].
    apply String.eqb_eq in Hr. congruence.
Qed.

(** Branches with distinct new names whose tags are stored can all be
    inserted; each row points at a row of its tag. *)
Lemma insert_branches (l : list (string * string)) :
  forall d,
    NoDup (map fst l) ->
    (forall kv, In kv l -> stored (tags d) ("v" ++ snd kv)) ->
    (forall kv, In kv l -> ~ branch_stored (branches d) (fst kv)) ->
    exists d' new,
      store_branches_into_db d l = Ok d'
      /\ tags d' = tags d
      /\ rows (branches d') = (rows (branches d) ++ new)%list
      /\ Forall2 (fun kv b =>
           b_name b = Some (fst kv)
           /\ exists t, In t (rows (tags d)) /\ n_name t = Some ("v" ++ snd kv)
                        /\ b_tag_id b = Some (n_id t)) l new.
Proof.
  unfold store_branches_into_db.
  induction l as [|[k v] l IH]; intros d Hnd Htags Hfresh; cbn [map executemany].
  - exists d, []. rewrite app_nil_r. repeat split. constructor.
  - inversion Hnd as [|? ? Hnotin Hnd']; subst.
    destruct (select_id_stored (tags d) ("v" ++ v)) as (t & Hin & Hname & Hsel).
    { apply (Htags (k, v)). left. reflexivity. }
    unfold insert_branch at 1. cbn [fst snd]. rewrite Hsel.
    assert (Hc : branch_conflict (branches d) (Some k) = false).
    { apply branch_conflict_stored. apply (Hfresh (k, v)). left. reflexivity. }
    rewrite Hc. cbn [bind].
    match goal with |- context [executemany insert_branch ?d1 _] =>
      destruct (IH d1 Hnd') as (d' & new & E & Et & Er & Hall)
    end.
    + intros kv Hkv. apply Htags. right. exact Hkv.
    + intros kv Hkv [r [Hr Hn]]. cbn [set_branches branches rows] in Hr.
      apply in_app_or in Hr as [Hr|[<-|[]]].
      * apply (Hfresh kv (or_intror Hkv)). exists r. split; assumption.
      * cbn [b_name] in Hn. injection Hn as ->. apply Hnotin. apply in_map, Hkv.
    + exists d'. eexists (_ :: new). split; [exact E|]. split; [exact Et|].
      cbn [set_branches branches tags rows] in Er, Hall. split.
      * rewrite Er, <- app_assoc. reflexivity.
      * constructor; [|exact Hall]. cbn [b_name b_tag_id fst snd]. split; [reflexivity|].
        exists t. repeat split; assumption.
Qed.

(** X21: once the tag sequence is stored, storing the branches of the
    resolver's dictionary raises nothing, and each branch row points at
    the row of the tag made from its own version. *)
Theorem branches_pinned_to_tags (branches : list string) (krepo : ksource_repo)
    (tags : list (string * string)) (err uniq : list string) (d1 : db) :
  get_tags_from_ksource_tree branches krepo = Ok (tags, err) ->
  uniq_tags tags = Ok uniq ->
  store_tags_into_db create_db uniq = Ok d1 ->
  exists d2,
    store_branches_into_db d1 tags = Ok d2
    /\ Forall2 (fun kv b =>
         b_name b = Some (fst kv)
         /\ exists t, In t (rows (Sql.tags d2)) /\ n_name t = Some ("v" ++ snd kv)
                      /\ b_tag_id b = Some (n_id t)) tags (rows (Sql.branches d2)).
Proof.
  intros Hg Hu Hs.
  assert (Hnd : NoDup (map fst tags)).
  { apply (get_tags_keys _ _ _ _ _ _ Hg). constructor. }
  unfold store_tags_into_db in Hs. apply bind_ok in Hs as [t [Ht Hs]]. injection Hs as <-.
  pose proof (insert_named_many (map Some uniq) (Sql.tags create_db)) as Hm.
  rewrite Ht in Hm. destruct Hm as (_ & _ & Hnames).
  destruct (insert_branches tags (set_tags create_db t) Hnd) as (d2 & new & E & Et & Er & Hall).
  - intros kv Hkv. cbn [set_tags Sql.tags]. apply stored_of_name. rewrite Hnames.
    apply in_or_app. right. apply in_map. apply (uniq_tags_members _ _ Hu).
    exists (snd kv). split; [apply in_map, Hkv|reflexivity].
  - intros kv _ [r [[] _]].
  - exists d2. split; [exact E|]. rewrite Er, Et. exact Hall.
Qed.

Lemma branches_pinned_to_tags_witness :
  exists d2,
    store_branches_into_db
      (Ex.get create_db (store_tags_into_db create_db ["v5.3"])) [("SLE15", "5.3")] = Ok d2
    /\ List.length (rows (Sql.branches d2)) = 1%nat.
Proof.
  destruct (branches_pinned_to_tags ["SLE15"; "no-blob"] Ex.krepo [("SLE15", "5.3")]
              ["# no-blob"] ["v5.3"]
              (Ex.get create_db (store_tags_into_db create_db ["v5.3"]))
              eq_refl eq_refl eq_refl) as (d2 & E & Hall).
  exists d2. split; [exact E|]. rewrite <- (Forall2_length Hall). reflexivity.
Defined.

(** ** Distinct tags *)

Lemma list_lt_irrefl (a : list Z) : Tags.list_lt a a = false.
Proof.
  induction a as [|x a IH]; [reflexivity|].
  cbn [Tags.list_lt]. rewrite Z.ltb_irrefl, Z.eqb_refl, IH. reflexivity.
Qed.

Lemma list_lt_trans (a b c : list Z) :
  Tags.list_lt a b = true -> Tags.list_lt b c = true -> Tags.list_lt a c = true.
Proof.
  revert b c. induction a as [|x a IH]; intros [|y b] [|z c]; cbn [Tags.list_lt];
    try discriminate; try reflexivity.
  intros H1 H2.
  apply orb_true_iff in H1 as [H1|H1]; apply orb_true_iff in H2 as [H2|H2].
  - apply Z.ltb_lt in H1, H2. replace (x <? z) with true by (symmetry; apply Z.ltb_lt; lia).
    reflexivity.
  - apply Z.ltb_lt in H1. apply andb_true_iff in H2 as [H2 _]. apply Z.eqb_eq in H2. subst z.
    replace (x <? y) with true by (symmetry; apply Z.ltb_lt; lia). reflexivity.
  - apply Z.ltb_lt in H2. apply andb_true_iff in H1 as [H1 _]. apply Z.eqb_eq in H1. subst y.
    replace (x <? z) with true by (symmetry; apply Z.ltb_lt; lia). reflexivity.
  - apply andb_true_iff in H1 as [H1 H1']. apply andb_true_iff in H2 as [H2 H2'].
    apply Z.eqb_eq in H1, H2. subst y z. rewrite Z.eqb_refl, (IH _ _ H1' H2').
    apply orb_true_r.
Qed.

Lemma list_lt_total (a b : list Z) :
  Tags.list_lt b a = false -> Tags.list_lt a b = true \/ a = b.
Proof.
  revert b. induction a as [|x a IH]; intros [|y b]; cbn [Tags.list_lt];
    try discriminate; try (left; reflexivity); try (right; reflexivity).
  intros H. apply orb_false_elim in H as [H1 H2]. apply Z.ltb_ge in H1.
  destruct (Z.eqb_spec y x) as [->|Hne].
  - cbn [andb] in H2. destruct (IH _ H2) as [Hlt| ->].
    + left. rewrite Z.eqb_refl, Hlt. apply orb_true_r.
    + right. reflexivity.
  - left. replace (x <? y) with true by (symmetry; apply Z.ltb_lt; lia). reflexivity.
Qed.

Lemma precedes_trans (a b c : string) : precedes a b -> precedes b c -> precedes a c.
Proof.
  intros [->|(ka & kb & Ha & Hb & Hab)] [->|(kb' & kc & Hb' & Hc & Hbc)].
  - left. reflexivity.
  - right. eauto 6.
  - right. eauto 6.
  - right. rewrite Hb in Hb'. injection Hb' as <-.
    exists ka, kc. repeat split; try assumption. exact (list_lt_trans _ _ _ Hab Hbc).
Qed.

Lemma precedes_strict (a b : string) : precedes a b -> precedes b a -> a = b.
Proof.
  intros [->|(ka & kb & Ha & Hb & Hab)]; [reflexivity|].
  intros [->|(kb' & ka' & Hb' & Ha' & Hba)]; [reflexivity|].
  rewrite Ha in Ha'. rewrite Hb in Hb'. injection Ha' as <-. injection Hb' as <-.
  rewrite (list_lt_asym _ _ Hab) in Hba. discriminate.
Qed.

(** Pairs sorted by key, each with the key of its version, list their
    versions in order when equal keys mean equal versions. *)
Lemma sorted_precedes (ps : list (list Z * string)) :
  Sorted (Tags.in_order Tags.list_lt) ps ->
  Forall (fun p => Tags.key_function (snd p) = Ok (fst p)) ps ->
  (forall a b, In a (map snd ps) -> In b (map snd ps) ->
     Tags.key_function a = Tags.key_function b -> a = b) ->
  StronglySorted precedes (map snd ps).
Proof.
  induction 1 as [|p ps Hs IH Hhd]; intros Hk Hinj; cbn [map]; [constructor|].
  inversion Hk as [|? ? Hp Hk']; subst.
  assert (IH' : StronglySorted precedes (map snd ps)).
  { apply IH; [exact Hk'|]. intros a b Ha Hb. apply Hinj; right; assumption. }
  constructor; [exact IH'|].
  destruct Hhd as [|q ps' Hpq]; [constructor|].
  inversion Hk' as [|? ? Hq _]; subst.
  assert (Hfirst : precedes (snd p) (snd q)).
  { unfold Tags.in_order in Hpq. destruct (list_lt_total _ _ Hpq) as [Hlt|Heq].
    - right. exists (fst p), (fst q). repeat split; assumption.
    - left. apply Hinj; [left; reflexivity|right; left; reflexivity|]. congruence. }
  cbn [map] in *. constructor; [exact Hfirst|].
  inversion IH' as [|? ? _ Hall]; subst.
  revert Hall. apply Forall_impl. intros c. apply precedes_trans, Hfirst.
Qed.

Lemma uniq_nodup (l : list string) : StronglySorted precedes l -> NoDup (Tags.uniq l).
Proof.
  induction l as [|x l IH]; intros H; [constructor|].
  inversion H as [|? ? Hs Hall]; subst.
  destruct l as [|y l]; [repeat constructor; intros []|].
  change (Tags.uniq (x :: y :: l))
    with (if String.eqb x y then Tags.uniq (y :: l) else x :: Tags.uniq (y :: l)).
  destruct (String.eqb_spec x y) as [->|Hne]; [apply IH, Hs|].
  constructor; [|apply IH, Hs].
  intros Hin. apply in_uniq in Hin.
  inversion Hall as [|? ? Hxy Hall']; subst.
  inversion Hs as [|? ? _ Hy]; subst.
  destruct Hin as [->|Hin]; [contradiction|].
  rewrite Forall_forall in Hy. specialize (Hy x Hin).
  apply Hne. apply precedes_strict; [exact Hxy|exact Hy].
Qed.

Lemma uniq_marked (l : list string) :
  Tags.uniq (map (fun p => "v" ++ p) l) = map (fun p => "v" ++ p) (Tags.uniq l).
Proof.
  induction l as [|x l IH]; [reflexivity|].
  destruct l as [|y l]; [reflexivity|].
  change (Tags.uniq (map (fun p => "v" ++ p) (x :: y :: l)))
    with (if String.eqb x y then Tags.uniq (map (fun p => "v" ++ p) (y :: l))
          else ("v" ++ x) :: Tags.uniq (map (fun p => "v" ++ p) (y :: l))).
  change (Tags.uniq (x :: y :: l))
    with (if String.eqb x y then Tags.uniq (y :: l) else x :: Tags.uniq (y :: l)).
  rewrite IH. destruct (String.eqb x y); reflexivity.
Qed.

Lemma NoDup_map_injective {A B : Type} (f : A -> B) (l : list A) :
  (forall a b, f a = f b -> a = b) -> NoDup l -> NoDup (map f l).
Proof.
  intros Hf. induction 1 as [|x l Hx _ IH]; cbn [map]; constructor; [|exact IH].
  intros Hin. apply in_map_iff in Hin as [y [Hy Hin]]. apply Hf in Hy. subst y. exact (Hx Hin).
Qed.

(** X22: when two versions of the dictionary are never different strings
    with the same key, the tag sequence of [main] has every tag once, and
    storing it in the fresh store raises nothing. *)
Theorem tags_distinct (tags : list (string * string)) (uniq : list string) :
  uniq_tags tags = Ok uniq ->
  (forall a b, In a (map snd tags) -> In b (map snd tags) ->
     Tags.key_function a = Tags.key_function b -> a = b) ->
  NoDup uniq
  /\ exists d1, store_tags_into_db create_db uniq = Ok d1
                /\ map n_name (rows (Sql.tags d1)) = map Some uniq.
Proof.
  unfold uniq_tags, Tags.sorted. intros H Hinj.
  apply bind_ok in H as [pure [Hs H]]. injection H as <-.
  apply bind_ok in Hs as [ks [Hks Hs]]. injection Hs as <-.
  destruct (mapM_combine _ _ _ Hks) as [Esnd Hkeys].
  destruct (stable_sort_spec Tags.list_lt list_lt_asym (combine ks (map snd tags)))
    as [Hperm Hsorted].
  set (ps := Tags.stable_sort Tags.list_lt (combine ks (map snd tags))) in *.
  assert (Hnd : NoDup (Tags.uniq (map (fun p => "v" ++ p) (map snd ps)))).
  { rewrite uniq_marked. apply NoDup_map_injective; [intros a b E; injection E; auto|].
    apply uniq_nodup, sorted_precedes.
    - exact Hsorted.
    - revert Hkeys. apply Permutation_Forall. symmetry. exact Hperm.
    - assert (Hin : forall a, In a (map snd ps) -> In a (map snd tags)).
      { intros a Ha. rewrite <- Esnd. revert Ha. apply Permutation_in, Permutation_map, Hperm. }
      intros a b Ha Hb. apply Hinj; apply Hin; assumption. }
  split; [exact Hnd|].
  unfold store_tags_into_db.
  pose proof (insert_named_many
                (map Some (Tags.uniq (map (fun p => "v" ++ p) (map snd ps))))
                (Sql.tags create_db)) as Hm.
  destruct (executemany insert_named (Sql.tags create_db) _) as [t|e].
  - destruct Hm as (_ & _ & Hnames). cbn [bind]. eexists. split; [reflexivity|].
    exact Hnames.
  - exfalso. destruct Hm as [_ Hnot]. apply Hnot. split.
    + apply NoDup_map_injective; [intros a b E; injection E; auto|exact Hnd].
    + intros x Hx. apply in_map_iff in Hx as [s [<- _]]. reflexivity.
Qed.

Lemma tags_distinct_witness :
  NoDup ["v5.3"; "v5.14"]
  /\ exists d1, store_tags_into_db create_db ["v5.3"; "v5.14"] = Ok d1
                /\ map n_name (rows (Sql.tags d1)) = map Some ["v5.3"; "v5.14"].
Proof.
  apply (tags_distinct [("a", "5.14"); ("b", "5.3"); ("c", "5.14")]).
  - reflexivity.
  - cbn [map snd]. intros a b Ha Hb.
    destruct Ha as [<-|[<-|[<-|[]]]]; destruct Hb as [<-|[<-|[<-|[]]]];
      intros H; try reflexivity; vm_compute in H; discriminate H.
Defined.

(** X23: two different versions with the same key, met in the order
    first, second, first, stay in that order and the first one is in the
    tag sequence twice: storing the sequence raises [IntegrityError]. *)
Theorem tags_clash (b1 b2 b3 v1 v2 : string) (k : list Z) :
  Tags.key_function v1 = Ok k -> Tags.key_function v2 = Ok k -> v1 <> v2 ->
  uniq_tags [(b1, v1); (b2, v2); (b3, v1)] = Ok ["v" ++ v1; "v" ++ v2; "v" ++ v1]
  /\ forall d, store_tags_into_db d ["v" ++ v1; "v" ++ v2; "v" ++ v1]
               = Raise IntegrityError.
Proof.
  intros H1 H2 Hne. split.
  - unfold uniq_tags, Tags.sorted. cbn [map snd mapM]. rewrite H1, H2.
    cbn [bind combine Tags.stable_sort fold_left Tags.insert_by fst].
    rewrite list_lt_irrefl. cbn [Tags.insert_by fst]. rewrite list_lt_irrefl.
    cbn [map snd]. unfold Tags.uniq.
    replace (String.eqb ("v" ++ v1) ("v" ++ v2)) with false
      by (symmetry; apply String.eqb_neq; intros E; injection E; exact Hne).
    replace (String.eqb ("v" ++ v2) ("v" ++ v1)) with false
      by (symmetry; apply String.eqb_neq; intros E; injection E; auto).
    reflexivity.
  - intros d. unfold store_tags_into_db.
    pose proof (insert_named_many (map Some ["v" ++ v1; "v" ++ v2; "v" ++ v1]) (Sql.tags d))
      as Hm.
    destruct (executemany insert_named (Sql.tags d) _) as [t|e].
    + exfalso. destruct Hm as (Hnd & _). cbn [map] in Hnd.
      inversion Hnd as [|? ? Hnotin _]; subst. apply Hnotin. right. left. reflexivity.
    + destruct Hm as [-> _]. reflexivity.
Qed.

Lemma tags_clash_witness :
  uniq_tags [("a", "5.10-rc1"); ("b", "5.10.1"); ("c", "5.10-rc1")]
  = Ok ["v5.10-rc1"; "v5.10.1"; "v5.10-rc1"]
  /\ forall d, store_tags_into_db d ["v5.10-rc1"; "v5.10.1"; "v5.10-rc1"]
               = Raise IntegrityError.
Proof.
  apply (tags_clash "a" "b" "c" "5.10-rc1" "5.10.1" [5; 10; 1]).
  - reflexivity.
  - reflexivity.
  - discriminate.
Defined.

(** ** The rows of the views *)

Lemma in_join {R S : Type} (u : table R) (c : R -> bool) (k : R -> list S) (x : S) :
  In x (Views.join u c k) <-> exists r, In r (rows u) /\ c r = true /\ In x (k r).
Proof.
  unfold Views.join. rewrite in_flat_map. split.
  - intros [r [Hr Hx]]. apply filter_In in Hr as [Hin Hc]. exists r. tauto.
  - intros [r (Hin & Hc & Hx)]. exists r. split; [apply filter_In; tauto|exact Hx].
Qed.

Lemma sql_eqZ_true (a b : option Z) : sql_eqZ a b = true -> exists i, a = Some i /\ b = Some i.
Proof.
  destruct a as [x|], b as [y|]; cbn; try discriminate.
  intros H. apply Z.eqb_eq in H. subst y. exists x. split; reflexivity.
Qed.

Lemma is_null_true {A : Type} (v : option A) : Views.is_null v = true -> v = None.
Proof. destruct v; [discriminate|reflexivity]. Qed.

Lemma is_not_null {A : Type} (v : option A) : negb (Views.is_null v) = true -> v <> None.
Proof. destruct v; [discriminate|discriminate]. Qed.

Ltac join_in H :=
  repeat match type of H with
         | In _ (Views.join _ _ _) =>
             let r := fresh "r" in
             let Hr := fresh "Hin" in
             let Hc := fresh "Hc" in
             apply in_join in H as (r & Hr & Hc & H)
         end.

(** X24: every row of the [removed] view, in either arm, is a file, a
    commit and a change of that commit with that file as source and no
    target. *)
Theorem removed_rows_are_deletions (d : db) (b f c : option string) (src : Views.source) :
  In ((b, f, c), src) (Views.removed d) ->
  exists ch fr ci,
    In ch (rows (changes d)) /\ In fr (rows (files d)) /\ In ci (rows (commits d))
    /\ n_name fr = f /\ n_name ci = c
    /\ ch_from_id ch = Some (n_id fr) /\ ch_to_id ch = None
    /\ ch_commit_id ch = Some (n_id ci).
Proof.
  unfold Views.removed. intros H. apply in_app_or in H as [H|H];
    apply in_map_iff in H as [[[b' f'] c'] [E H]]; injection E as -> -> -> _.
  - unfold Views.base_removed in H. join_in H. destruct H as [E|[]]. injection E as _ <- <-.
    apply andb_true_iff in Hc0 as [Hnull Hfrom].
    apply is_null_true in Hnull. apply sql_eqZ_true in Hfrom as (i & Hi & Ei).
    apply sql_eqZ_true in Hc1 as (j & Ej & Hj).
    injection Ei as <-. injection Ej as <-.
    exists r0, r, r1. repeat split; try assumption; congruence.
  - unfold Views.backports_removed in H. join_in H. destruct H as [E|[]].
    injection E as _ <- <-.
    apply andb_true_iff in Hc3 as [Hfrom Hnull].
    apply is_null_true in Hnull. apply sql_eqZ_true in Hfrom as (i & Ei & Hi).
    apply sql_eqZ_true in Hc2 as (j & Ej & Hj).
    injection Ei as <-. injection Ej as <-.
    exists r1, r3, r2. repeat split; try assumption; congruence.
Qed.

Lemma removed_rows_are_deletions_witness :
  exists ch fr ci,
    In ch (rows (changes Ex.db_views)) /\ In fr (rows (files Ex.db_views))
    /\ In ci (rows (commits Ex.db_views))
    /\ n_name fr = Some "gone.c" /\ n_name ci = Some "c1"
    /\ ch_from_id ch = Some (n_id fr) /\ ch_to_id ch = None
    /\ ch_commit_id ch = Some (n_id ci).
Proof.
  apply (removed_rows_are_deletions Ex.db_views (Some "SLE15") _ _ Views.backport).
  right. left. reflexivity.
Defined.

(** X25: every row of the [renamed] view, in either arm, is two files, a
    commit and a change of that commit with the first file as source and
    the second as target. *)
Theorem renamed_rows_are_renames (d : db) (b f nf c : option string) (src : Views.source) :
  In ((b, f, nf, c), src) (Views.renamed d) ->
  exists ch fr to ci,
    In ch (rows (changes d)) /\ In fr (rows (files d)) /\ In to (rows (files d))
    /\ In ci (rows (commits d))
    /\ n_name fr = f /\ n_name to = nf /\ n_name ci = c
    /\ ch_from_id ch = Some (n_id fr) /\ ch_to_id ch = Some (n_id to)
    /\ ch_commit_id ch = Some (n_id ci).
Proof.
  unfold Views.renamed. intros H. apply in_app_or in H as [H|H];
    apply in_map_iff in H as [[[[b' f'] nf'] c'] [E H]]; injection E as -> -> -> -> _.
  - unfold Views.base_renamed in H. join_in H. destruct H as [E|[]].
    injection E as _ <- <- <-.
    apply andb_true_iff in Hc0 as [_ Hfrom].
    apply sql_eqZ_true in Hfrom as (i & Hi & Ei).
    apply sql_eqZ_true in Hc1 as (j & Hj & Ej).
    apply sql_eqZ_true in Hc2 as (k & Ek & Hk).
    injection Ei as <-. injection Ej as <-. injection Ek as <-.
    exists r0, r, r1, r2. repeat split; try assumption; congruence.
  - unfold Views.backports_renamed in H. join_in H. destruct H as [E|[]].
    injection E as _ <- <- <-.
    apply andb_true_iff in Hc3 as [Hfrom _].
    apply sql_eqZ_true in Hfrom as (i & Ei & Hi).
    apply sql_eqZ_true in Hc4 as (j & Hj & Ej).
    apply sql_eqZ_true in Hc2 as (k & Ek & Hk).
    injection Ei as <-. injection Ej as <-. injection Ek as <-.
    exists r1, r3, r4, r2. repeat split; try assumption; congruence.
Qed.

Lemma renamed_rows_are_renames_witness :
  exists ch fr to ci,
    In ch (rows (changes Ex.db_main)) /\ In fr (rows (files Ex.db_main))
    /\ In to (rows (files Ex.db_main)) /\ In ci (rows (commits Ex.db_main))
    /\ n_name fr = Some "foo.c" /\ n_name to = Some "bar.c"
    /\ n_name ci = Some "bbb2222000000000000000000000000000000000"
    /\ ch_from_id ch = Some (n_id fr) /\ ch_to_id ch = Some (n_id to)
    /\ ch_commit_id ch = Some (n_id ci).
Proof.
  apply (renamed_rows_are_renames Ex.db_main (Some "SLE15") (Some "foo.c") (Some "bar.c")
           (Some "bbb2222000000000000000000000000000000000") Views.backport).
  vm_compute. left. reflexivity.
Defined.

(** X26: every row of the [base] arm of the [added] view is a file, a
    commit, a branch and a change of that commit with no source and that
    file as target, recorded under the tag the branch is pinned to. A
    change with a NULL tag is in no such row. *)
Theorem base_added_rows_are_additions (d : db) (b f c : option string) :
  In ((b, f, c), Views.base) (Views.added d) ->
  exists ch fr ci br,
    In ch (rows (changes d)) /\ In fr (rows (files d)) /\ In ci (rows (commits d))
    /\ In br (rows (branches d))
    /\ b_name br = b /\ n_name fr = f /\ n_name ci = c
    /\ ch_from_id ch = None /\ ch_to_id ch = Some (n_id fr)
    /\ ch_commit_id ch = Some (n_id ci)
    /\ ch_tag_id ch = b_tag_id br /\ ch_tag_id ch <> None.
Proof.
  unfold Views.added. intros H. apply in_app_or in H as [H|H];
    apply in_map_iff in H as [[[b' f'] c'] [E H]]; [|discriminate E].
  injection E as -> -> ->.
  unfold Views.base_added in H. join_in H. destruct H as [E|[]]. injection E as <- <- <-.
  apply andb_true_iff in Hc0 as [Hto Hnull].
  apply is_null_true in Hnull. apply sql_eqZ_true in Hto as (i & Hi & Ei).
  apply sql_eqZ_true in Hc1 as (j & Ej & Hj).
  apply sql_eqZ_true in Hc2 as (k & Ek & Hk).
  apply sql_eqZ_true in Hc3 as (m & Hm & Em).
  injection Ei as <-. injection Ej as <-. injection Ek as <-. injection Em as <-.
  exists r0, r, r1, r3. repeat split; try assumption; congruence.
Qed.

Lemma base_added_rows_are_additions_witness :
  exists ch fr ci br,
    In ch (rows (changes Ex.db_main)) /\ In fr (rows (files Ex.db_main))
    /\ In ci (rows (commits Ex.db_main)) /\ In br (rows (branches Ex.db_main))
    /\ b_name br = Some "SLE15" /\ n_name fr = Some "foo.c"
    /\ n_name ci = Some "aaa1111000000000000000000000000000000000"
    /\ ch_from_id ch = None /\ ch_to_id ch = Some (n_id fr)
    /\ ch_commit_id ch = Some (n_id ci)
    /\ ch_tag_id ch = b_tag_id br /\ ch_tag_id ch <> None.
Proof.
  apply (base_added_rows_are_additions Ex.db_main (Some "SLE15") (Some "foo.c")
           (Some "aaa1111000000000000000000000000000000000")).
  vm_compute. right. right. left. reflexivity.
Defined.

(** ** The patches of the branches *)

Lemma dict_set_in_keys {V : Type} (d : list (string * V)) (k : string) (w : V) (x : string) :
  In x (map fst (dict_set d k w)) <-> In x (map fst d) \/ x = k.
Proof.
  induction d as [|[k0 v0] d IH]; cbn [dict_set map fst In].
  - split; [intros [H|[]]; right; symmetry; exact H|].
    intros [[]|H]. left. symmetry. exact H.
  - destruct (String.eqb_spec k0 k) as [E|Hne]; cbn [map fst In].
    + subst k0. split; [tauto|]. intros [H|H]; [exact H|left; symmetry; exact H].
    + rewrite IH. tauto.
Qed.

(** One turn of the loop of [get_commits_per_branch]. *)
Lemma commits_loop_step (krepo : ksource_repo) (lrepo : linux_repo) (b : string)
    (rest : list string) (ret : list (string * list string)) (err : list (string * exn)) :
  commits_loop krepo lrepo (b :: rest) ret err
  = commits_loop krepo lrepo rest
      (dict_set ret b (fst (branch_scan krepo lrepo b)))
      (err ++ match snd (branch_scan krepo lrepo b) with
              | Some e => [(b, e)]
              | None => []
              end)%list.
Proof.
  cbn [commits_loop]. unfold branch_scan.
  destruct (revparse_tree krepo ("origin/" ++ b)) as [t|e]; [|reflexivity].
  destruct (read_blobs (patches_of t)) as [fcs [e|]]; cbn [fst snd];
    [|rewrite app_nil_r]; reflexivity.
Qed.

(** What the scan of the branches gives. *)
Lemma commits_loop_spec (krepo : ksource_repo) (lrepo : linux_repo) (branches : list string) :
  forall ret err ret' err',
    commits_loop krepo lrepo branches ret err = (ret', err') ->
    (forall b, In b (map fst ret') <-> In b (map fst ret) \/ In b branches)
    /\ (forall b, In b branches ->
          dict_get ret' b = Some (fst (branch_scan krepo lrepo b)))
    /\ (forall b, ~ In b branches -> dict_get ret' b = dict_get ret b)
    /\ (forall x, In x err' <->
          In x err \/ exists b e, In b branches
                                  /\ snd (branch_scan krepo lrepo b) = Some e
                                  /\ x = (b, e)).
Proof.
  induction branches as [|b branches IH]; intros ret err ret' err' H.
  - cbn [commits_loop] in H. injection H as <- <-.
    split; [|split; [|split]].
    + intros b. cbn [In]. tauto.
    + intros b [].
    + reflexivity.
    + intros x. split; [tauto|]. intros [Hx|(b & e & [] & _)]. exact Hx.
  - rewrite commits_loop_step in H.
    destruct (IH _ _ _ _ H) as (Hkeys & Hget & Hother & Herr). clear IH H.
    split; [|split; [|split]].
    + intros x. rewrite Hkeys, dict_set_in_keys. cbn [In]. split.
      * intros [[Hx|Hx]|Hx]; [left; exact Hx|right; left; symmetry; exact Hx|].
        right. right. exact Hx.
      * intros [Hx|[Hx|Hx]]; [left; left; exact Hx|left; right; symmetry; exact Hx|].
        right. exact Hx.
    + intros x Hx. destruct (in_dec String.string_dec x branches) as [Hin|Hnin].
      * apply Hget, Hin.
      * destruct Hx as [Hx|Hx]; [|contradiction]. subst x.
        rewrite (Hother b Hnin). apply dict_get_set_same.
    + intros x Hx. rewrite Hother.
      * apply dict_get_set_other. intros E. apply Hx. left. exact E.
      * intros Hin. apply Hx. right. exact Hin.
    + intros x. rewrite Herr, in_app_iff. split.
      * intros [[Hx|Hx]|(b' & e & Hin & Hb' & Hx)].
        -- left. exact Hx.
        -- right. destruct (snd (branch_scan krepo lrepo b)) as [e|] eqn:Es;
             [|destruct Hx].
           destruct Hx as [Hx|[]]. exists b, e.
           split; [left; reflexivity|]. split; [exact Es|symmetry; exact Hx].
        -- right. exists b', e. split; [right; exact Hin|]. split; assumption.
      * intros [Hx|(b' & e & Hin & Hb' & Hx)]; [left; left; exact Hx|].
        destruct Hin as [E|Hin].
        -- subst b'. left. right. rewrite Hb'. left. symmetry. exact Hx.
        -- right. exists b', e. split; [exact Hin|]. split; assumption.
Qed.

(** Reading blobs that can all be read gives them all. *)
Lemma read_blobs_all (fcs : list string) :
  read_blobs (map (@Ok string) fcs) = (fcs, None).
Proof.
  induction fcs as [|fc fcs IH]; cbn [map read_blobs]; [reflexivity|].
  rewrite IH. reflexivity.
Qed.

(** Reading stops at the first blob that cannot be read. *)
Lemma read_blobs_stop (fcs : list string) (e : exn) (rest : list (result string)) :
  read_blobs (map (@Ok string) fcs ++ Raise e :: rest) = (fcs, Some e).
Proof.
  induction fcs as [|fc fcs IH]; cbn [map app read_blobs]; [reflexivity|].
  rewrite IH. reflexivity.
Qed.

(** X27: [get_commits_per_branch] never raises and gives every branch of
    its list, and no other, an entry.  A branch whose tree cannot be
    read has the empty entry and is reported on the error stream with
    the exception.  A branch whose patch blobs can all be read has the
    resolved references of its patches, in order, and is not reported.
    A branch with a patch blob that cannot be read keeps the references
    of the patches before that blob and is reported with the exception
    of the read.  Nothing but branches of the list is reported. *)
Theorem commits_per_branch_entries (branches : list string) (krepo : ksource_repo)
    (lrepo : linux_repo) :
  let (ret, err) := get_commits_per_branch branches krepo lrepo in
  (forall b, In b (map fst ret) <-> In b branches)
  /\ (forall b, In b branches ->
        (forall e, revparse_tree krepo ("origin/" ++ b) = Raise e ->
           dict_get ret b = Some [] /\ In (b, e) err)
        /\ (forall t fcs,
              revparse_tree krepo ("origin/" ++ b) = Ok t ->
              patches_of t = map (@Ok string) fcs ->
              dict_get ret b = Some (hashes_of_patches lrepo fcs)
              /\ (forall e, ~ In (b, e) err))
        /\ (forall t fcs e rest,
              revparse_tree krepo ("origin/" ++ b) = Ok t ->
              patches_of t = (map (@Ok string) fcs ++ Raise e :: rest)%list ->
              dict_get ret b = Some (hashes_of_patches lrepo fcs)
              /\ In (b, e) err))
  /\ (forall b e, In (b, e) err -> In b branches).
Proof.
  unfold get_commits_per_branch.
  destruct (commits_loop krepo lrepo branches [] []) as [ret err] eqn:E.
  destruct (commits_loop_spec _ _ _ _ _ _ _ E) as (Hkeys & Hget & _ & Herr).
  split; [|split].
  - intros b. rewrite Hkeys. cbn. tauto.
  - intros b Hb. rewrite (Hget b Hb). split; [|split].
    + intros e He. unfold branch_scan. rewrite He. split; [reflexivity|].
      apply Herr. right. exists b, e. split; [exact Hb|].
      unfold branch_scan. rewrite He. split; reflexivity.
    + intros t fcs Ht Hp.
      assert (Hs : branch_scan krepo lrepo b = (hashes_of_patches lrepo fcs, None)).
      { unfold branch_scan. rewrite Ht, Hp, read_blobs_all. reflexivity. }
      rewrite Hs. split; [reflexivity|].
      intros e He. apply Herr in He as [[]|(b' & e' & _ & Hs' & Heq)].
      injection Heq as <- <-. rewrite Hs in Hs'. discriminate.
    + intros t fcs e rest Ht Hp.
      assert (Hs : branch_scan krepo lrepo b = (hashes_of_patches lrepo fcs, Some e)).
      { unfold branch_scan. rewrite Ht, Hp, read_blobs_stop. reflexivity. }
      rewrite Hs. split; [reflexivity|].
      apply Herr. right. exists b, e. rewrite Hs. auto.
  - intros b e He. apply Herr in He as [[]|(b' & e' & Hin & _ & Heq)].
    injection Heq as <- <-. exact Hin.
Qed.

Lemma commits_per_branch_entries_witness :
  dict_get (fst (get_commits_per_branch ["SLE15"; "gone"] Ex.krepo_damaged Ex.lrepo)) "SLE15"
  = Some ["bbb2222000000000000000000000000000000000"]
  /\ In ("SLE15", KeyError)
        (snd (get_commits_per_branch ["SLE15"; "gone"] Ex.krepo_damaged Ex.lrepo))
  /\ dict_get (fst (get_commits_per_branch ["SLE15"; "gone"] Ex.krepo_damaged Ex.lrepo)) "gone"
     = Some []
  /\ In ("gone", KeyError)
        (snd (get_commits_per_branch ["SLE15"; "gone"] Ex.krepo_damaged Ex.lrepo)).
Proof.
  pose proof (commits_per_branch_entries ["SLE15"; "gone"] Ex.krepo_damaged Ex.lrepo) as H.
  destruct (get_commits_per_branch ["SLE15"; "gone"] Ex.krepo_damaged Ex.lrepo) as [ret err].
  destruct H as (_ & H & _). cbn [fst snd].
  destruct (proj2 (proj2 (H "SLE15" (or_introl eq_refl))) _ [Ex.fix_patch] KeyError
              [Ok (Ex.nl "Git-commit: aaa1111000" "")] eq_refl eq_refl) as [A B].
  destruct (proj1 (H "gone" (or_intror (or_introl eq_refl))) KeyError eq_refl) as [C D].
  split; [exact A|]. split; [exact B|]. split; [exact C|exact D].
Defined.

(** ** The order of the tag sequence *)

Lemma mapM_cons {A B : Type} (f : A -> result B) (x : A) (l : list A) (ks : list B) :
  mapM f (x :: l) = Ok ks ->
  exists k ks', f x = Ok k /\ mapM f l = Ok ks' /\ ks = k :: ks'.
Proof.
  cbn [mapM]. intros H. apply bind_ok in H as [k [Hk H]].
  apply bind_ok in H as [ks' [Hks H]]. injection H as <-. eauto.
Qed.

(** Collapsing runs of equal versions keeps the keys in order and keeps
    the first key. *)
Lemma uniq_keys (l : list string) :
  forall ks0,
    mapM Tags.key_function l = Ok ks0 ->
    Sorted (fun a b => Tags.list_lt b a = false) ks0 ->
    exists ks,
      mapM Tags.key_function (Tags.uniq l) = Ok ks
      /\ Sorted (fun a b => Tags.list_lt b a = false) ks
      /\ hd_error ks = hd_error ks0.
Proof.
  induction l as [|x l IH]; intros ks0 Hm Hs.
  - exists ks0. repeat split; assumption.
  - destruct l as [|y l].
    + exists ks0. repeat split; assumption.
    + change (Tags.uniq (x :: y :: l))
        with (if String.eqb x y then Tags.uniq (y :: l) else x :: Tags.uniq (y :: l)).
      apply mapM_cons in Hm as (kx & ks1 & Hx & Hm1 & ->).
      inversion Hs as [|? ? Hs1 Hhd]; subst.
      destruct (IH _ Hm1 Hs1) as (ks & Hks & Hsorted & Hhead).
      pose proof (mapM_cons _ _ _ _ Hm1) as (ky & ks2 & Hy & _ & ->).
      destruct (String.eqb_spec x y) as [->|Hne].
      * exists ks. split; [exact Hks|]. split; [exact Hsorted|].
        rewrite Hhead. cbn [hd_error]. congruence.
      * exists (kx :: ks). split; [|split; [|reflexivity]].
        -- cbn [mapM]. rewrite Hx. cbn [bind]. rewrite Hks. reflexivity.
        -- constructor; [exact Hsorted|].
           destruct ks as [|k ks]; [constructor|]. cbn [hd_error] in Hhead.
           injection Hhead as ->. constructor. inversion Hhd; subst. assumption.
Qed.

(** X28: along the tag sequence of [main] the keys of the versions (the
    tags without their marker) never go down. *)
Theorem tag_sequence_ordered (tags : list (string * string)) (uniq : list string) :
  uniq_tags tags = Ok uniq ->
  exists ks,
    mapM Tags.key_function (map (drop 1) uniq) = Ok ks
    /\ Sorted (fun a b => Tags.list_lt b a = false) ks.
Proof.
  unfold uniq_tags. intros H.
  apply bind_ok in H as [pure [Hs H]]. injection H as <-.
  apply sorted_tags_spec in Hs as (_ & ks0 & Hks0 & Hsorted).
  destruct (uniq_keys _ _ Hks0 Hsorted) as (ks & Hks & Hs' & _).
  exists ks. split; [|exact Hs'].
  rewrite uniq_marked, map_map. cbn [drop append]. rewrite map_id. exact Hks.
Qed.

Lemma tag_sequence_ordered_witness :
  exists ks,
    mapM Tags.key_function (map (drop 1) ["v5.3"; "v5.14"]) = Ok ks
    /\ Sorted (fun a b => Tags.list_lt b a = false) ks.
Proof.
  apply (tag_sequence_ordered [("a", "5.14"); ("b", "5.3"); ("c", "5.14")]). reflexivity.
Defined.

(** ** A branch without a version *)

(** The scan of the lines of a blob raises nothing: a key line has a
    second piece. *)
Lemma srcversion_of_lines_returns (lines : list string) :
  exists v, srcversion_of_lines lines = Ok v.
Proof.
  induction lines as [|l lines IH]; cbn [srcversion_of_lines].
  - exists "". reflexivity.
  - destruct (startswith "SRCVERSION=" l) eqn:E; [|exact IH].
    apply prefix_app in E as [v ->]. rewrite key_line_value.
    destruct (index_split_0 (Ascii.eqb "=") v) as (w & Hw & _). exists w. exact Hw.
Qed.

(** What the body of the [try] raises comes from one of the two reads
    of the repository. *)
Lemma srcversion_of_branch_raises (repo : ksource_repo) (b : string) (e : exn) :
  srcversion_of_branch repo b = Raise e ->
  revparse_tree repo ("origin/" ++ b) = Raise e
  \/ exists t, revparse_tree repo ("origin/" ++ b) = Ok t
               /\ tree_get t "rpm/config.sh" = Raise e.
Proof.
  unfold srcversion_of_branch, extract_srcversion.
  destruct (revparse_tree repo ("origin/" ++ b)) as [t|e0]; cbn [bind].
  - destruct (tree_get t "rpm/config.sh") as [c|e1] eqn:Eg; cbn [bind].
    + destruct (srcversion_of_lines_returns (split Diff.NL c)) as [v ->]. discriminate.
    + intros H. right. exists t. split; [reflexivity|]. rewrite Eg. exact H.
  - intros H. left. injection H as <-. reflexivity.
Qed.

(** The loop returns when the bodies raise nothing but [KeyError]. *)
Lemma get_tags_loop_returns (repo : ksource_repo) (branches : list string) :
  (forall b e, In b branches -> srcversion_of_branch repo b = Raise e -> e = KeyError) ->
  forall ret err, exists ret' err', get_tags_loop repo branches ret err = Ok (ret', err').
Proof.
  induction branches as [|b branches IH]; intros H ret err; cbn [get_tags_loop].
  - eauto.
  - assert (H' : forall b' e, In b' branches ->
                   srcversion_of_branch repo b' = Raise e -> e = KeyError).
    { intros b' e Hin. apply H. right. exact Hin. }
    destruct (srcversion_of_branch repo b) as [v|e] eqn:Eb.
    + apply (IH H').
    + rewrite (H b e (or_introl eq_refl) Eb). apply (IH H').
Qed.

(** [key_function] raises nothing but [ValueError]. *)
Lemma key_function_raises (s : string) (e : exn) :
  Tags.key_function s = Raise e -> e = ValueError.
Proof.
  unfold Tags.key_function.
  destruct (split_on_head Tags.is_dot_or_dash s) as (a0 & rest & -> & _).
  cbn [firstn index nth_error bind].
  destruct (int_raises_value_error a0) as [[k0 ->]| ->]; cbn [bind];
    [|intros H; injection H as <-; reflexivity].
  destruct rest as [|a1 rest]; cbn [firstn]; [discriminate|].
  destruct (int_raises_value_error a1) as [[k1 ->]| ->]; cbn [bind];
    [|intros H; injection H as <-; reflexivity].
  destruct rest as [|a2 rest]; cbn [firstn]; [discriminate|].
  destruct (startswith "rc" a2).
  - destruct (int_raises_value_error (drop 2 a2)) as [[k2 ->]| ->]; cbn [bind];
      [discriminate|intros H; injection H as <-; reflexivity].
  - destruct (int_raises_value_error a2) as [[k2 ->]| ->]; cbn [bind];
      [discriminate|intros H; injection H as <-; reflexivity].
Qed.

(** A version without a key makes the sort raise. *)
Lemma keys_raise (l : list string) (x : string) :
  In x l -> Tags.key_function x = Raise ValueError ->
  mapM Tags.key_function l = Raise ValueError.
Proof.
  intros Hin Hx. induction l as [|y l IH]; [destruct Hin|]. cbn [mapM].
  destruct (Tags.key_function y) as [k|e] eqn:Ey; cbn [bind].
  - destruct Hin as [->|Hin]; [congruence|]. rewrite (IH Hin). reflexivity.
  - rewrite (key_function_raises _ _ Ey). reflexivity.
Qed.

Lemma dict_get_in {V : Type} (d : list (string * V)) (k : string) (v : V) :
  dict_get d k = Some v -> In v (map snd d).
Proof.
  unfold dict_get. destruct (find _ d) as [p|] eqn:E; [|discriminate].
  cbn [option_map]. intros H. injection H as <-.
  apply find_some in E as [Hin _]. apply in_map, Hin.
Qed.

(** A dictionary with an empty version has no tag sequence. *)
Lemma uniq_tags_empty_version (tags : list (string * string)) (b : string) :
  dict_get tags b = Some "" -> uniq_tags tags = Raise ValueError.
Proof.
  intros H. unfold uniq_tags, Tags.sorted.
  rewrite (keys_raise (map snd tags) "" (dict_get_in _ _ _ H) eq_refl). reflexivity.
Qed.

(** C8: when the reads of the repository raise nothing but [KeyError],
    the resolver returns.  A tracked branch whose reference or
    configuration blob is absent is reported on the error stream and is
    not in the returned dictionary.  A tracked branch whose blob has no
    [SRCVERSION=] line is not reported: it is in the dictionary with the
    empty version, which has no key, so that [main] stops with
    [ValueError] at the sort of the versions, whatever the other
    branches and the reference repository are. *)
Theorem C8_branch_without_key_stops_run (repo : ksource_repo) (branches : list string) :
  (forall b e, In b branches ->
     revparse_tree repo ("origin/" ++ b) = Raise e -> e = KeyError) ->
  (forall b t e, In b branches ->
     revparse_tree repo ("origin/" ++ b) = Ok t ->
     tree_get t "rpm/config.sh" = Raise e -> e = KeyError) ->
  exists ret err,
    get_tags_from_ksource_tree branches repo = Ok (ret, err)
    /\ forall b, In b branches ->
         (revparse_tree repo ("origin/" ++ b) = Raise KeyError
          \/ (exists t, revparse_tree repo ("origin/" ++ b) = Ok t
                        /\ tree_get t "rpm/config.sh" = Raise KeyError) ->
          dict_get ret b = None /\ In ("# " ++ b) err)
         /\ (forall t content,
               revparse_tree repo ("origin/" ++ b) = Ok t ->
               tree_get t "rpm/config.sh" = Ok content ->
               Forall (fun l => startswith "SRCVERSION=" l = false) (split NL content) ->
               dict_get ret b = Some "" /\ ~ In ("# " ++ b) err
               /\ Tags.key_function "" = Raise ValueError
               /\ uniq_tags ret = Raise ValueError
               /\ forall lrepo, Build.main branches repo lrepo = Raise ValueError).
Proof.
  intros Href Hblob.
  assert (Hbody : forall b e, In b branches ->
                    srcversion_of_branch repo b = Raise e -> e = KeyError).
  { intros b e Hin Hb. apply srcversion_of_branch_raises in Hb as [Hb|(t & Ht & Hb)].
    - exact (Href b e Hin Hb).
    - exact (Hblob b t e Hin Ht Hb). }
  unfold get_tags_from_ksource_tree.
  destruct (get_tags_loop_returns repo branches Hbody [] []) as (ret & err & H).
  exists ret, err. split; [exact H|]. intros b Hin. split.
  - intros Habs.
    assert (Hb : srcversion_of_branch repo b = Raise KeyError).
    { unfold srcversion_of_branch.
      destruct Habs as [->|[t [-> Ht]]]; [reflexivity|]. cbn [bind]. rewrite Ht. reflexivity. }
    split.
    + rewrite (get_tags_loop_failed _ _ _ _ Hb _ _ _ _ H). reflexivity.
    + apply (get_tags_loop_err _ _ _ _ _ _ _ H). right. exists b. tauto.
  - intros t content Ht Hc Hlines.
    assert (Hb : srcversion_of_branch repo b = Ok "").
    { unfold srcversion_of_branch, extract_srcversion. rewrite Ht. cbn [bind].
      rewrite Hc. cbn [bind]. apply srcversion_of_lines_absent, Hlines. }
    assert (Hget : dict_get ret b = Some "").
    { apply (get_tags_loop_found _ _ _ _ Hb _ _ _ _ H). left. exact Hin. }
    split; [exact Hget|]. split; [|split; [reflexivity|split]].
    + intros Herr. apply (get_tags_loop_err _ _ _ _ _ _ _ H) in Herr as [[]|[b' [_ [Hb' Heq]]]].
      injection Heq as <-. rewrite Hb in Hb'. discriminate.
    + exact (uniq_tags_empty_version _ _ Hget).
    + intros lrepo. unfold Build.main, get_tags_from_ksource_tree. rewrite H.
      cbn [bind fst]. rewrite (uniq_tags_empty_version _ _ Hget). reflexivity.
Qed.

Lemma C8_branch_without_key_stops_run_witness :
  get_tags_from_ksource_tree ["SLE15"; "no-key"; "no-blob"; "gone"] Ex.krepo
  = Ok ([("SLE15", "5.3"); ("no-key", "")], ["# no-blob"; "# gone"])
  /\ (dict_get [("SLE15", "5.3"); ("no-key", "")] "no-blob" = None
      /\ In "# no-blob" ["# no-blob"; "# gone"])
  /\ (dict_get [("SLE15", "5.3"); ("no-key", "")] "gone" = None
      /\ In "# gone" ["# no-blob"; "# gone"])
  /\ (dict_get [("SLE15", "5.3"); ("no-key", "")] "no-key" = Some ""
      /\ ~ In "# no-key" ["# no-blob"; "# gone"])
  /\ Build.main ["SLE15"; "no-key"; "no-blob"; "gone"] Ex.krepo Ex.lrepo
     = Raise ValueError.
Proof.
  destruct (C8_branch_without_key_stops_run Ex.krepo ["SLE15"; "no-key"; "no-blob"; "gone"])
    as (ret & err & Hrun & H).
  - intros b e Hin.
    repeat (destruct Hin as [<-|Hin]; [vm_compute; congruence|]). destruct Hin.
  - intros b t e Hin.
    repeat (destruct Hin as [<-|Hin];
            [vm_compute; intros Ht; try discriminate; injection Ht as <-;
             vm_compute; congruence|]).
    destruct Hin.
  - assert (E : Ok (ret, err)
                = Ok ([("SLE15", "5.3"); ("no-key", "")], ["# no-blob"; "# gone"])).
    { rewrite <- Hrun. reflexivity. }
    injection E as -> ->.
    split; [reflexivity|]. split; [|split; [|split]].
    + apply (H "no-blob"); [cbn; tauto|]. right. eexists. split; reflexivity.
    + apply (H "gone"); [cbn; tauto|]. left. reflexivity.
    + destruct (proj2 (H "no-key" ltac:(cbn; tauto)) _ _ eq_refl eq_refl) as (A & B & _).
      * repeat constructor.
      * split; assumption.
    + destruct (proj2 (H "no-key" ltac:(cbn; tauto)) _ _ eq_refl eq_refl) as (_ & _ & _ & _ & M).
      * repeat constructor.
      * apply M.
Defined.

(** ** The tag of every change *)







